(** * HallOfFameServer: the Creator identity resolver

    A shallow embedding of [projects/server/services/creator.service.ts]
    (class [CreatorService]) and of [MinecraftAuthService.normalizeUuid],
    followed by the properties of the identity resolution engine.

    - JavaScript strings are sequences of UTF-16 code units ([list N]);
      [length], [slice], [replaceAll] and the regular expressions of the
      source all work on code units; [toLowerCase] works on code points,
      with the case mappings of the Unicode Character Database.
    - [string | null] is [option jsstring]; loose (in)equality [==] / [!=]
      between two such values is equality of options, and an out-of-range
      array read ([ips[0]] of an empty array) is [None].
    - Asynchronous service methods are functions in a state-and-error monad
      over an arbitrary world; every call to a collaborator (Prisma, the
      Minecraft profile service) is delegated to a [Services] record and
      logged in a trace, so that "no write occurs" is a statement on the
      trace. Calls to the logger are left out. *)

From Stdlib Require Import List NArith Bool Arith Lia String Ascii.
Import ListNotations.

Set Implicit Arguments.

(** ** JavaScript strings *)

Module Js.

Definition jsstring : Type := list N.

(** A literal of the source whose characters are all below U+0100. *)
Definition lit (s : string) : jsstring :=
  map N_of_ascii (list_ascii_of_string s).

Fixpoint str_eqb (a b : jsstring) : bool :=
  match a, b with
  | [], [] => true
  | x :: a', y :: b' => N.eqb x y && str_eqb a' b'
  | _, _ => false
  end.

Definition opt_eqb (a b : option jsstring) : bool :=
  match a, b with
  | None, None => true
  | Some x, Some y => str_eqb x y
  | _, _ => false
  end.

(** Truthiness of a [string | null] value: non-null and non-empty. *)
Definition truthy (o : option jsstring) : bool :=
  match o with
  | Some (_ :: _) => true
  | _ => false
  end.

Definition in_range (lo hi c : N) : bool := N.leb lo c && N.leb c hi.

(** ECMAScript WhiteSpace and LineTerminator code points: what [\s]
    matches and what [trim] removes. *)
Definition isWhiteSpace (c : N) : bool :=
  in_range 9 13 c || N.eqb c 32 || N.eqb c 160 || N.eqb c 5760
  || in_range 8192 8202 c || N.eqb c 8232 || N.eqb c 8233
  || N.eqb c 8239 || N.eqb c 8287 || N.eqb c 12288 || N.eqb c 65279.

Definition hyphen : N := 45.
Definition isHyphen (c : N) : bool := N.eqb c hyphen.

Fixpoint dropWhile (p : N -> bool) (s : jsstring) : jsstring :=
  match s with
  | [] => []
  | c :: r => if p c then dropWhile p r else s
  end.

Definition dropWhileEnd (p : N -> bool) (s : jsstring) : jsstring :=
  rev (dropWhile p (rev s)).

(** [String.prototype.trim]. *)
Definition trim (s : jsstring) : jsstring :=
  dropWhileEnd isWhiteSpace (dropWhile isWhiteSpace s).

(** [!name?.trim()] for [name : string | null]. *)
Definition isBlank (name : option jsstring) : bool :=
  match name with
  | None => true
  | Some n => match trim n with [] => true | _ => false end
  end.

Fixpoint prefixb (p s : jsstring) : bool :=
  match p, s with
  | [], _ => true
  | x :: p', y :: s' => N.eqb x y && prefixb p' s'
  | _ :: _, [] => false
  end.

(** [s.replaceAll(pat, rep)] for a non-empty literal [pat]: matches are
    found left to right and do not overlap; [skip] counts the code units
    of the current match that are still to be consumed. *)
Fixpoint replaceAll_from (pat rep : jsstring) (skip : nat) (s : jsstring)
  : jsstring :=
  match s with
  | [] => []
  | c :: r =>
      match skip with
      | S k => replaceAll_from pat rep k r
      | O =>
          if prefixb pat s
          then rep ++ replaceAll_from pat rep (pred (List.length pat)) r
          else c :: replaceAll_from pat rep 0 r
      end
  end.

Definition replaceAll (s pat rep : jsstring) : jsstring :=
  replaceAll_from pat rep 0 s.

(** Index of the first character class that contains [c]. *)
Fixpoint classify (classes : list (N -> bool)) (c : N) : option nat :=
  match classes with
  | [] => None
  | p :: ps => if p c then Some 0
               else match classify ps c with
                    | Some i => Some (S i)
                    | None => None
                    end
  end.

Definition same_class (a b : option nat) : bool :=
  match a, b with
  | Some i, Some j => Nat.eqb i j
  | _, _ => false
  end.

(** [s.replace(/A+|B+|.../g, rep)] where the alternatives are greedy runs
    of pairwise disjoint character classes: every maximal run of one class
    is one match. [prev] is the class of the run being consumed. *)
Fixpoint replaceRuns_from (classes : list (N -> bool)) (rep : jsstring)
  (prev : option nat) (s : jsstring) : jsstring :=
  match s with
  | [] => []
  | c :: r =>
      match classify classes c with
      | None => c :: replaceRuns_from classes rep None r
      | Some i =>
          if same_class prev (Some i)
          then replaceRuns_from classes rep (Some i) r
          else rep ++ replaceRuns_from classes rep (Some i) r
      end
  end.

Definition replaceRuns (classes : list (N -> bool)) (rep s : jsstring)
  : jsstring :=
  replaceRuns_from classes rep None s.

(** *** Lower case

    [String.prototype.toLowerCase] reads the string as code points,
    replaces each by its lower-case mapping of the Unicode Character
    Database (the simple mappings of UnicodeData.txt and the two
    unconditional rules of SpecialCasing.txt that are not bound to a
    language: U+0130 and the final sigma), and writes the result as code
    units again. The tables are those of Unicode 14.0. *)

(** The code points from [firstUpper] to [lastUpper], every [stride]-th
    of them, map to [firstLower] onwards, in order. *)
Record CaseShift : Type := Shift {
  firstUpper : N;
  lastUpper : N;
  stride : N;
  firstLower : N
}.

Record CodeSpan : Type := Span {
  spanFirst : N;
  spanLast : N
}.

Definition lowerShifts : list CaseShift :=
  [Shift 65 90 1 97; Shift 192 214 1 224; Shift 216 222 1 248;
   Shift 256 302 2 257; Shift 306 310 2 307; Shift 313 327 2 314;
   Shift 330 374 2 331; Shift 376 376 1 255; Shift 377 381 2 378;
   Shift 385 385 1 595; Shift 386 388 2 387; Shift 390 390 1 596;
   Shift 391 391 1 392; Shift 393 394 1 598; Shift 395 395 1 396;
   Shift 398 398 1 477; Shift 399 399 1 601; Shift 400 400 1 603;
   Shift 401 401 1 402; Shift 403 403 1 608; Shift 404 404 1 611;
   Shift 406 406 1 617; Shift 407 407 1 616; Shift 408 408 1 409;
   Shift 412 412 1 623; Shift 413 413 1 626; Shift 415 415 1 629;
   Shift 416 420 2 417; Shift 422 422 1 640; Shift 423 423 1 424;
   Shift 425 425 1 643; Shift 428 428 1 429; Shift 430 430 1 648;
   Shift 431 431 1 432; Shift 433 434 1 650; Shift 435 437 2 436;
   Shift 439 439 1 658; Shift 440 440 1 441; Shift 444 444 1 445;
   Shift 452 452 1 454; Shift 453 453 1 454; Shift 455 455 1 457;
   Shift 456 456 1 457; Shift 458 458 1 460; Shift 459 475 2 460;
   Shift 478 494 2 479; Shift 497 497 1 499; Shift 498 500 2 499;
   Shift 502 502 1 405; Shift 503 503 1 447; Shift 504 542 2 505;
   Shift 544 544 1 414; Shift 546 562 2 547; Shift 570 570 1 11365;
   Shift 571 571 1 572; Shift 573 573 1 410; Shift 574 574 1 11366;
   Shift 577 577 1 578; Shift 579 579 1 384; Shift 580 580 1 649;
   Shift 581 581 1 652; Shift 582 590 2 583; Shift 880 882 2 881;
   Shift 886 886 1 887; Shift 895 895 1 1011; Shift 902 902 1 940;
   Shift 904 906 1 941; Shift 908 908 1 972; Shift 910 911 1 973;
   Shift 913 929 1 945; Shift 931 939 1 963; Shift 975 975 1 983;
   Shift 984 1006 2 985; Shift 1012 1012 1 952; Shift 1015 1015 1 1016;
   Shift 1017 1017 1 1010; Shift 1018 1018 1 1019; Shift 1021 1023 1 891;
   Shift 1024 1039 1 1104; Shift 1040 1071 1 1072; Shift 1120 1152 2 1121;
   Shift 1162 1214 2 1163; Shift 1216 1216 1 1231; Shift 1217 1229 2 1218;
   Shift 1232 1326 2 1233; Shift 1329 1366 1 1377; Shift 4256 4293 1 11520;
   Shift 4295 4295 1 11559; Shift 4301 4301 1 11565; Shift 5024 5103 1 43888;
   Shift 5104 5109 1 5112; Shift 7312 7354 1 4304; Shift 7357 7359 1 4349;
   Shift 7680 7828 2 7681; Shift 7838 7838 1 223; Shift 7840 7934 2 7841;
   Shift 7944 7951 1 7936; Shift 7960 7965 1 7952; Shift 7976 7983 1 7968;
   Shift 7992 7999 1 7984; Shift 8008 8013 1 8000; Shift 8025 8031 2 8017;
   Shift 8040 8047 1 8032; Shift 8072 8079 1 8064; Shift 8088 8095 1 8080;
   Shift 8104 8111 1 8096; Shift 8120 8121 1 8112; Shift 8122 8123 1 8048;
   Shift 8124 8124 1 8115; Shift 8136 8139 1 8050; Shift 8140 8140 1 8131;
   Shift 8152 8153 1 8144; Shift 8154 8155 1 8054; Shift 8168 8169 1 8160;
   Shift 8170 8171 1 8058; Shift 8172 8172 1 8165; Shift 8184 8185 1 8056;
   Shift 8186 8187 1 8060; Shift 8188 8188 1 8179; Shift 8486 8486 1 969;
   Shift 8490 8490 1 107; Shift 8491 8491 1 229; Shift 8498 8498 1 8526;
   Shift 8544 8559 1 8560; Shift 8579 8579 1 8580; Shift 9398 9423 1 9424;
   Shift 11264 11311 1 11312; Shift 11360 11360 1 11361;
   Shift 11362 11362 1 619; Shift 11363 11363 1 7549;
   Shift 11364 11364 1 637; Shift 11367 11371 2 11368;
   Shift 11373 11373 1 593; Shift 11374 11374 1 625; Shift 11375 11375 1 592;
   Shift 11376 11376 1 594; Shift 11378 11378 1 11379;
   Shift 11381 11381 1 11382; Shift 11390 11391 1 575;
   Shift 11392 11490 2 11393; Shift 11499 11501 2 11500;
   Shift 11506 11506 1 11507; Shift 42560 42604 2 42561;
   Shift 42624 42650 2 42625; Shift 42786 42798 2 42787;
   Shift 42802 42862 2 42803; Shift 42873 42875 2 42874;
   Shift 42877 42877 1 7545; Shift 42878 42886 2 42879;
   Shift 42891 42891 1 42892; Shift 42893 42893 1 613;
   Shift 42896 42898 2 42897; Shift 42902 42920 2 42903;
   Shift 42922 42922 1 614; Shift 42923 42923 1 604; Shift 42924 42924 1 609;
   Shift 42925 42925 1 620; Shift 42926 42926 1 618; Shift 42928 42928 1 670;
   Shift 42929 42929 1 647; Shift 42930 42930 1 669;
   Shift 42931 42931 1 43859; Shift 42932 42946 2 42933;
   Shift 42948 42948 1 42900; Shift 42949 42949 1 642;
   Shift 42950 42950 1 7566; Shift 42951 42953 2 42952;
   Shift 42960 42960 1 42961; Shift 42966 42968 2 42967;
   Shift 42997 42997 1 42998; Shift 65313 65338 1 65345;
   Shift 66560 66599 1 66600; Shift 66736 66771 1 66776;
   Shift 66928 66938 1 66967; Shift 66940 66954 1 66979;
   Shift 66956 66962 1 66995; Shift 66964 66965 1 67003;
   Shift 68736 68786 1 68800; Shift 71840 71871 1 71872;
   Shift 93760 93791 1 93792; Shift 125184 125217 1 125218].

Definition casedSpans : list CodeSpan :=
  [Span 65 90; Span 97 122; Span 170 170; Span 181 181; Span 186 186;
   Span 192 214; Span 216 246; Span 248 442; Span 444 447; Span 452 659;
   Span 661 696; Span 704 705; Span 736 740; Span 837 837; Span 880 883;
   Span 886 887; Span 890 893; Span 895 895; Span 902 902; Span 904 906;
   Span 908 908; Span 910 929; Span 931 1013; Span 1015 1153; Span 1162 1327;
   Span 1329 1366; Span 1376 1416; Span 4256 4293; Span 4295 4295;
   Span 4301 4301; Span 4304 4346; Span 4349 4351; Span 5024 5109;
   Span 5112 5117; Span 7296 7304; Span 7312 7354; Span 7357 7359;
   Span 7424 7615; Span 7680 7957; Span 7960 7965; Span 7968 8005;
   Span 8008 8013; Span 8016 8023; Span 8025 8025; Span 8027 8027;
   Span 8029 8029; Span 8031 8061; Span 8064 8116; Span 8118 8124;
   Span 8126 8126; Span 8130 8132; Span 8134 8140; Span 8144 8147;
   Span 8150 8155; Span 8160 8172; Span 8178 8180; Span 8182 8188;
   Span 8305 8305; Span 8319 8319; Span 8336 8348; Span 8450 8450;
   Span 8455 8455; Span 8458 8467; Span 8469 8469; Span 8473 8477;
   Span 8484 8484; Span 8486 8486; Span 8488 8488; Span 8490 8493;
   Span 8495 8500; Span 8505 8505; Span 8508 8511; Span 8517 8521;
   Span 8526 8526; Span 8544 8575; Span 8579 8580; Span 9398 9449;
   Span 11264 11492; Span 11499 11502; Span 11506 11507; Span 11520 11557;
   Span 11559 11559; Span 11565 11565; Span 42560 42605; Span 42624 42653;
   Span 42786 42887; Span 42891 42894; Span 42896 42954; Span 42960 42961;
   Span 42963 42963; Span 42965 42969; Span 42997 42998; Span 43000 43002;
   Span 43824 43866; Span 43868 43880; Span 43888 43967; Span 64256 64262;
   Span 64275 64279; Span 65313 65338; Span 65345 65370; Span 66560 66639;
   Span 66736 66771; Span 66776 66811; Span 66928 66938; Span 66940 66954;
   Span 66956 66962; Span 66964 66965; Span 66967 66977; Span 66979 66993;
   Span 66995 67001; Span 67003 67004; Span 67456 67456; Span 67459 67461;
   Span 67463 67504; Span 67506 67514; Span 68736 68786; Span 68800 68850;
   Span 71840 71903; Span 93760 93823; Span 119808 119892;
   Span 119894 119964; Span 119966 119967; Span 119970 119970;
   Span 119973 119974; Span 119977 119980; Span 119982 119993;
   Span 119995 119995; Span 119997 120003; Span 120005 120069;
   Span 120071 120074; Span 120077 120084; Span 120086 120092;
   Span 120094 120121; Span 120123 120126; Span 120128 120132;
   Span 120134 120134; Span 120138 120144; Span 120146 120485;
   Span 120488 120512; Span 120514 120538; Span 120540 120570;
   Span 120572 120596; Span 120598 120628; Span 120630 120654;
   Span 120656 120686; Span 120688 120712; Span 120714 120744;
   Span 120746 120770; Span 120772 120779; Span 122624 122633;
   Span 122635 122654; Span 125184 125251; Span 127280 127305;
   Span 127312 127337; Span 127344 127369].

Definition caseIgnorableSpans : list CodeSpan :=
  [Span 39 39; Span 46 46; Span 58 58; Span 94 94; Span 96 96; Span 168 168;
   Span 173 173; Span 175 175; Span 180 180; Span 183 184; Span 688 879;
   Span 884 885; Span 890 890; Span 900 901; Span 903 903; Span 1155 1161;
   Span 1369 1369; Span 1375 1375; Span 1425 1469; Span 1471 1471;
   Span 1473 1474; Span 1476 1477; Span 1479 1479; Span 1524 1524;
   Span 1536 1541; Span 1552 1562; Span 1564 1564; Span 1600 1600;
   Span 1611 1631; Span 1648 1648; Span 1750 1757; Span 1759 1768;
   Span 1770 1773; Span 1807 1807; Span 1809 1809; Span 1840 1866;
   Span 1958 1968; Span 2027 2037; Span 2042 2042; Span 2045 2045;
   Span 2070 2093; Span 2137 2139; Span 2184 2184; Span 2192 2193;
   Span 2200 2207; Span 2249 2306; Span 2362 2362; Span 2364 2364;
   Span 2369 2376; Span 2381 2381; Span 2385 2391; Span 2402 2403;
   Span 2417 2417; Span 2433 2433; Span 2492 2492; Span 2497 2500;
   Span 2509 2509; Span 2530 2531; Span 2558 2558; Span 2561 2562;
   Span 2620 2620; Span 2625 2626; Span 2631 2632; Span 2635 2637;
   Span 2641 2641; Span 2672 2673; Span 2677 2677; Span 2689 2690;
   Span 2748 2748; Span 2753 2757; Span 2759 2760; Span 2765 2765;
   Span 2786 2787; Span 2810 2815; Span 2817 2817; Span 2876 2876;
   Span 2879 2879; Span 2881 2884; Span 2893 2893; Span 2901 2902;
   Span 2914 2915; Span 2946 2946; Span 3008 3008; Span 3021 3021;
   Span 3072 3072; Span 3076 3076; Span 3132 3132; Span 3134 3136;
   Span 3142 3144; Span 3146 3149; Span 3157 3158; Span 3170 3171;
   Span 3201 3201; Span 3260 3260; Span 3263 3263; Span 3270 3270;
   Span 3276 3277; Span 3298 3299; Span 3328 3329; Span 3387 3388;
   Span 3393 3396; Span 3405 3405; Span 3426 3427; Span 3457 3457;
   Span 3530 3530; Span 3538 3540; Span 3542 3542; Span 3633 3633;
   Span 3636 3642; Span 3654 3662; Span 3761 3761; Span 3764 3772;
   Span 3782 3782; Span 3784 3789; Span 3864 3865; Span 3893 3893;
   Span 3895 3895; Span 3897 3897; Span 3953 3966; Span 3968 3972;
   Span 3974 3975; Span 3981 3991; Span 3993 4028; Span 4038 4038;
   Span 4141 4144; Span 4146 4151; Span 4153 4154; Span 4157 4158;
   Span 4184 4185; Span 4190 4192; Span 4209 4212; Span 4226 4226;
   Span 4229 4230; Span 4237 4237; Span 4253 4253; Span 4348 4348;
   Span 4957 4959; Span 5906 5908; Span 5938 5939; Span 5970 5971;
   Span 6002 6003; Span 6068 6069; Span 6071 6077; Span 6086 6086;
   Span 6089 6099; Span 6103 6103; Span 6109 6109; Span 6155 6159;
   Span 6211 6211; Span 6277 6278; Span 6313 6313; Span 6432 6434;
   Span 6439 6440; Span 6450 6450; Span 6457 6459; Span 6679 6680;
   Span 6683 6683; Span 6742 6742; Span 6744 6750; Span 6752 6752;
   Span 6754 6754; Span 6757 6764; Span 6771 6780; Span 6783 6783;
   Span 6823 6823; Span 6832 6862; Span 6912 6915; Span 6964 6964;
   Span 6966 6970; Span 6972 6972; Span 6978 6978; Span 7019 7027;
   Span 7040 7041; Span 7074 7077; Span 7080 7081; Span 7083 7085;
   Span 7142 7142; Span 7144 7145; Span 7149 7149; Span 7151 7153;
   Span 7212 7219; Span 7222 7223; Span 7288 7293; Span 7376 7378;
   Span 7380 7392; Span 7394 7400; Span 7405 7405; Span 7412 7412;
   Span 7416 7417; Span 7468 7530; Span 7544 7544; Span 7579 7679;
   Span 8125 8125; Span 8127 8129; Span 8141 8143; Span 8157 8159;
   Span 8173 8175; Span 8189 8190; Span 8203 8207; Span 8216 8217;
   Span 8228 8228; Span 8231 8231; Span 8234 8238; Span 8288 8292;
   Span 8294 8303; Span 8305 8305; Span 8319 8319; Span 8336 8348;
   Span 8400 8432; Span 11388 11389; Span 11503 11505; Span 11631 11631;
   Span 11647 11647; Span 11744 11775; Span 11823 11823; Span 12293 12293;
   Span 12330 12333; Span 12337 12341; Span 12347 12347; Span 12441 12446;
   Span 12540 12542; Span 40981 40981; Span 42232 42237; Span 42508 42508;
   Span 42607 42610; Span 42612 42621; Span 42623 42623; Span 42652 42655;
   Span 42736 42737; Span 42752 42785; Span 42864 42864; Span 42888 42890;
   Span 42994 42996; Span 43000 43001; Span 43010 43010; Span 43014 43014;
   Span 43019 43019; Span 43045 43046; Span 43052 43052; Span 43204 43205;
   Span 43232 43249; Span 43263 43263; Span 43302 43309; Span 43335 43345;
   Span 43392 43394; Span 43443 43443; Span 43446 43449; Span 43452 43453;
   Span 43471 43471; Span 43493 43494; Span 43561 43566; Span 43569 43570;
   Span 43573 43574; Span 43587 43587; Span 43596 43596; Span 43632 43632;
   Span 43644 43644; Span 43696 43696; Span 43698 43700; Span 43703 43704;
   Span 43710 43711; Span 43713 43713; Span 43741 43741; Span 43756 43757;
   Span 43763 43764; Span 43766 43766; Span 43867 43871; Span 43881 43883;
   Span 44005 44005; Span 44008 44008; Span 44013 44013; Span 64286 64286;
   Span 64434 64450; Span 65024 65039; Span 65043 65043; Span 65056 65071;
   Span 65106 65106; Span 65109 65109; Span 65279 65279; Span 65287 65287;
   Span 65294 65294; Span 65306 65306; Span 65342 65342; Span 65344 65344;
   Span 65392 65392; Span 65438 65439; Span 65507 65507; Span 65529 65531;
   Span 66045 66045; Span 66272 66272; Span 66422 66426; Span 67456 67461;
   Span 67463 67504; Span 67506 67514; Span 68097 68099; Span 68101 68102;
   Span 68108 68111; Span 68152 68154; Span 68159 68159; Span 68325 68326;
   Span 68900 68903; Span 69291 69292; Span 69446 69456; Span 69506 69509;
   Span 69633 69633; Span 69688 69702; Span 69744 69744; Span 69747 69748;
   Span 69759 69761; Span 69811 69814; Span 69817 69818; Span 69821 69821;
   Span 69826 69826; Span 69837 69837; Span 69888 69890; Span 69927 69931;
   Span 69933 69940; Span 70003 70003; Span 70016 70017; Span 70070 70078;
   Span 70089 70092; Span 70095 70095; Span 70191 70193; Span 70196 70196;
   Span 70198 70199; Span 70206 70206; Span 70367 70367; Span 70371 70378;
   Span 70400 70401; Span 70459 70460; Span 70464 70464; Span 70502 70508;
   Span 70512 70516; Span 70712 70719; Span 70722 70724; Span 70726 70726;
   Span 70750 70750; Span 70835 70840; Span 70842 70842; Span 70847 70848;
   Span 70850 70851; Span 71090 71093; Span 71100 71101; Span 71103 71104;
   Span 71132 71133; Span 71219 71226; Span 71229 71229; Span 71231 71232;
   Span 71339 71339; Span 71341 71341; Span 71344 71349; Span 71351 71351;
   Span 71453 71455; Span 71458 71461; Span 71463 71467; Span 71727 71735;
   Span 71737 71738; Span 71995 71996; Span 71998 71998; Span 72003 72003;
   Span 72148 72151; Span 72154 72155; Span 72160 72160; Span 72193 72202;
   Span 72243 72248; Span 72251 72254; Span 72263 72263; Span 72273 72278;
   Span 72281 72283; Span 72330 72342; Span 72344 72345; Span 72752 72758;
   Span 72760 72765; Span 72767 72767; Span 72850 72871; Span 72874 72880;
   Span 72882 72883; Span 72885 72886; Span 73009 73014; Span 73018 73018;
   Span 73020 73021; Span 73023 73029; Span 73031 73031; Span 73104 73105;
   Span 73109 73109; Span 73111 73111; Span 73459 73460; Span 78896 78904;
   Span 92912 92916; Span 92976 92982; Span 92992 92995; Span 94031 94031;
   Span 94095 94111; Span 94176 94177; Span 94179 94180; Span 110576 110579;
   Span 110581 110587; Span 110589 110590; Span 113821 113822;
   Span 113824 113827; Span 118528 118573; Span 118576 118598;
   Span 119143 119145; Span 119155 119170; Span 119173 119179;
   Span 119210 119213; Span 119362 119364; Span 121344 121398;
   Span 121403 121452; Span 121461 121461; Span 121476 121476;
   Span 121499 121503; Span 121505 121519; Span 122880 122886;
   Span 122888 122904; Span 122907 122913; Span 122915 122916;
   Span 122918 122922; Span 123184 123197; Span 123566 123566;
   Span 123628 123631; Span 125136 125142; Span 125252 125259;
   Span 127995 127999; Span 917505 917505; Span 917536 917631;
   Span 917760 917999].

Definition within (p : N) (s : CodeSpan) : bool :=
  N.leb (spanFirst s) p && N.leb p (spanLast s).

(** The properties Cased and Case_Ignorable. *)
Definition isCased (p : N) : bool := existsb (within p) casedSpans.
Definition isCaseIgnorable (p : N) : bool :=
  existsb (within p) caseIgnorableSpans.

Definition shifts (p : N) (r : CaseShift) : bool :=
  N.leb (firstUpper r) p && N.leb p (lastUpper r)
  && N.eqb ((p - firstUpper r) mod stride r) 0.

(** Simple_Lowercase_Mapping. *)
Definition simpleLowerCase (p : N) : N :=
  match find (shifts p) lowerShifts with
  | Some r => (firstLower r + (p - firstUpper r))%N
  | None => p
  end.

Definition capitalSigma : N := 931.
Definition finalSigma : N := 962.

(** The lower-case mapping of a code point out of context: U+0130 maps
    to two code points. *)
Definition lowerPoint (p : N) : list N :=
  if N.eqb p 304 then [105; 775]%N else [simpleLowerCase p].

(** Whether a cased letter follows, case-ignorable code points apart. *)
Definition followedByCased (rest : list N) : bool :=
  match dropWhile isCaseIgnorable rest with
  | [] => false
  | p :: _ => isCased p
  end.

(** The lower-case mapping of a sequence of code points. [afterCased]
    tells whether a cased letter precedes, case-ignorable code points
    apart: a capital sigma in this position that no cased letter follows
    becomes the final sigma. *)
Fixpoint lowerPoints (afterCased : bool) (points : list N) : list N :=
  match points with
  | [] => []
  | p :: rest =>
      (if N.eqb p capitalSigma && afterCased && negb (followedByCased rest)
       then [finalSigma]
       else lowerPoint p)
      ++ lowerPoints (if isCaseIgnorable p then afterCased else isCased p)
           rest
  end.

Definition isLeadSurrogate (c : N) : bool := in_range 55296 56319 c.
Definition isTrailSurrogate (c : N) : bool := in_range 56320 57343 c.

(** The code points of a string: a lead surrogate followed by a trail
    surrogate is one code point, any other code unit is one of its own. *)
Fixpoint toCodePoints (s : jsstring) : list N :=
  match s with
  | [] => []
  | hi :: t =>
      match t with
      | lo :: r =>
          if isLeadSurrogate hi && isTrailSurrogate lo
          then (65536 + (hi - 55296) * 1024 + (lo - 56320))%N
               :: toCodePoints r
          else hi :: toCodePoints t
      | [] => [hi]
      end
  end.

(** The code units of a code point; there is no code point above
    U+10FFFF, and a larger value is left as it is. *)
Definition fromCodePoint (p : N) : jsstring :=
  if N.ltb p 65536 || N.ltb 1114111 p then [p]
  else [(55296 + (p - 65536) / 1024)%N; (56320 + (p - 65536) mod 1024)%N].

(** [String.prototype.toLowerCase]. *)
Definition toLowerCase (s : jsstring) : jsstring :=
  flat_map fromCodePoint (lowerPoints false (toCodePoints s)).

(** [s.slice(from, to)] and [s.slice(from)] for non-negative indices. *)
Definition slice (s : jsstring) (from to : nat) : jsstring :=
  firstn (to - from) (skipn from s).

Definition sliceFrom (s : jsstring) (from : nat) : jsstring := skipn from s.

End Js.

Import Js.

(** ** The [uuid] package *)

Module Uuid.

Definition isDigit (c : N) : bool := in_range 48 57 c.
Definition isLowerHex (c : N) : bool := isDigit c || in_range 97 102 c.
Definition isHex (c : N) : bool := isLowerHex c || in_range 65 70 c.

(** [[1-8]] *)
Definition isVersionDigit (c : N) : bool := in_range 49 56 c.
(** [[89ab]] under the [i] flag. *)
Definition isVariantDigit (c : N) : bool :=
  N.eqb c 56 || N.eqb c 57 || N.eqb c 97 || N.eqb c 98
  || N.eqb c 65 || N.eqb c 66.
Definition isZero (c : N) : bool := N.eqb c 48.
Definition isF (c : N) : bool := N.eqb c 102 || N.eqb c 70.

(** An anchored regular expression that is a sequence of character
    classes, one per code unit. *)
Fixpoint matches (classes : list (N -> bool)) (s : jsstring) : bool :=
  match classes, s with
  | [], [] => true
  | p :: ps, c :: r => p c && matches ps r
  | _, _ => false
  end.

Definition group (n : nat) (p : N -> bool) : list (N -> bool) := repeat p n.

Definition shape (g1 g2 g3 g4 g5 : list (N -> bool)) : list (N -> bool) :=
  g1 ++ [isHyphen] ++ g2 ++ [isHyphen] ++ g3 ++ [isHyphen] ++ g4
     ++ [isHyphen] ++ g5.

(** The three alternatives of the package's regular expression:
    [[0-9a-f]{8}-[0-9a-f]{4}-[1-8][0-9a-f]{3}-[89ab][0-9a-f]{3}-[0-9a-f]{12}],
    the nil UUID and the max UUID, all under the [i] flag. *)
Definition rfcPattern : list (N -> bool) :=
  shape (group 8 isHex) (group 4 isHex)
        (isVersionDigit :: group 3 isHex)
        (isVariantDigit :: group 3 isHex) (group 12 isHex).

Definition nilPattern : list (N -> bool) :=
  shape (group 8 isZero) (group 4 isZero) (group 4 isZero)
        (group 4 isZero) (group 12 isZero).

Definition maxPattern : list (N -> bool) :=
  shape (group 8 isF) (group 4 isF) (group 4 isF) (group 4 isF)
        (group 12 isF).

(** [uuid.validate]. *)
Definition validate (s : jsstring) : bool :=
  matches rfcPattern s || matches nilPattern s || matches maxPattern s.

Definition hexValue (c : N) : option N :=
  if isDigit c then Some (c - 48)%N
  else if in_range 97 102 c then Some (c - 87)%N
  else if in_range 65 70 c then Some (c - 55)%N
  else None.

(** [uuid.version] of a string that validates:
    [parseInt(uuid.slice(14, 15), 16)]. *)
Definition version (s : jsstring) : option N :=
  match slice s 14 15 with
  | [c] => hexValue c
  | _ => None
  end.

End Uuid.

(** ** Data model *)

(** [Creator['creatorIdProvider']]; [OtherProvider] stands for any tag that
    reaches the [default] branch of the provider switch. *)
Inductive CreatorIdProvider : Type :=
| Paradox
| LocalProvider
| MinecraftOfficial
| MinecraftOffline
| OtherProvider (tag : jsstring).

Definition provider_eqb (a b : CreatorIdProvider) : bool :=
  match a, b with
  | Paradox, Paradox => true
  | LocalProvider, LocalProvider => true
  | MinecraftOfficial, MinecraftOfficial => true
  | MinecraftOffline, MinecraftOffline => true
  | OtherProvider s, OtherProvider t => str_eqb s t
  | _, _ => false
  end.

(** The fields of the Prisma [Creator] record that the resolver reads or
    writes ([id] is the internal identifier, [creatorId] the external one). *)
Record Creator : Type := {
  id : nat;
  creatorId : jsstring;
  creatorIdProvider : CreatorIdProvider;
  creatorName : option jsstring;
  creatorNameSlug : option jsstring;
  minecraftPlayerUuid : option jsstring;
  allowCreatorIdReset : bool;
  hwids : list jsstring;
  ips : list jsstring
}.

Record SimpleCreatorAuthorization : Type := {
  simpleCreatorId : jsstring;
  simpleIp : jsstring
}.

Record ModCreatorAuthorization : Type := {
  authCreatorName : option jsstring;
  authCreatorId : jsstring;
  authCreatorIdProvider : CreatorIdProvider;
  authHwid : jsstring;
  authIp : jsstring;
  minecraftAccessToken : option jsstring;
  authMinecraftPlayerUuid : option jsstring
}.

Inductive CreatorAuthorization : Type :=
| KindSimple (authorization : SimpleCreatorAuthorization)
| KindMod (authorization : ModCreatorAuthorization).

Record MinecraftOfficialProfile : Type := {
  profileUuid : jsstring;
  profileUsername : option jsstring
}.

(** The local interface [CreatorContext]. *)
Record CreatorContext : Type := {
  effectiveCreatorId : jsstring;
  effectiveCreatorName : option jsstring;
  effectiveMinecraftPlayerUuid : option jsstring;
  ctxCreatorNameSlug : option jsstring;
  ctxHwid : jsstring;
  ctxIp : jsstring;
  ctxCreatorIdProvider : CreatorIdProvider
}.

(** ** Errors *)

Inductive MinecraftAuthError : Type :=
| MinecraftAuthRequestError (message : string) (status : option N)
| MinecraftAuthInvalidAccessTokenError
| MinecraftAuthMalformedResponseError
| MinecraftAuthInvalidUuidError (value : jsstring).

(** Everything the service can throw: the [CreatorError] subclasses, a
    [MinecraftAuthError] that escapes unwrapped, the [AssertionError] of
    [node:assert], a Prisma error with its code, and any other value. *)
Inductive Error : Type :=
| InvalidCreatorIdError (creatorId : jsstring)
| MissingMinecraftOfficialAccessTokenError
| MissingMinecraftOfflinePlayerUuidError
| InvalidMinecraftPlayerUuidError (value : jsstring)
| UnsupportedCreatorIdProviderError (provider : jsstring)
| MinecraftOfficialAuthenticationError (cause : MinecraftAuthError)
| InvalidCreatorNameError (incorrectName : jsstring)
| CreatorNotFoundError
| IncorrectCreatorIdError (creatorName : jsstring)
| MinecraftAuthThrown (error : MinecraftAuthError)
| AssertionError (message : option string)
| PrismaError (code : string)
| OtherError (description : string).

(** [error instanceof CreatorError]. *)
Definition isCreatorError (e : Error) : bool :=
  match e with
  | MinecraftAuthThrown _ | AssertionError _ | PrismaError _
  | OtherError _ => false
  | _ => true
  end.

(** [isPrismaError(error) && error.code == 'P2002']. *)
Definition isUniqueConstraintViolation (e : Error) : bool :=
  match e with
  | PrismaError code => String.eqb code "P2002"
  | _ => false
  end.

Inductive Outcome (A : Type) : Type :=
| Returned (value : A)
| Thrown (error : Error).

Arguments Returned {A} value.
Arguments Thrown {A} error.

(** ** Pure helpers of the service *)

Definition mapOutcome {A B : Type} (f : A -> B) (o : Outcome A) : Outcome B :=
  match o with
  | Returned a => Returned (f a)
  | Thrown e => Thrown e
  end.

(** [MinecraftAuthService.normalizeUuid]. *)
Definition hyphenate (compact : jsstring) : jsstring :=
  slice compact 0 8 ++ [hyphen] ++ slice compact 8 12 ++ [hyphen]
  ++ slice compact 12 16 ++ [hyphen] ++ slice compact 16 20 ++ [hyphen]
  ++ sliceFrom compact 20.

Definition normalizeUuid (input : jsstring) : Outcome jsstring :=
  let compact := toLowerCase (replaceAll input [hyphen] []) in
  if negb (Nat.eqb (List.length compact) 32)
  then Thrown (MinecraftAuthThrown (MinecraftAuthInvalidUuidError input))
  else
    let hyphenated := hyphenate compact in
    if negb (Uuid.validate hyphenated)
    then Thrown (MinecraftAuthThrown (MinecraftAuthInvalidUuidError input))
    else Returned hyphenated.

(** The second literal of [getCreatorNameSlug], as the source file has it:
    the three code units U+00E2 U+20AC U+2122. *)
Definition apostropheVariant : jsstring := [226; 8364; 8482]%N.

(** [CreatorService.getCreatorNameSlug]. *)
Definition getCreatorNameSlug (name : option jsstring) : option jsstring :=
  match name with
  | None => None
  | Some n =>
      if isBlank name then None
      else
        let s1 := replaceAll n (lit "'") [] in
        let s2 := replaceAll s1 apostropheVariant [] in
        let s3 := replaceRuns [isWhiteSpace; isHyphen] [hyphen] s2 in
        let s4 := dropWhileEnd isHyphen (dropWhile isHyphen s3) in
        Some (toLowerCase s4)
  end.

(** [CreatorService.ensureValidCreatorId]. *)
Definition isValidCreatorId (creatorId : jsstring) : bool :=
  Uuid.validate creatorId
  && match Uuid.version creatorId with
     | Some v => N.eqb v 4
     | None => false
     end.

Definition ensureValidCreatorId (creatorId : jsstring) : Outcome unit :=
  if negb (isValidCreatorId creatorId)
  then Thrown (InvalidCreatorIdError creatorId)
  else Returned tt.

(** [CreatorService.validateCreatorName]. *)
Definition validateCreatorName (name : option jsstring)
  : Outcome (option jsstring) :=
  match name with
  | None => Returned None
  | Some n =>
      if isBlank name then Returned None
      else if Nat.ltb 25 (List.length n)
      then Thrown (InvalidCreatorNameError n)
      else Returned (Some (replaceRuns [isWhiteSpace] (lit " ") n))
  end.

(** [Array.from(new Set(values))]: the first occurrence of every value,
    in order. *)
Fixpoint uniq (seen values : list jsstring) : list jsstring :=
  match values with
  | [] => []
  | v :: rest =>
      if existsb (str_eqb v) seen then uniq seen rest
      else v :: uniq (v :: seen) rest
  end.

(** [Array.from(new Set([value, ...history])).slice(0, 3)]. *)
Definition mergeHistory (value : jsstring) (history : list jsstring)
  : list jsstring :=
  firstn 3 (uniq [] (value :: history)).

(** ** Collaborators *)

Inductive Condition : Type :=
| ByCreatorId (value : jsstring)
| ByCreatorName (value : jsstring)
| ByCreatorNameSlug (value : option jsstring)
| ByMinecraftPlayerUuid (value : jsstring).

(** The [where] argument of [findMany]: one condition, or [{ OR: [...] }]. *)
Inductive Where : Type :=
| WhereOne (condition : Condition)
| WhereOr (conditions : list Condition).

(** The [data] argument of [prisma.creator.create]. *)
Record CreateData : Type := {
  newCreatorId : jsstring;
  newCreatorIdProvider : CreatorIdProvider;
  newCreatorName : option jsstring;
  newCreatorNameSlug : option jsstring;
  newMinecraftPlayerUuid : option jsstring;
  newHwids : list jsstring;
  newIps : list jsstring
}.

(** The [data] argument of [prisma.creator.update]: a field that is not
    listed ([None]) is left as it is. *)
Record UpdateData : Type := {
  setCreatorName : option (option jsstring);
  setCreatorNameSlug : option (option jsstring);
  setAllowCreatorIdReset : option bool;
  setCreatorId : option jsstring;
  setCreatorIdProvider : option CreatorIdProvider;
  setMinecraftPlayerUuid : option (option jsstring);
  setHwids : option (list jsstring);
  setIps : option (list jsstring)
}.

(** What the service reaches through [this.prisma] and
    [this.minecraftAuth.verifyOfficialAccount]: each call reads and may
    change the world (the database, the network, other requests running
    at the same time) and returns or throws. *)
Record Services (World : Type) : Type := {
  findUnique : jsstring -> World -> Outcome (option Creator) * World;
  findMany : Where -> World -> Outcome (list Creator) * World;
  create : CreateData -> World -> Outcome Creator * World;
  update : nat -> UpdateData -> World -> Outcome Creator * World;
  verifyOfficialAccount :
    jsstring -> World -> Outcome MinecraftOfficialProfile * World
}.

(** One entry per call made by the request, with what came back. *)
Inductive Event : Type :=
| FindUniqueCalled (creatorId : jsstring) (out : Outcome (option Creator))
| FindManyCalled (where_ : Where) (out : Outcome (list Creator))
| CreateCalled (data : CreateData) (out : Outcome Creator)
| UpdateCalled (id : nat) (data : UpdateData) (out : Outcome Creator)
| VerifyOfficialAccountCalled (accessToken : jsstring)
    (out : Outcome MinecraftOfficialProfile)
| TranslationSpawned (creator : Creator).

Definition isWrite (e : Event) : bool :=
  match e with
  | CreateCalled _ _ | UpdateCalled _ _ _ => true
  | _ => false
  end.

Definition writes (trace : list Event) : list Event := filter isWrite trace.

(** ** The request monad *)

Record Run (World A : Type) : Type := {
  outcome : Outcome A;
  final : World;
  trace : list Event
}.

Definition M (World A : Type) : Type := World -> Run World A.

Definition ret {World A : Type} (a : A) : M World A :=
  fun w => {| outcome := Returned a; final := w; trace := [] |}.

Definition throw {World A : Type} (e : Error) : M World A :=
  fun w => {| outcome := Thrown e; final := w; trace := [] |}.

Definition bind {World A B : Type} (m : M World A) (k : A -> M World B)
  : M World B :=
  fun w =>
    let r := m w in
    match outcome r with
    | Returned a =>
        let r' := k a (final r) in
        {| outcome := outcome r'; final := final r';
           trace := trace r ++ trace r' |}
    | Thrown e => {| outcome := Thrown e; final := final r; trace := trace r |}
    end.

(** [try { m } catch (error) { handler(error) }]. *)
Definition tryCatch {World A : Type} (m : M World A)
  (handler : Error -> M World A) : M World A :=
  fun w =>
    let r := m w in
    match outcome r with
    | Returned a => r
    | Thrown e =>
        let r' := handler e (final r) in
        {| outcome := outcome r'; final := final r';
           trace := trace r ++ trace r' |}
    end.

Definition liftOutcome {World A : Type} (o : Outcome A) : M World A :=
  match o with
  | Returned a => ret a
  | Thrown e => throw e
  end.

(** [assert(condition, message)]; the message is optional. *)
Definition assert {World : Type} (condition : bool) (message : option string)
  : M World unit :=
  if condition then ret tt else throw (AssertionError message).

Definition emit {World : Type} (e : Event) : M World unit :=
  fun w => {| outcome := Returned tt; final := w; trace := [e] |}.

Declare Scope request_scope.
Delimit Scope request_scope with request.
Notation "x <- m ;; k" := (bind m (fun x => k))
  (at level 61, m at next level, right associativity) : request_scope.
Notation "m ;;; k" := (bind m (fun _ => k))
  (at level 61, right associativity) : request_scope.
Local Open Scope request_scope.

(** ** [CreatorService] *)

Section CreatorService.

Variable World : Type.
Variable services : Services World.

Definition prismaFindUnique (creatorId : jsstring)
  : M World (option Creator) :=
  fun w =>
    let (out, w') := findUnique services creatorId w in
    {| outcome := out; final := w'; trace := [FindUniqueCalled creatorId out] |}.

Definition prismaFindMany (where_ : Where) : M World (list Creator) :=
  fun w =>
    let (out, w') := findMany services where_ w in
    {| outcome := out; final := w'; trace := [FindManyCalled where_ out] |}.

Definition prismaCreate (data : CreateData) : M World Creator :=
  fun w =>
    let (out, w') := create services data w in
    {| outcome := out; final := w'; trace := [CreateCalled data out] |}.

Definition prismaUpdate (id : nat) (data : UpdateData) : M World Creator :=
  fun w =>
    let (out, w') := update services id data w in
    {| outcome := out; final := w'; trace := [UpdateCalled id data out] |}.

Definition minecraftAuthVerifyOfficialAccount (accessToken : jsstring)
  : M World MinecraftOfficialProfile :=
  fun w =>
    let (out, w') := verifyOfficialAccount services accessToken w in
    {| outcome := out; final := w';
       trace := [VerifyOfficialAccountCalled accessToken out] |}.

(** [backgroundUpdateCreatorNameTranslation]: the translation is started
    and not awaited; its own writes happen after the request and its
    failures are caught and logged. *)
Definition backgroundUpdateCreatorNameTranslation (creatorToTranslate : Creator)
  : M World unit :=
  emit (TranslationSpawned creatorToTranslate).

Definition noUpdate : UpdateData :=
  {| setCreatorName := None; setCreatorNameSlug := None;
     setAllowCreatorIdReset := None; setCreatorId := None;
     setCreatorIdProvider := None; setMinecraftPlayerUuid := None;
     setHwids := None; setIps := None |}.

(** [authenticateCreatorSimple]. *)
Definition authenticateCreatorSimple (authorization : SimpleCreatorAuthorization)
  : M World Creator :=
  found <- prismaFindUnique (simpleCreatorId authorization) ;;
  match found with
  | None => throw CreatorNotFoundError
  | Some creator =>
      if negb (opt_eqb (hd_error (ips creator))
                 (Some (simpleIp authorization)))
      then
        prismaUpdate (id creator)
          {| setCreatorName := None; setCreatorNameSlug := None;
             setAllowCreatorIdReset := None; setCreatorId := None;
             setCreatorIdProvider := None; setMinecraftPlayerUuid := None;
             setHwids := None;
             setIps := Some (mergeHistory (simpleIp authorization)
                               (ips creator)) |}
      else ret creator
  end.

(** The three [let] variables of [authenticateCreatorForModUnsafe]. *)
Record Effective : Type := {
  effId : jsstring;
  effName : option jsstring;
  effUuid : option jsstring
}.

(** The [switch (creatorIdProvider)] of [authenticateCreatorForModUnsafe]. *)
Definition resolveProvider (authorization : ModCreatorAuthorization)
  : M World Effective :=
  let rawCreatorId := authCreatorId authorization in
  let creatorName := authCreatorName authorization in
  match authCreatorIdProvider authorization with
  | MinecraftOfficial =>
      if isBlank (minecraftAccessToken authorization)
      then throw MissingMinecraftOfficialAccessTokenError
      else
        let accessToken :=
          match minecraftAccessToken authorization with
          | Some t => t
          | None => []
          end in
        tryCatch
          (profile <- minecraftAuthVerifyOfficialAccount accessToken ;;
           ret {| effId := profileUuid profile;
                  effName :=
                    if negb (truthy creatorName)
                       && truthy (profileUsername profile)
                    then profileUsername profile
                    else creatorName;
                  effUuid := Some (profileUuid profile) |})
          (fun error =>
             match error with
             | MinecraftAuthThrown cause =>
                 throw (MinecraftOfficialAuthenticationError cause)
             | _ => throw error
             end)
  | MinecraftOffline =>
      if isBlank (authMinecraftPlayerUuid authorization)
      then throw MissingMinecraftOfflinePlayerUuidError
      else
        let minecraftPlayerUuid :=
          match authMinecraftPlayerUuid authorization with
          | Some v => v
          | None => []
          end in
        match normalizeUuid minecraftPlayerUuid with
        | Returned normalized =>
            ret {| effId := rawCreatorId; effName := creatorName;
                   effUuid := Some normalized |}
        | Thrown (MinecraftAuthThrown (MinecraftAuthInvalidUuidError _)) =>
            throw (InvalidMinecraftPlayerUuidError minecraftPlayerUuid)
        | Thrown error => throw error
        end
  | Paradox | LocalProvider =>
      ret {| effId := rawCreatorId; effName := creatorName; effUuid := None |}
  | OtherProvider tag => throw (UnsupportedCreatorIdProviderError tag)
  end.

Definition contextOf (authorization : ModCreatorAuthorization)
  (effective : Effective) : CreatorContext :=
  {| effectiveCreatorId := effId effective;
     effectiveCreatorName := effName effective;
     effectiveMinecraftPlayerUuid := effUuid effective;
     ctxCreatorNameSlug := getCreatorNameSlug (effName effective);
     ctxHwid := authHwid authorization;
     ctxIp := authIp authorization;
     ctxCreatorIdProvider := authCreatorIdProvider authorization |}.

(** [searchConditions], as built by the two conditional [push]es. *)
Definition searchConditions (context : CreatorContext) : list Condition :=
  [ByCreatorId (effectiveCreatorId context)]
  ++ match effectiveCreatorName context with
     | Some (c :: n) =>
         [ByCreatorName (c :: n);
          ByCreatorNameSlug (ctxCreatorNameSlug context)]
     | _ => []
     end
  ++ match effectiveMinecraftPlayerUuid context with
     | Some (c :: v) => [ByMinecraftPlayerUuid (c :: v)]
     | _ => []
     end.

Definition searchWhere (context : CreatorContext) : Where :=
  let conditions := searchConditions context in
  if Nat.ltb 1 (List.length conditions) then WhereOr conditions
  else WhereOne (ByCreatorId (effectiveCreatorId context)).

(** The nested function [createCreator]. *)
Definition createCreator (context : CreatorContext) : M World Creator :=
  validName <- liftOutcome
                 (validateCreatorName (effectiveCreatorName context)) ;;
  newCreator <- prismaCreate
    {| newCreatorId := effectiveCreatorId context;
       newCreatorIdProvider := ctxCreatorIdProvider context;
       newCreatorName := validName;
       newCreatorNameSlug := ctxCreatorNameSlug context;
       newMinecraftPlayerUuid := effectiveMinecraftPlayerUuid context;
       newHwids := [ctxHwid context];
       newIps := [ctxIp context] |} ;;
  backgroundUpdateCreatorNameTranslation newCreator ;;;
  ret newCreator.

(** [creator.creatorName != effectiveCreatorName || ...]. *)
Definition modified (context : CreatorContext) (creator : Creator) : bool :=
  negb (opt_eqb (creatorName creator) (effectiveCreatorName context))
  || negb (opt_eqb (creatorNameSlug creator) (ctxCreatorNameSlug context))
  || negb (opt_eqb (hd_error (hwids creator)) (Some (ctxHwid context)))
  || negb (opt_eqb (hd_error (ips creator)) (Some (ctxIp context)))
  || negb (str_eqb (creatorId creator) (effectiveCreatorId context))
  || negb (opt_eqb (minecraftPlayerUuid creator)
             (effectiveMinecraftPlayerUuid context))
  || negb (provider_eqb (creatorIdProvider creator)
             (ctxCreatorIdProvider context)).

Definition isSameMinecraftPlayer (context : CreatorContext)
  (creator : Creator) : bool :=
  truthy (effectiveMinecraftPlayerUuid context)
  && opt_eqb (minecraftPlayerUuid creator)
       (effectiveMinecraftPlayerUuid context).

(** The condition of the ownership check of [updateCreator]. *)
Definition creatorIdMismatch (context : CreatorContext) (creator : Creator)
  : bool :=
  negb (str_eqb (creatorId creator) (effectiveCreatorId context))
  && negb (allowCreatorIdReset creator)
  && negb (isSameMinecraftPlayer context creator).

(** The nested function [updateCreator]; [creator] is the variable it
    closes over, and its first statement, [assert(creator)], holds where
    the function is called. *)
Definition updateCreator (creator : Creator) (context : CreatorContext)
  : M World Creator :=
  if creatorIdMismatch context creator
  then
    assert (truthy (creatorName creator)) None ;;;
    throw (IncorrectCreatorIdError
             match creatorName creator with Some n => n | None => [] end)
  else if negb (modified context creator) then ret creator
  else
    validName <-
      (if opt_eqb (creatorName creator) (effectiveCreatorName context)
       then ret (effectiveCreatorName context)
       else liftOutcome
              (validateCreatorName (effectiveCreatorName context))) ;;
    updatedCreator <- prismaUpdate (id creator)
      {| setCreatorName := Some validName;
         setCreatorNameSlug := Some (ctxCreatorNameSlug context);
         setAllowCreatorIdReset := Some false;
         setCreatorId := Some (effectiveCreatorId context);
         setCreatorIdProvider := Some (ctxCreatorIdProvider context);
         setMinecraftPlayerUuid :=
           Some (effectiveMinecraftPlayerUuid context);
         setHwids := Some (mergeHistory (ctxHwid context) (hwids creator));
         setIps := Some (mergeHistory (ctxIp context) (ips creator)) |} ;;
    (if negb (opt_eqb (creatorName updatedCreator) (creatorName creator))
     then backgroundUpdateCreatorNameTranslation updatedCreator
     else ret tt) ;;;
    ret updatedCreator.

(** What [authenticateCreatorForModUnsafe] does with the answer of
    [findMany]. *)
Definition disambiguate (context : CreatorContext) (creators : list Creator)
  : M World Creator :=
  if Nat.ltb 1 (List.length creators)
  then
    assert (Nat.eqb (List.length creators) 2)
      (Some "Only two creators are returned, otherwise there are non-unique Creator Names."%string) ;;;
    assert (truthy (effectiveCreatorName context))
      (Some "Creator Name can only be non-null if >1 creators are found."%string) ;;;
    throw (IncorrectCreatorIdError
             match effectiveCreatorName context with
             | Some n => n
             | None => []
             end)
  else
    match hd_error creators with
    | Some creator => updateCreator creator context
    | None => createCreator context
    end.

(** [authenticateCreatorForModUnsafe]. *)
Definition authenticateCreatorForModUnsafe
  (authorization : ModCreatorAuthorization) : M World Creator :=
  effective <- resolveProvider authorization ;;
  liftOutcome (ensureValidCreatorId (effId effective)) ;;;
  let context := contextOf authorization effective in
  creators <- prismaFindMany (searchWhere context) ;;
  disambiguate context creators.

(** [authenticateCreatorForMod]. *)
Definition authenticateCreatorForMod (authorization : ModCreatorAuthorization)
  : M World Creator :=
  tryCatch (authenticateCreatorForModUnsafe authorization)
    (fun error =>
       if isUniqueConstraintViolation error
       then authenticateCreatorForModUnsafe authorization
       else throw error).

(** [authenticateCreator]. *)
Definition authenticateCreator (authorization : CreatorAuthorization)
  : M World Creator :=
  match authorization with
  | KindSimple simple =>
      liftOutcome (ensureValidCreatorId (simpleCreatorId simple)) ;;;
      authenticateCreatorSimple simple
  | KindMod mod_ => authenticateCreatorForMod mod_
  end.

End CreatorService.

(** ** A reference Account Store *)

Module Store.

(** Modelled from the spec: the Account Store. The Prisma schema and
    client are not part of the sources; section 6 of the specification asks
    for point lookups, a disjunctive multi-key query, insert and update,
    with a uniqueness constraint on the external ID whose violation has its
    own signal (Prisma's code P2002). A filter on a nullable column with
    the value [null] selects the rows where the column is null. [racing]
    holds the inserts of other requests that reach the store between this
    request's query and its own insert. *)
Record Db : Type := {
  rows : list Creator;
  racing : list CreateData
}.

Definition matchesCondition (c : Creator) (condition : Condition) : bool :=
  match condition with
  | ByCreatorId v => str_eqb (creatorId c) v
  | ByCreatorName v => opt_eqb (creatorName c) (Some v)
  | ByCreatorNameSlug v => opt_eqb (creatorNameSlug c) v
  | ByMinecraftPlayerUuid v => opt_eqb (minecraftPlayerUuid c) (Some v)
  end.

Definition matchesWhere (where_ : Where) (c : Creator) : bool :=
  match where_ with
  | WhereOne condition => matchesCondition c condition
  | WhereOr conditions => existsb (matchesCondition c) conditions
  end.

Definition hasCreatorId (v : jsstring) (c : Creator) : bool :=
  str_eqb (creatorId c) v.

Definition hasId (n : nat) (c : Creator) : bool := Nat.eqb (id c) n.

Definition freshId (table : list Creator) : nat :=
  S (fold_right Nat.max 0 (map id table)).

Definition uniqueViolation : Error := PrismaError "P2002".
Definition recordNotFound : Error := PrismaError "P2025".

Definition insertRow (data : CreateData) (table : list Creator)
  : Outcome Creator * list Creator :=
  if existsb (hasCreatorId (newCreatorId data)) table
  then (Thrown uniqueViolation, table)
  else
    let c := {| id := freshId table;
                creatorId := newCreatorId data;
                creatorIdProvider := newCreatorIdProvider data;
                creatorName := newCreatorName data;
                creatorNameSlug := newCreatorNameSlug data;
                minecraftPlayerUuid := newMinecraftPlayerUuid data;
                allowCreatorIdReset := false;
                hwids := newHwids data;
                ips := newIps data |} in
    (Returned c, table ++ [c]).

Definition orKeep {A : Type} (change : option A) (old : A) : A :=
  match change with
  | Some v => v
  | None => old
  end.

Definition applyUpdate (data : UpdateData) (c : Creator) : Creator :=
  {| id := id c;
     creatorId := orKeep (setCreatorId data) (creatorId c);
     creatorIdProvider :=
       orKeep (setCreatorIdProvider data) (creatorIdProvider c);
     creatorName := orKeep (setCreatorName data) (creatorName c);
     creatorNameSlug := orKeep (setCreatorNameSlug data) (creatorNameSlug c);
     minecraftPlayerUuid :=
       orKeep (setMinecraftPlayerUuid data) (minecraftPlayerUuid c);
     allowCreatorIdReset :=
       orKeep (setAllowCreatorIdReset data) (allowCreatorIdReset c);
     hwids := orKeep (setHwids data) (hwids c);
     ips := orKeep (setIps data) (ips c) |}.

Fixpoint replaceRow (c' : Creator) (table : list Creator) : list Creator :=
  match table with
  | [] => []
  | c :: rest => if hasId (id c') c then c' :: rest
                 else c :: replaceRow c' rest
  end.

Definition updateRow (n : nat) (data : UpdateData) (table : list Creator)
  : Outcome Creator * list Creator :=
  match find (hasId n) table with
  | None => (Thrown recordNotFound, table)
  | Some c =>
      let c' := applyUpdate data c in
      if existsb (fun o => negb (hasId n o) && hasCreatorId (creatorId c') o)
           table
      then (Thrown uniqueViolation, table)
      else (Returned c', replaceRow c' table)
  end.

Definition commit (table : list Creator) (inserts : list CreateData)
  : list Creator :=
  fold_left (fun t data => snd (insertRow data t)) inserts table.

(** The services over [Db]; [profiles] is what the Minecraft profile
    service answers for each access token. *)
Definition dbServices
  (profiles : jsstring -> Outcome MinecraftOfficialProfile) : Services Db :=
  {| findUnique := fun v db =>
       (Returned (find (hasCreatorId v) (rows db)), db);
     findMany := fun where_ db =>
       (Returned (filter (matchesWhere where_) (rows db)), db);
     create := fun data db =>
       let (out, table) := insertRow data (commit (rows db) (racing db)) in
       (out, {| rows := table; racing := [] |});
     update := fun n data db =>
       let (out, table) := updateRow n data (rows db) in
       (out, {| rows := table; racing := racing db |});
     verifyOfficialAccount := fun accessToken db =>
       (profiles accessToken, db) |}.

Definition noProfiles (accessToken : jsstring)
  : Outcome MinecraftOfficialProfile :=
  Thrown (MinecraftAuthThrown MinecraftAuthInvalidAccessTokenError).

Definition quiet (table : list Creator) : Db :=
  {| rows := table; racing := [] |}.

End Store.

(** ** Concrete accounts and claims used in the examples below *)

Module Examples.

Import Store.

Definition idA : jsstring := lit "11111111-1111-4111-8111-111111111111".
Definition idB : jsstring := lit "22222222-2222-4222-8222-222222222222".

Definition account (n : nat) (externalId : jsstring) (name slug : string)
  : Creator :=
  {| id := n; creatorId := externalId; creatorIdProvider := Paradox;
     creatorName := Some (lit name); creatorNameSlug := Some (lit slug);
     minecraftPlayerUuid := None; allowCreatorIdReset := false;
     hwids := [lit "hw-1"]; ips := [lit "10.0.0.1"] |}.

Definition alice : Creator := account 1 idA "Alice" "alice".
Definition bob : Creator := account 2 idB "Bob" "bob".

Definition withReset (c : Creator) : Creator :=
  applyUpdate
    {| setCreatorName := None; setCreatorNameSlug := None;
       setAllowCreatorIdReset := Some true; setCreatorId := None;
       setCreatorIdProvider := None; setMinecraftPlayerUuid := None;
       setHwids := None; setIps := None |} c.

Definition claim (externalId : jsstring) (name ip : string)
  : ModCreatorAuthorization :=
  {| authCreatorName := Some (lit name); authCreatorId := externalId;
     authCreatorIdProvider := Paradox; authHwid := lit "hw-1";
     authIp := lit ip; minecraftAccessToken := None;
     authMinecraftPlayerUuid := None |}.

(** The holder of [idA] asks for the name of [bob]. *)
Definition claimBob : ModCreatorAuthorization := claim idA "Bob" "10.0.0.1".

(** [alice] signs in again, unchanged, and then from another address. *)
Definition claimAlice : ModCreatorAuthorization :=
  claim idA "Alice" "10.0.0.1".
Definition claimAliceMoved : ModCreatorAuthorization :=
  claim idA "Alice" "10.0.0.2".

(** An account whose 28-character name predates the length bound, with an
    identity reset granted, and a claim for it that differs in case. *)
Definition legacy : Creator :=
  withReset (account 3 idB "the quick brown fox jumps ov"
               "the-quick-brown-fox-jumps-ov").
Definition claimLegacy : ModCreatorAuthorization :=
  claim idA "The Quick Brown Fox Jumps Ov" "10.0.0.1".

(** An account linked to a Minecraft player. *)
Definition carolUuid : jsstring := lit "069a79f4-44e9-4726-a5be-fca90e38aaf5".
Definition carol : Creator :=
  {| id := 5; creatorId := idA; creatorIdProvider := MinecraftOffline;
     creatorName := Some (lit "Carol"); creatorNameSlug := Some (lit "carol");
     minecraftPlayerUuid := Some carolUuid; allowCreatorIdReset := false;
     hwids := [lit "hw-1"]; ips := [lit "10.0.0.1"] |}.
Definition claimCarol : ModCreatorAuthorization :=
  claim idA "Carol" "10.0.0.1".

(** A new claim whose name is not in normal form. *)
Definition claimDave : ModCreatorAuthorization :=
  claim idA "Dave  Smith" "10.0.0.1".


(** Another request inserts the account of [claimAlice] while this one is
    between its query and its insert. *)
Definition aliceData : CreateData :=
  {| newCreatorId := idA; newCreatorIdProvider := Paradox;
     newCreatorName := Some (lit "Alice");
     newCreatorNameSlug := Some (lit "alice");
     newMinecraftPlayerUuid := None;
     newHwids := [lit "hw-1"]; newIps := [lit "10.0.0.1"] |}.
Definition raced : Db := {| rows := [bob]; racing := [aliceData] |}.

Definition run (a : ModCreatorAuthorization) (db : Db) : Run Db Creator :=
  authenticateCreatorForMod (dbServices noProfiles) a db.

End Examples.

(** ** Notions used in the statements *)

Module Spec.

(** The hyphen-stripped form of a string. *)
Definition stripHyphens (s : jsstring) : jsstring :=
  filter (fun c => negb (isHyphen c)) s.

(** The lower-case form of a hexadecimal digit. *)
Definition lowerHex (c : N) : N :=
  if in_range 65 70 c then (c + 32)%N else c.

Definition closedUnderLower (p : N -> bool) : Prop :=
  forall c, p c = true -> p (lowerHex c) = true.

Definition onlyHexOrHyphen (p : N -> bool) : Prop :=
  forall c, p c = true -> Uuid.isHex c = true \/ c = hyphen.

Definition patterns : list (list (N -> bool)) :=
  [Uuid.rfcPattern; Uuid.nilPattern; Uuid.maxPattern].

(** What [normalizeUuid] computes from the hyphen-stripped input. *)
Definition canonical (stripped : jsstring) : option jsstring :=
  let compact := toLowerCase stripped in
  if Nat.eqb (List.length compact) 32 && Uuid.validate (hyphenate compact)
  then Some (hyphenate compact)
  else None.

(** [normalizeDisplayName] as the specification and the doc comment of
    [validateCreatorName] word it: whitespace runs collapsed to one space,
    both ends trimmed, blank is null, and the bound of 25 applies to the
    normalized name. *)
Definition normalizeDisplayName (raw : option jsstring)
  : Outcome (option jsstring) :=
  match raw with
  | None => Returned None
  | Some n =>
      match trim (replaceRuns [isWhiteSpace] (lit " ") n) with
      | [] => Returned None
      | normal =>
          if Nat.ltb 25 (List.length normal)
          then Thrown (InvalidCreatorNameError n)
          else Returned (Some normal)
      end
  end.

Definition isSeparator (c : N) : bool := isWhiteSpace c || isHyphen c.

(** [slugify] as the specification words it: the apostrophe and its
    typographic variant U+2019 stripped, every run of whitespace and
    hyphens collapsed to one hyphen, hyphens trimmed at both ends,
    lower-cased. *)
Definition slugify (name : option jsstring) : option jsstring :=
  match name with
  | None => None
  | Some n =>
      if isBlank name then None
      else
        let s1 := replaceAll (replaceAll n (lit "'") []) [8217%N] [] in
        let s2 := replaceRuns [isSeparator] [hyphen] s1 in
        Some (toLowerCase (dropWhileEnd isHyphen (dropWhile isHyphen s2)))
  end.

(** [mergeMru3] as section 4.4 of the specification words it. *)
Definition mergeMru3 (history : list jsstring) (newValue : jsstring)
  : list jsstring :=
  if opt_eqb (hd_error history) (Some newValue) then history
  else
    firstn 3
      (newValue :: filter (fun v => negb (str_eqb v newValue)) history).

(** An execution of [authenticateCreatorForModUnsafe] from world [w] in
    which the provider switch and the Creator ID check pass with the
    context [context], and the match query returns [creators], leaving the
    world [w']. *)
Definition QueryReturns {World : Type} (services : Services World)
  (a : ModCreatorAuthorization) (w : World) (context : CreatorContext)
  (creators : list Creator) (w' : World) : Prop :=
  exists effective,
    outcome (resolveProvider services a w) = Returned effective
    /\ isValidCreatorId (effId effective) = true
    /\ context = contextOf a effective
    /\ findMany services (searchWhere context)
         (final (resolveProvider services a w)) = (Returned creators, w').

(** The [data] that [updateCreator] sends to the store for the validated
    name [validName]. *)
Definition updateOf (context : CreatorContext) (creator : Creator)
  (validName : option jsstring) : UpdateData :=
  {| setCreatorName := Some validName;
     setCreatorNameSlug := Some (ctxCreatorNameSlug context);
     setAllowCreatorIdReset := Some false;
     setCreatorId := Some (effectiveCreatorId context);
     setCreatorIdProvider := Some (ctxCreatorIdProvider context);
     setMinecraftPlayerUuid := Some (effectiveMinecraftPlayerUuid context);
     setHwids := Some (mergeHistory (ctxHwid context) (hwids creator));
     setIps := Some (mergeHistory (ctxIp context) (ips creator)) |}.

(** The name [updateCreator] writes: the stored one when the claim does
    not change it, the validated one otherwise. *)
Definition nameToWrite (context : CreatorContext) (creator : Creator)
  : Outcome (option jsstring) :=
  if opt_eqb (creatorName creator) (effectiveCreatorName context)
  then Returned (effectiveCreatorName context)
  else validateCreatorName (effectiveCreatorName context).

(** What the ownership check of [updateCreator] throws for the account
    [creator]. *)
Definition ownershipError (creator : Creator) : Error :=
  match creatorName creator with
  | Some (c :: n) => IncorrectCreatorIdError (c :: n)
  | _ => AssertionError None
  end.

(** C9 as the specification words it, on the reference store: some test
    on the error alone tells a rejection for two matches with a display
    name from a rejection by the ownership check. *)
Definition Distinguishable : Prop :=
  exists tell : Error -> bool,
  forall a db context creators db' e,
    QueryReturns (Store.dbServices Store.noProfiles) a db context creators
      db' ->
    outcome (authenticateCreatorForMod (Store.dbServices Store.noProfiles)
               a db) = Thrown e ->
    (List.length creators = 2 ->
     truthy (effectiveCreatorName context) = true -> tell e = true)
    /\ (forall c, creators = [c] ->
                  creatorIdMismatch context c = true -> tell e = false).

(** The account that [createCreator] inserts into the table [table] of
    the reference store for the validated name [validName]. *)
Definition newAccount (table : list Creator) (context : CreatorContext)
  (validName : option jsstring) : Creator :=
  {| id := Store.freshId table;
     creatorId := effectiveCreatorId context;
     creatorIdProvider := ctxCreatorIdProvider context;
     creatorName := validName;
     creatorNameSlug := ctxCreatorNameSlug context;
     minecraftPlayerUuid := effectiveMinecraftPlayerUuid context;
     allowCreatorIdReset := false;
     hwids := [ctxHwid context];
     ips := [ctxIp context] |}.

End Spec.

Import Spec.

(** ** Facts of the case tables *)

Module CaseFacts.

(** Lower case within ASCII. *)
Definition lowerAscii (c : N) : N :=
  if in_range 65 90 c then (c + 32)%N else c.

(** The code units that [isWhiteSpace] accepts. *)
Definition whiteSpaces : list N :=
  [9; 10; 11; 12; 13; 32; 160; 5760; 8192; 8193; 8194; 8195; 8196; 8197;
   8198; 8199; 8200; 8201; 8202; 8232; 8233; 8239; 8287; 12288; 65279]%N.

(** What the proofs below use of an entry of [lowerShifts]: it is the
    ASCII entry, or it starts above ASCII and maps above ASCII, the
    Kelvin sign apart; and it maps onto no whitespace. *)
Definition shiftChecked (r : CaseShift) : bool :=
  (N.eqb (firstUpper r) 65 && N.eqb (lastUpper r) 90
   && N.eqb (firstLower r) 97
   || N.leb 128 (firstUpper r)
      && (N.leb 128 (firstLower r)
          || N.eqb (firstUpper r) 8490 && N.eqb (lastUpper r) 8490
             && N.eqb (firstLower r) 107))
  && negb (existsb
             (fun w => N.leb (firstLower r) w
                       && N.leb w (firstLower r
                                   + (lastUpper r - firstUpper r)))
             whiteSpaces).

(** The part of the result of [lowerPoints] that comes from the code
    point [p]. *)
Definition Chunk (p : N) (chunk : list N) : Prop :=
  chunk = lowerPoint p \/ (p = capitalSigma /\ chunk = [finalSigma]).

End CaseFacts.

Import CaseFacts.

(** * The rest of the services *)

From Stdlib Require Import ZArith DecimalString.

(** ** The Creator ID format *)

Module CreatorIdFormat.

Definition isFour (c : N) : bool := N.eqb c 52.

(** A UUID of version 4:
    [[0-9a-f]{8}-[0-9a-f]{4}-4[0-9a-f]{3}-[89ab][0-9a-f]{3}-[0-9a-f]{12}]
    under the [i] flag. *)
Definition v4Pattern : list (N -> bool) :=
  Uuid.shape (Uuid.group 8 Uuid.isHex) (Uuid.group 4 Uuid.isHex)
    (isFour :: Uuid.group 3 Uuid.isHex)
    (Uuid.isVariantDigit :: Uuid.group 3 Uuid.isHex)
    (Uuid.group 12 Uuid.isHex).

End CreatorIdFormat.

(** ** [MinecraftAuthService.verifyOfficialAccount] *)

Module MinecraftAuth.

(** A value returned by [response.json()]; [Num] is the type of JSON
    numbers, which the service never inspects. The members of an object
    are its own properties, one per key. *)
#[local] Unset Elimination Schemes.
Inductive Json (Num : Type) : Type :=
| JNull
| JBool (b : bool)
| JNumber (n : Num)
| JString (s : jsstring)
| JArray (items : list (Json Num))
| JObject (members : list (jsstring * Json Num)).
#[local] Set Elimination Schemes.

Arguments JNull {Num}.
Arguments JBool {Num} b.
Arguments JNumber {Num} n.
Arguments JString {Num} s.
Arguments JArray {Num} items.
Arguments JObject {Num} members.

(** What [fetch] and [response.json()] give: the request is rejected, or
    a response arrives with its status and a body that parses as JSON
    ([Some]) or does not ([None]). *)
Inductive FetchResult (Num : Type) : Type :=
| FetchRejected
| Fetched (status : N) (body : option (Json Num)).

Arguments FetchRejected {Num}.
Arguments Fetched {Num} status body.

(** [response.ok]: a status from 200 to 299. *)
Definition ok (status : N) : bool := in_range 200 299 status.

(** ['key' in payload ? payload[key] : undefined] for a payload that is
    an object or an array. *)
Definition member {Num : Type} (key : jsstring) (payload : Json Num)
  : option (Json Num) :=
  match payload with
  | JObject members =>
      match find (fun m => str_eqb (fst m) key) members with
      | Some m => Some (snd m)
      | None => None
      end
  | _ => None
  end.

Definition decimal (n : N) : string :=
  DecimalString.NilZero.string_of_uint (N.to_uint n).

Definition unreachable : MinecraftAuthError :=
  MinecraftAuthRequestError
    "Unable to contact the Minecraft profile service, please try again later."
    None.

Definition unexpectedStatus (status : N) : MinecraftAuthError :=
  MinecraftAuthRequestError
    (String.append
       "Unexpected response from the Minecraft profile service (status "
       (String.append (decimal status) ")."))
    (Some status).

(** The body of [verifyOfficialAccount] after the [fetch]. *)
Definition profileOf {Num : Type} (result : FetchResult Num)
  : Outcome MinecraftOfficialProfile :=
  match result with
  | FetchRejected => Thrown (MinecraftAuthThrown unreachable)
  | Fetched status body =>
      if N.eqb status 401 || N.eqb status 403
      then Thrown (MinecraftAuthThrown MinecraftAuthInvalidAccessTokenError)
      else if negb (ok status)
      then Thrown (MinecraftAuthThrown (unexpectedStatus status))
      else
        match body with
        | None => Thrown (MinecraftAuthThrown MinecraftAuthMalformedResponseError)
        | Some payload =>
            match payload with
            | JObject _ | JArray _ =>
                match member (lit "id") payload with
                | Some (JString (c :: rest)) =>
                    match normalizeUuid (c :: rest) with
                    | Thrown e => Thrown e
                    | Returned uuidValue =>
                        Returned
                          {| profileUuid := uuidValue;
                             profileUsername :=
                               match member (lit "name") payload with
                               | Some (JString name) =>
                                   match trim name with
                                   | [] => None
                                   | trimmed => Some trimmed
                                   end
                               | _ => None
                               end |}
                    end
                | _ =>
                    Thrown (MinecraftAuthThrown
                              MinecraftAuthMalformedResponseError)
                end
            | _ => Thrown (MinecraftAuthThrown MinecraftAuthMalformedResponseError)
            end
        end
  end.

(** The profile service as the world answers it. *)
Record Http (World Num : Type) : Type := {
  fetchProfile : jsstring -> World -> FetchResult Num * World
}.

(** [verifyOfficialAccount({ accessToken })]. *)
Definition verifyOfficialAccount {World Num : Type} (http : Http World Num)
  (accessToken : jsstring) (w : World)
  : Outcome MinecraftOfficialProfile * World :=
  let (result, w') := fetchProfile http accessToken w in
  (profileOf result, w').

(** The services of [CreatorService] with this verifier in the place of
    [minecraftAuth]. *)
Definition withVerifier {World Num : Type} (http : Http World Num)
  (services : Services World) : Services World :=
  @Build_Services World (findUnique services) (findMany services)
    (create services) (update services) (verifyOfficialAccount http).

End MinecraftAuth.

(** ** [CreatorService.updateCreatorNameTranslation] *)

Module Translation.

(** The result of [aiTranslator.translateCreatorName]. *)
Record Translated : Type := {
  twoLetterLocaleCode : option jsstring;
  transliteration : option jsstring;
  translation : option jsstring
}.

(** The [data] of the two updates of [updateCreatorNameTranslation]. *)
Record TranslationData : Type := {
  needsTranslation : bool;
  creatorNameLocale : option jsstring;
  creatorNameLatinized : option jsstring;
  creatorNameTranslated : option jsstring
}.

(** [AiTranslatorService.isEligibleForTranslation], the call to
    [aiTranslator.translateCreatorName] and [prisma.creator.update] with
    translation fields. *)
Record Translator (World : Type) : Type := {
  isEligibleForTranslation : jsstring -> bool;
  translateCreatorName :
    nat -> jsstring -> World -> Outcome Translated * World;
  updateTranslation :
    nat -> TranslationData -> World -> Outcome Creator * World
}.

Inductive Call : Type :=
| TranslateCalled (creatorId : nat) (input : jsstring)
    (out : Outcome Translated)
| UpdateTranslationCalled (id : nat) (data : TranslationData)
    (out : Outcome Creator).

(** [{ translated: false } | { translated: true; creator }]. *)
Inductive Result : Type :=
| NotTranslated
| TranslatedCreator (creator : Creator).

Record Done (World : Type) : Type := {
  result : Outcome Result;
  after : World;
  calls : list Call
}.

Definition cleared : TranslationData :=
  {| needsTranslation := false; creatorNameLocale := None;
     creatorNameLatinized := None; creatorNameTranslated := None |}.

Definition filled (t : Translated) : TranslationData :=
  {| needsTranslation := false;
     creatorNameLocale := twoLetterLocaleCode t;
     creatorNameLatinized := transliteration t;
     creatorNameTranslated := translation t |}.

(** [creator.creatorName && isEligibleForTranslation(creator.creatorName)]. *)
Definition eligible {World : Type} (translator : Translator World)
  (name : option jsstring) : bool :=
  match name with
  | Some (c :: n) => isEligibleForTranslation translator (c :: n)
  | _ => false
  end.

(** [updateCreatorNameTranslation(creator)] for a creator given by its
    [id] and [creatorName]. *)
Definition updateCreatorNameTranslation {World : Type}
  (translator : Translator World) (creatorDbId : nat)
  (name : option jsstring) (w : World) : Done World :=
  if negb (eligible translator name)
  then
    let (out, w1) := updateTranslation translator creatorDbId cleared w in
    {| result := match out with
                 | Returned _ => Returned NotTranslated
                 | Thrown e => Thrown e
                 end;
       after := w1;
       calls := [UpdateTranslationCalled creatorDbId cleared out] |}
  else
    let input := match name with Some n => n | None => [] end in
    let (translated, w1) :=
      translateCreatorName translator creatorDbId input w in
    match translated with
    | Thrown e =>
        {| result := Thrown e; after := w1;
           calls := [TranslateCalled creatorDbId input translated] |}
    | Returned t =>
        let (out, w2) :=
          updateTranslation translator creatorDbId (filled t) w1 in
        {| result := match out with
                     | Returned updated => Returned (TranslatedCreator updated)
                     | Thrown e => Thrown e
                     end;
           after := w2;
           calls := [TranslateCalled creatorDbId input translated;
                     UpdateTranslationCalled creatorDbId (filled t) out] |}
    end.

(** A translator for the examples: eligible are the names with a code
    unit above U+007F, every name is Russian for "World", and the world
    is the list of the updates made. *)
Definition recorder : Translator (list (nat * TranslationData)) :=
  {| isEligibleForTranslation := existsb (fun c => N.ltb 127 c);
     translateCreatorName := fun _ _ w =>
       (Returned {| twoLetterLocaleCode := Some (lit "ru");
                    transliteration := Some (lit "Mir");
                    translation := Some (lit "World") |}, w);
     updateTranslation := fun n data w =>
       (Returned Examples.alice, (n, data) :: w) |}.

End Translation.

(** ** The validators of [ScreenshotController] *)

Module Upload.

(** The subclasses of [UploadError]. *)
Inductive UploadError : Type :=
| InvalidPayloadError (message : jsstring)
| InvalidCityNameError (incorrectName : jsstring)
| InvalidImageFormatError.

Inductive Checked (A : Type) : Type :=
| Accepted (value : A)
| Rejected (error : UploadError).

Arguments Accepted {A} value.
Arguments Rejected {A} error.

(** An entry of [multipart.fields]: a file part (no [value]), a value
    part, or the array that several parts of one name make. *)
Inductive Field : Type :=
| FilePart
| ValuePart (value : jsstring)
| SeveralParts.

(** [getMultipartString(multipart, fieldName, strict)], [fields] being
    [multipart.fields]. *)
Definition getMultipartString (fields : jsstring -> option Field)
  (fieldName : jsstring) (strict : bool) : Checked (option jsstring) :=
  match fields fieldName with
  | Some (ValuePart raw) =>
      match trim raw with
      | [] =>
          Rejected (InvalidPayloadError
                      (lit "Expected a non-empty string for the field '"
                       ++ fieldName ++ lit "'."))
      | value => Accepted (Some value)
      end
  | _ =>
      if negb strict then Accepted None
      else Rejected (InvalidPayloadError
                       (lit "Expected a multipart field named '"
                        ++ fieldName ++ lit "'."))
  end.

Definition isDecimalDigit (c : N) : bool := in_range 48 57 c.

Fixpoint takeWhile (p : N -> bool) (s : jsstring) : jsstring :=
  match s with
  | [] => []
  | c :: r => if p c then c :: takeWhile p r else []
  end.

Definition decimalValue (digits : jsstring) : Z :=
  fold_left (fun acc d => (10 * acc + Z.of_N (d - 48))%Z) digits 0%Z.

(** [Number.parseInt(s, 10)]: leading whitespace is skipped, then an
    optional sign, then the longest run of decimal digits; [None] is
    [NaN]. The result is the exact integer, where JavaScript has its
    nearest double, and zero where JavaScript has [-0]. *)
Definition parseInt (s : jsstring) : option Z :=
  let s1 := dropWhile isWhiteSpace s in
  let signed :=
    match s1 with
    | 45%N :: r => (true, r)
    | 43%N :: r => (false, r)
    | _ => (false, s1)
    end in
  match takeWhile isDecimalDigit (snd signed) with
  | [] => None
  | digits =>
      Some (if fst signed then (- decimalValue digits)%Z
            else decimalValue digits)
  end.

(** [validateMilestone] and [validatePopulation] share this shape:
    [Number.isNaN(parsed) || parsed < 0 || parsed > max]. *)
Definition validateBounded (max : Z) (message : string) (text : jsstring)
  : Checked Z :=
  match parseInt text with
  | None => Rejected (InvalidPayloadError (lit message))
  | Some parsed =>
      if Z.ltb parsed 0 || Z.ltb max parsed
      then Rejected (InvalidPayloadError (lit message))
      else Accepted parsed
  end.

Definition validateMilestone (milestone : jsstring) : Checked Z :=
  validateBounded 20
    "Invalid milestone, it must be a positive integer between 0 and 20."
    milestone.

Definition validatePopulation (population : jsstring) : Checked Z :=
  validateBounded 5000000
    "Invalid population number, it must be a positive integer."
    population.

Definition isLeadSurrogate (c : N) : bool := in_range 55296 56319 c.
Definition isTrailSurrogate (c : N) : bool := in_range 56320 57343 c.

(** The code points that a regular expression with the [u] flag reads
    from a string: a lead surrogate followed by a trail surrogate is one
    code point, any other code unit is one of its own. *)
Fixpoint codePoints (s : jsstring) : list N :=
  match s with
  | [] => []
  | hi :: t =>
      match t with
      | lo :: r =>
          if isLeadSurrogate hi && isTrailSurrogate lo
          then (65536 + (hi - 55296) * 1024 + (lo - 56320))%N :: codePoints r
          else hi :: codePoints t
      | [] => [hi]
      end
  end.

Section CityName.

(** The Unicode properties [\p{L}] and [\p{N}] of a code point. *)
Variable isLetter : N -> bool.
Variable isNumber : N -> bool.

(** The class [[\p{L}\p{N}\- ',] with U+2019, U+3001 and U+2022. *)
Definition cityNameCharacter (c : N) : bool :=
  isLetter c || isNumber c || N.eqb c 45 || N.eqb c 32 || N.eqb c 39
  || N.eqb c 8217 || N.eqb c 44 || N.eqb c 12289 || N.eqb c 8226.

(** [cityNameRegex], anchored at both ends. *)
Definition matchesCityName (name : jsstring) : bool :=
  let points := codePoints name in
  Nat.leb 1 (List.length points) && Nat.leb (List.length points) 35
  && forallb cityNameCharacter points.

(** [validateCityName]. *)
Definition validateCityName (name : jsstring) : Checked jsstring :=
  if negb (matchesCityName name)
  then Rejected (InvalidCityNameError name)
  else Accepted name.

(** The fields that [upload] reads first, in this order; the optional
    fields, which it reads next, are not modelled. *)
Record RequiredFields : Type := {
  cityName : jsstring;
  cityMilestone : Z;
  cityPopulation : Z
}.

Definition andThen {A B : Type} (c : Checked A) (k : A -> Checked B)
  : Checked B :=
  match c with
  | Accepted value => k value
  | Rejected error => Rejected error
  end.

(** [getMultipartString(multipart, fieldName, true)], whose result type
    is [string]. *)
Definition getRequiredString (fields : jsstring -> option Field)
  (fieldName : jsstring) : Checked jsstring :=
  andThen (getMultipartString fields fieldName true)
    (fun value => Accepted match value with Some v => v | None => [] end).

Definition requiredFields (fields : jsstring -> option Field)
  : Checked RequiredFields :=
  andThen (andThen (getRequiredString fields (lit "cityName"))
             validateCityName)
    (fun name =>
       andThen (andThen (getRequiredString fields (lit "cityMilestone"))
                  validateMilestone)
         (fun milestone =>
            andThen (andThen (getRequiredString fields (lit "cityPopulation"))
                       validatePopulation)
              (fun population =>
                 Accepted {| cityName := name; cityMilestone := milestone;
                             cityPopulation := population |}))).

End CityName.

(** A form with one value per name. *)
Fixpoint form (parts : list (string * string)) (fieldName : jsstring)
  : option Field :=
  match parts with
  | [] => None
  | (name, value) :: rest =>
      if str_eqb (lit name) fieldName then Some (ValuePart (lit value))
      else form rest fieldName
  end.

(** ASCII letters and digits, for the examples. *)
Definition asciiLetter (c : N) : bool := in_range 65 90 c || in_range 97 122 c.

End Upload.

(** ** Shapes of names *)

Module Shape.

(** The code units of [s] that are not whitespace. *)
Definition visible (s : jsstring) : jsstring :=
  filter (fun c => negb (isWhiteSpace c)) s.

(** Every whitespace code unit of [s] is U+0020 and none follows
    another; [afterSpace] tells whether a space precedes [s]. *)
Fixpoint spacesCollapsed (afterSpace : bool) (s : jsstring) : bool :=
  match s with
  | [] => true
  | c :: r =>
      if isWhiteSpace c
      then N.eqb c 32 && negb afterSpace && spacesCollapsed true r
      else spacesCollapsed false r
  end.

Definition apostrophe : N := 39.

(** An ASCII apostrophe, a hyphen or whitespace. *)
Definition isPunctuation (c : N) : bool :=
  N.eqb c apostrophe || isHyphen c || isWhiteSpace c.

Definition isUpperAscii (c : N) : bool := in_range 65 90 c.

End Shape.

Import Shape.

(** ** Notions used in the further statements *)

Module Observed.

(** The [data] of an update that sets [ips] and nothing else. *)
Definition ipsOnly (history : list jsstring) : UpdateData :=
  {| setCreatorName := None; setCreatorNameSlug := None;
     setAllowCreatorIdReset := None; setCreatorId := None;
     setCreatorIdProvider := None; setMinecraftPlayerUuid := None;
     setHwids := None; setIps := Some history |}.

Definition isQuery (e : Event) : bool :=
  match e with
  | FindManyCalled _ _ => true
  | _ => false
  end.

Definition isVerification (e : Event) : bool :=
  match e with
  | VerifyOfficialAccountCalled _ _ => true
  | _ => false
  end.

Definition queries (trace : list Event) : list Event := filter isQuery trace.

(** The [data] of the insert of [createCreator]. *)
Definition createOf (context : CreatorContext)
  (validName : option jsstring) : CreateData :=
  {| newCreatorId := effectiveCreatorId context;
     newCreatorIdProvider := ctxCreatorIdProvider context;
     newCreatorName := validName;
     newCreatorNameSlug := ctxCreatorNameSlug context;
     newMinecraftPlayerUuid := effectiveMinecraftPlayerUuid context;
     newHwids := [ctxHwid context];
     newIps := [ctxIp context] |}.


(** What [createCreator] starts after its insert. *)
Definition spawnedFor (out : Outcome Creator) : list Event :=
  match out with
  | Returned c => [TranslationSpawned c]
  | Thrown _ => []
  end.

(** The calls that may follow a match query that returned [creators]:
    none; an insert, when there is no match, with the translation it
    starts; or an update of the single match, with a translation when
    the name that comes back differs from the stored one. *)
Inductive AfterQuery (creators : list Creator) : list Event -> Prop :=
| NoWrite : AfterQuery creators []
| Inserted (data : CreateData) (out : Outcome Creator) :
    creators = [] ->
    AfterQuery creators (CreateCalled data out :: spawnedFor out)
| Rewritten (creator : Creator) (data : UpdateData)
    (out : Outcome Creator) :
    creators = [creator] ->
    (forall updated, out = Returned updated ->
                     creatorName updated = creatorName creator) ->
    AfterQuery creators [UpdateCalled (id creator) data out]
| Renamed (creator : Creator) (data : UpdateData) (updated : Creator) :
    creators = [creator] ->
    creatorName updated <> creatorName creator ->
    AfterQuery creators
      [UpdateCalled (id creator) data (Returned updated);
       TranslationSpawned updated].

(** The calls of one run of [authenticateCreatorForModUnsafe]: at most
    one verification, then at most one match query, then what may follow
    it. *)
Inductive AttemptTrace : list Event -> Prop :=
| Attempt (verified : list Event) (rest : list Event) :
    (verified = []
     \/ exists token out,
          verified = [VerifyOfficialAccountCalled token out]) ->
    (rest = []
     \/ (exists where_ e, rest = [FindManyCalled where_ (Thrown e)])
     \/ (exists where_ creators after,
           rest = FindManyCalled where_ (Returned creators) :: after
           /\ AfterQuery creators after)) ->
    AttemptTrace (verified ++ rest).


(** The error that a call threw, if it threw. *)
Definition thrownBy (e : Event) : option Error :=
  match e with
  | FindUniqueCalled _ (Thrown x) | FindManyCalled _ (Thrown x)
  | CreateCalled _ (Thrown x) | UpdateCalled _ _ (Thrown x)
  | VerifyOfficialAccountCalled _ (Thrown x) => Some x
  | _ => None
  end.

(** [a] with another [minecraftPlayerUuid]. *)
Definition withPlayerUuid (a : ModCreatorAuthorization)
  (value : option jsstring) : ModCreatorAuthorization :=
  {| authCreatorName := authCreatorName a;
     authCreatorId := authCreatorId a;
     authCreatorIdProvider := authCreatorIdProvider a;
     authHwid := authHwid a;
     authIp := authIp a;
     minecraftAccessToken := minecraftAccessToken a;
     authMinecraftPlayerUuid := value |}.


(** Two claims of names without a letter or digit, from two holders. *)
Definition claimDash : ModCreatorAuthorization :=
  Examples.claim Examples.idB "-" "10.0.0.1".
Definition claimTick : ModCreatorAuthorization :=
  Examples.claim Examples.idA "'" "10.0.0.2".

(** A claim under [minecraft_offline] by the holder of [idA]. *)
Definition claimOffline (value : option jsstring) : ModCreatorAuthorization :=
  {| authCreatorName := Some (lit "Erin"); authCreatorId := Examples.idA;
     authCreatorIdProvider := MinecraftOffline; authHwid := lit "hw-1";
     authIp := lit "10.0.0.1"; minecraftAccessToken := None;
     authMinecraftPlayerUuid := value |}.

(** [a] with another [creatorId]. *)
Definition withCreatorId (a : ModCreatorAuthorization) (value : jsstring)
  : ModCreatorAuthorization :=
  {| authCreatorName := authCreatorName a;
     authCreatorId := value;
     authCreatorIdProvider := authCreatorIdProvider a;
     authHwid := authHwid a;
     authIp := authIp a;
     minecraftAccessToken := minecraftAccessToken a;
     authMinecraftPlayerUuid := authMinecraftPlayerUuid a |}.

(** A profile service that knows one access token, and a claim under
    [minecraft_official] that presents it, with no name of its own. *)
Definition notchResponse : MinecraftAuth.FetchResult unit :=
  MinecraftAuth.Fetched 200
    (Some (MinecraftAuth.JObject
             [(lit "id",
               MinecraftAuth.JString (lit "069A79F444E94726A5BEFCA90E38AAF5"));
              (lit "name", MinecraftAuth.JString (lit " Notch "))])).

Definition oneToken : MinecraftAuth.Http Store.Db unit :=
  {| MinecraftAuth.fetchProfile := fun token db =>
       (if str_eqb token (lit "secret") then notchResponse
        else MinecraftAuth.Fetched 401 None, db) |}.

Definition claimOfficial (token : string) : ModCreatorAuthorization :=
  {| authCreatorName := None; authCreatorId := lit "ignored";
     authCreatorIdProvider := MinecraftOfficial; authHwid := lit "hw-1";
     authIp := lit "10.0.0.1"; minecraftAccessToken := Some (lit token);
     authMinecraftPlayerUuid := None |}.

(** What a request may write under the name [validName]: nothing longer
    than 25 code units. *)
Definition withinBound (validName : option jsstring) : Prop :=
  match validName with
  | Some n => List.length n <= 25
  | None => True
  end.

(** The reason for a write [ev] after a match query that returned
    [creators] for the context [context]. *)
Definition Justified (context : CreatorContext) (creators : list Creator)
  (ev : Event) : Prop :=
  match ev with
  | CreateCalled data _ =>
      creators = []
      /\ exists validName,
           validateCreatorName (effectiveCreatorName context)
           = Returned validName
           /\ withinBound validName
           /\ data = createOf context validName
  | UpdateCalled n data _ =>
      exists creator validName,
        creators = [creator] /\ n = id creator
        /\ creatorIdMismatch context creator = false
        /\ modified context creator = true
        /\ Spec.nameToWrite context creator = Returned validName
        /\ (validName = creatorName creator \/ withinBound validName)
        /\ data = Spec.updateOf context creator validName
  | _ => False
  end.

(** The insert of [claimDave] on the empty store. *)
Definition daveInsert : Event :=
  hd (FindUniqueCalled [] (Returned None))
    (writes (trace (Examples.run Examples.claimDave (Store.quiet [])))).

End Observed.

Import Observed.

(** * Properties *)

(** ** Strings *)

Lemma str_eqb_refl (a : jsstring) : str_eqb a a = true.
Proof.
  induction a as [|x a IH]; simpl; [reflexivity|].
  now rewrite N.eqb_refl, IH.
Qed.

Lemma str_eqb_eq (a b : jsstring) : str_eqb a b = true <-> a = b.
Proof.
  split.
  - revert b. induction a as [|x a IH]; intros [|y b] H; simpl in H;
      try discriminate; [reflexivity|].
    apply andb_true_iff in H. destruct H as [Hx Hr].
    apply N.eqb_eq in Hx. apply IH in Hr. now subst.
  - intros ->. apply str_eqb_refl.
Qed.

Lemma opt_eqb_eq (a b : option jsstring) : opt_eqb a b = true <-> a = b.
Proof.
  destruct a as [x|], b as [y|]; simpl; try (split; congruence).
  rewrite str_eqb_eq. split; congruence.
Qed.


Lemma provider_eqb_eq (a b : CreatorIdProvider) :
  provider_eqb a b = true <-> a = b.
Proof.
  destruct a, b; simpl; try (split; congruence).
  rewrite str_eqb_eq. split; congruence.
Qed.

Lemma replaceAll_hyphen (s : jsstring) :
  replaceAll s [hyphen] [] = stripHyphens s.
Proof.
  unfold replaceAll, stripHyphens.
  induction s as [|c r IH]; [reflexivity|].
  cbn [replaceAll_from prefixb filter List.length pred app].
  unfold isHyphen. rewrite (N.eqb_sym hyphen c), andb_true_r.
  destruct (N.eqb c hyphen); cbn [negb app]; now rewrite IH.
Qed.

(** ** Character classes *)

Ltac classes :=
  unfold Uuid.isHex, Uuid.isLowerHex, Uuid.isDigit, Uuid.isVersionDigit,
    Uuid.isVariantDigit, Uuid.isZero, Uuid.isF, isHyphen, hyphen, lowerHex,
    in_range in *.

Ltac bools :=
  repeat rewrite ?andb_true_iff, ?orb_true_iff, ?negb_true_iff,
    ?andb_false_iff, ?orb_false_iff, ?negb_false_iff,
    ?N.leb_le, ?N.leb_gt, ?N.eqb_eq, ?N.eqb_neq in *.

Lemma lowerHex_lower (c : N) :
  Uuid.isHex c = true -> Uuid.isLowerHex (lowerHex c) = true.
Proof.
  intros H. unfold lowerHex.
  destruct (in_range 65 70 c) eqn:E; classes; bools; lia.
Qed.

(** ** Lower case *)

Lemma shifts_checked : forallb shiftChecked lowerShifts = true.
Proof. vm_compute. reflexivity. Qed.

Lemma shift_checked (r : CaseShift) :
  In r lowerShifts -> shiftChecked r = true.
Proof. apply (proj1 (forallb_forall _ _) shifts_checked). Qed.

Lemma isWhiteSpace_In (c : N) :
  isWhiteSpace c = true -> In c whiteSpaces.
Proof.
  unfold isWhiteSpace, in_range, whiteSpaces. bools. cbn [In]. lia.
Qed.

Lemma simpleLowerCase_cases (p : N) :
  simpleLowerCase p = p
  \/ exists r, In r lowerShifts
               /\ (firstUpper r <= p <= lastUpper r)%N
               /\ simpleLowerCase p = (firstLower r + (p - firstUpper r))%N.
Proof.
  unfold simpleLowerCase.
  destruct (find (shifts p) lowerShifts) as [r|] eqn:E; [|now left].
  right. apply find_some in E. destruct E as [Hin Hs].
  exists r. split; [exact Hin|]. split; [|reflexivity].
  unfold shifts in Hs. bools. lia.
Qed.

Lemma find_none (A : Type) (f : A -> bool) (l : list A) :
  (forall x, In x l -> f x = false) -> find f l = None.
Proof.
  induction l as [|x l IH]; intros H; [reflexivity|].
  simpl. rewrite (H x (or_introl eq_refl)). apply IH.
  intros y Hy. apply H. now right.
Qed.

Lemma simpleLowerCase_ascii (p : N) :
  (p < 128)%N -> simpleLowerCase p = lowerAscii p.
Proof.
  intros Hp. unfold simpleLowerCase, lowerAscii.
  assert (Hhead : lowerShifts = Shift 65 90 1 97 :: tl lowerShifts)
    by reflexivity.
  assert (Hothers : forall r, In r (tl lowerShifts) -> In r lowerShifts).
  { intros r Hr. rewrite Hhead. now right. }
  rewrite Hhead. remember (tl lowerShifts) as others eqn:Ho. clear Ho Hhead.
  cbn [find].
  assert (Hs : shifts p (Shift 65 90 1 97) = in_range 65 90 p).
  { unfold shifts, in_range. cbn [firstUpper lastUpper stride].
    rewrite N.mod_1_r. cbn [N.eqb]. apply andb_true_r. }
  rewrite Hs. destruct (in_range 65 90 p) eqn:E.
  - cbn [firstLower firstUpper]. unfold in_range in E. bools. lia.
  - rewrite find_none; [reflexivity|].
    intros r Hr. apply Hothers, shift_checked in Hr.
    unfold shiftChecked in Hr. unfold shifts. unfold in_range in E.
    apply andb_true_iff in Hr. destruct Hr as [Hr _].
    destruct (N.leb (firstUpper r) p) eqn:E1; [|reflexivity].
    destruct (N.leb p (lastUpper r)) eqn:E2; [|reflexivity].
    exfalso. bools. lia.
Qed.

Lemma simpleLowerCase_low (p : N) :
  (simpleLowerCase p < 128)%N ->
  (p < 128)%N \/ (p = 8490%N /\ simpleLowerCase p = 107%N).
Proof.
  destruct (simpleLowerCase_cases p) as [->|(r & Hin & Hr & ->)];
    [now left|].
  apply shift_checked in Hin. unfold shiftChecked in Hin.
  apply andb_true_iff in Hin. destruct Hin as [Hin _].
  intros Hq. bools. lia.
Qed.

Lemma simpleLowerCase_ws (p : N) :
  isWhiteSpace (simpleLowerCase p) = true -> simpleLowerCase p = p.
Proof.
  destruct (simpleLowerCase_cases p) as [H|(r & Hin & Hr & Hq)];
    [now rewrite H|].
  rewrite Hq. intros Hw. exfalso. apply isWhiteSpace_In in Hw.
  apply shift_checked in Hin. unfold shiftChecked in Hin.
  apply andb_true_iff in Hin. destruct Hin as [_ Hin].
  apply negb_true_iff in Hin.
  assert (Hex : existsb
                  (fun w => N.leb (firstLower r) w
                            && N.leb w (firstLower r
                                        + (lastUpper r - firstUpper r)))
                  whiteSpaces = true).
  { apply existsb_exists. eexists. split; [exact Hw|]. bools. lia. }
  congruence.
Qed.

Lemma lowerAscii_low (p : N) : (p < 128)%N -> (lowerAscii p < 128)%N.
Proof.
  intros H. unfold lowerAscii, in_range.
  destruct (N.leb 65 p && N.leb p 90) eqn:E; bools; lia.
Qed.

(** A code point of the result that lies in ASCII comes from ASCII, by
    the ASCII rule, or from U+0130 or the Kelvin sign; a code point of
    the result that is whitespace is the code point it comes from. *)
Lemma chunk_point (p : N) (chunk : list N) (q : N) :
  Chunk p chunk -> In q chunk ->
  ((q < 128)%N ->
   ((p < 128)%N /\ q = lowerAscii p /\ chunk = [q])
   \/ (p = 304%N /\ q = 105%N) \/ (p = 8490%N /\ q = 107%N))
  /\ (isWhiteSpace q = true -> q = p).
Proof.
  intros [->|[-> ->]] Hq.
  - unfold lowerPoint in *. destruct (N.eqb p 304) eqn:E.
    + apply N.eqb_eq in E. subst p.
      destruct Hq as [<-|[<-|[]]].
      * split; [intros _; right; left; now split|discriminate].
      * split; [intros H; exfalso; lia|discriminate].
    + destruct Hq as [<-|[]]. split.
      * intros Hlow.
        destruct (@simpleLowerCase_low p Hlow) as [Hp|[-> Hk]].
        -- left. rewrite (@simpleLowerCase_ascii p Hp). now repeat split.
        -- right. right. now split.
      * apply simpleLowerCase_ws.
  - destruct Hq as [<-|[]]. unfold finalSigma.
    split; [intros H; exfalso; lia|discriminate].
Qed.

Lemma chunk_nonempty (p : N) (chunk : list N) : Chunk p chunk -> chunk <> [].
Proof.
  intros [->|[_ ->]]; [|discriminate].
  unfold lowerPoint. destruct (N.eqb p 304); discriminate.
Qed.

Lemma lowerPoints_cons (afterCased : bool) (p : N) (rest : list N) :
  exists chunk,
    Chunk p chunk
    /\ lowerPoints afterCased (p :: rest)
       = chunk ++ lowerPoints (if isCaseIgnorable p then afterCased
                               else isCased p) rest.
Proof.
  cbn [lowerPoints].
  destruct (N.eqb p capitalSigma && afterCased && negb (followedByCased rest))
    eqn:E.
  - exists [finalSigma]. split; [|reflexivity]. right.
    apply andb_true_iff in E. destruct E as [E _].
    apply andb_true_iff in E. destruct E as [E _].
    apply N.eqb_eq in E. now split.
  - exists (lowerPoint p). split; [now left | reflexivity].
Qed.

Lemma lowerPoints_In (afterCased : bool) (points : list N) (q : N) :
  In q (lowerPoints afterCased points) ->
  exists p chunk, In p points /\ Chunk p chunk /\ In q chunk.
Proof.
  revert afterCased. induction points as [|p rest IH]; intros afterCased Hq;
    [contradiction|].
  destruct (lowerPoints_cons afterCased p rest) as (chunk & Hc & Heq).
  rewrite Heq in Hq. apply in_app_or in Hq. destruct Hq as [Hq|Hq].
  - exists p, chunk. split; [now left|]. now split.
  - destruct (IH _ Hq) as (p' & chunk' & Hin & Hc' & Hq').
    exists p', chunk'. split; [now right|]. now split.
Qed.

Lemma lowerPoints_snoc (afterCased : bool) (points : list N) (p : N) :
  exists front chunk,
    Chunk p chunk
    /\ lowerPoints afterCased (points ++ [p]) = front ++ chunk.
Proof.
  revert afterCased. induction points as [|p0 rest IH]; intros afterCased.
  - destruct (lowerPoints_cons afterCased p []) as (chunk & Hc & Heq).
    exists [], chunk. split; [exact Hc|].
    cbn [app]. rewrite Heq. cbn [lowerPoints]. apply app_nil_r.
  - destruct (lowerPoints_cons afterCased p0 (rest ++ [p]))
      as (chunk0 & _ & Heq).
    destruct (IH (if isCaseIgnorable p0 then afterCased else isCased p0))
      as (front & chunk & Hc & Hrest).
    exists (chunk0 ++ front), chunk. split; [exact Hc|].
    cbn [app]. rewrite Heq, Hrest. apply app_assoc.
Qed.

Lemma lowerPoints_ascii (afterCased : bool) (points : list N) :
  Forall (fun p => (p < 128)%N) points ->
  lowerPoints afterCased points = map lowerAscii points.
Proof.
  intros H. revert afterCased.
  induction H as [|p rest Hp Hrest IH]; intros afterCased; [reflexivity|].
  cbn [lowerPoints map].
  assert (Hs : N.eqb p capitalSigma = false)
    by (apply N.eqb_neq; unfold capitalSigma; lia).
  rewrite Hs. cbn [andb]. unfold lowerPoint.
  assert (Hi : N.eqb p 304 = false) by (apply N.eqb_neq; lia).
  rewrite Hi, (@simpleLowerCase_ascii p Hp). cbn [app]. f_equal. apply IH.
Qed.

(** *** Code points and code units *)

Lemma toCodePoints_step (hi lo : N) (r : jsstring) :
  toCodePoints (hi :: lo :: r)
  = if isLeadSurrogate hi && isTrailSurrogate lo
    then (65536 + (hi - 55296) * 1024 + (lo - 56320))%N :: toCodePoints r
    else hi :: toCodePoints (lo :: r).
Proof. reflexivity. Qed.

(** Induction on a string along its code points. *)
Lemma by_code_points (P : jsstring -> Prop) :
  P [] ->
  (forall c, P [c]) ->
  (forall hi lo r,
      isLeadSurrogate hi && isTrailSurrogate lo = true ->
      P r -> P (hi :: lo :: r)) ->
  (forall hi lo r,
      isLeadSurrogate hi && isTrailSurrogate lo = false ->
      P (lo :: r) -> P (hi :: lo :: r)) ->
  forall s, P s.
Proof.
  intros Hnil Hone Hpair Hunit s.
  assert (H : forall n s, List.length s <= n -> P s).
  { induction n as [|n IH]; intros [|hi [|lo r]] Hlen; auto;
      try (simpl in Hlen; lia).
    destruct (isLeadSurrogate hi && isTrailSurrogate lo) eqn:E.
    - apply Hpair; [exact E|]. apply IH. simpl in Hlen. lia.
    - apply Hunit; [exact E|]. apply IH. simpl in *. lia. }
  apply (H (List.length s)). lia.
Qed.

Lemma toCodePoints_In (s : jsstring) (p : N) :
  In p (toCodePoints s) -> In p s \/ (65536 <= p)%N.
Proof.
  induction s as [|c|hi lo r E IH|hi lo r E IH] using by_code_points.
  - contradiction.
  - intros [<-|[]]. left. now left.
  - rewrite toCodePoints_step, E. intros [<-|H]; [right; lia|].
    destruct (IH H) as [Hin|Hp]; [left; now right; right | now right].
  - rewrite toCodePoints_step, E. intros [<-|H]; [left; now left|].
    destruct (IH H) as [Hin|Hp]; [left; now right | now right].
Qed.

Lemma toCodePoints_head (s : jsstring) (p : N) (points : list N) :
  toCodePoints s = p :: points ->
  exists c r, s = c :: r /\ (p = c \/ (65536 <= p)%N).
Proof.
  destruct s as [|hi [|lo r]]; [discriminate| |].
  - intros [= <- _]. exists hi, []. split; [reflexivity | now left].
  - rewrite toCodePoints_step. intros H. exists hi, (lo :: r).
    split; [reflexivity|].
    destruct (isLeadSurrogate hi && isTrailSurrogate lo).
    + right.
      assert (Hp : p = (65536 + (hi - 55296) * 1024 + (lo - 56320))%N)
        by congruence.
      lia.
    + left. congruence.
Qed.

Lemma toCodePoints_last (s : jsstring) :
  s <> [] ->
  exists points p r c,
    toCodePoints s = points ++ [p] /\ s = r ++ [c]
    /\ (p = c \/ (65536 <= p)%N).
Proof.
  induction s as [|c|hi lo r E IH|hi lo r E IH] using by_code_points;
    intros Hs.
  - contradiction.
  - exists [], c, [], c. repeat split. now left.
  - rewrite toCodePoints_step, E.
    destruct r as [|c0 r0].
    + exists [], (65536 + (hi - 55296) * 1024 + (lo - 56320))%N, [hi], lo.
      repeat split. right. lia.
    + destruct IH as (points & p & r' & c & Hp & Hr & Hc); [discriminate|].
      rewrite Hp, Hr.
      exists ((65536 + (hi - 55296) * 1024 + (lo - 56320))%N :: points),
        p, (hi :: lo :: r'), c.
      now repeat split.
  - rewrite toCodePoints_step, E.
    destruct IH as (points & p & r' & c & Hp & Hr & Hc); [discriminate|].
    rewrite Hp, Hr. exists (hi :: points), p, (hi :: r'), c.
    now repeat split.
Qed.

(** A string without a code point above U+FFFF is its own sequence of
    code points. *)
Lemma toCodePoints_plain (s : jsstring) :
  Forall (fun p => (p < 65536)%N) (toCodePoints s) -> toCodePoints s = s.
Proof.
  induction s as [|c|hi lo r E IH|hi lo r E IH] using by_code_points.
  - reflexivity.
  - reflexivity.
  - rewrite toCodePoints_step, E. intros H. apply Forall_inv in H.
    cbv beta in H. lia.
  - rewrite toCodePoints_step, E. intros H. apply Forall_inv_tail in H.
    f_equal. now apply IH.
Qed.

Lemma toCodePoints_ascii (s : jsstring) :
  Forall (fun c => (c < 128)%N) s -> toCodePoints s = s.
Proof.
  induction s as [|c|hi lo r E IH|hi lo r E IH] using by_code_points;
    intros H.
  - reflexivity.
  - reflexivity.
  - exfalso. apply Forall_inv in H. cbv beta in H.
    apply andb_true_iff in E. destruct E as [E _].
    unfold isLeadSurrogate, in_range in E. bools. lia.
  - rewrite toCodePoints_step, E. apply Forall_inv_tail in H.
    f_equal. now apply IH.
Qed.

Lemma fromCodePoint_units (q u : N) :
  In u (fromCodePoint q) -> u = q \/ (55296 <= u <= 57343)%N.
Proof.
  unfold fromCodePoint.
  destruct (N.ltb q 65536 || N.ltb 1114111 q) eqn:E.
  - intros [<-|[]]. now left.
  - apply orb_false_iff in E. destruct E as [E1 E2].
    apply N.ltb_ge in E1, E2.
    assert (Hd : ((q - 65536) / 1024 < 1024)%N)
      by (apply N.Div0.div_lt_upper_bound; lia).
    assert (Hm : ((q - 65536) mod 1024 < 1024)%N)
      by (apply N.mod_lt; discriminate).
    set (d := ((q - 65536) / 1024)%N) in *.
    set (m := ((q - 65536) mod 1024)%N) in *.
    clearbody d m.
    intros [Hu|[Hu|[]]]; right; lia.
Qed.

Lemma fromCodePoint_nonempty (q : N) : fromCodePoint q <> [].
Proof.
  unfold fromCodePoint.
  destruct (N.ltb q 65536 || N.ltb 1114111 q); discriminate.
Qed.

Lemma fromCodePoint_low (q : N) : (q < 65536)%N -> fromCodePoint q = [q].
Proof.
  intros H. unfold fromCodePoint.
  apply N.ltb_lt in H. now rewrite H.
Qed.

Lemma fromCodePoints_ascii (points : list N) :
  Forall (fun p => (p < 128)%N) points ->
  flat_map fromCodePoint points = points.
Proof.
  induction 1 as [|p rest Hp Hrest IH]; [reflexivity|].
  cbn [flat_map]. rewrite IH, fromCodePoint_low by lia. reflexivity.
Qed.

(** *** [toLowerCase] *)

(** Within ASCII, [toLowerCase] is the ASCII rule on every code unit. *)
Lemma toLowerCase_ascii (s : jsstring) :
  Forall (fun c => (c < 128)%N) s -> toLowerCase s = map lowerAscii s.
Proof.
  intros H. unfold toLowerCase.
  rewrite (@toCodePoints_ascii s H), (@lowerPoints_ascii false s H).
  apply fromCodePoints_ascii.
  apply Forall_forall. intros q Hq. apply in_map_iff in Hq.
  destruct Hq as (p & <- & Hp). apply lowerAscii_low.
  exact (proj1 (Forall_forall _ _) H p Hp).
Qed.

(** Where a code unit of the result comes from. *)
Lemma toLowerCase_In (s : jsstring) (u : N) :
  In u (toLowerCase s) ->
  exists p chunk q,
    (In p s \/ (65536 <= p)%N) /\ Chunk p chunk /\ In q chunk
    /\ (u = q \/ (55296 <= u <= 57343)%N).
Proof.
  unfold toLowerCase. intros H. apply in_flat_map in H.
  destruct H as (q & Hq & Hu).
  destruct (@lowerPoints_In _ _ q Hq) as (p & chunk & Hp & Hc & Hqc).
  exists p, chunk, q. split; [now apply toCodePoints_In|].
  split; [exact Hc|]. split; [exact Hqc|]. now apply fromCodePoint_units.
Qed.

(** A code unit of the result that lies in ASCII is the lower-case form
    of an ASCII code unit of the string, or the [i] of U+0130, or the
    [k] of the Kelvin sign; a whitespace code unit of the result is one
    of the string. *)
Lemma toLowerCase_unit (s : jsstring) (u : N) :
  In u (toLowerCase s) ->
  ((u < 128)%N ->
   (exists c, In c s /\ (c < 128)%N /\ u = lowerAscii c)
   \/ u = 105%N \/ u = 107%N)
  /\ (isWhiteSpace u = true -> In u s).
Proof.
  intros H.
  destruct (@toLowerCase_In s u H) as (p & chunk & q & Hp & Hc & Hq & Hu).
  destruct (@chunk_point p chunk q Hc Hq) as [Hlow Hws].
  split.
  - intros Hu128. destruct Hu as [->|Hu]; [|exfalso; lia].
    destruct (Hlow Hu128) as [(Hp128 & -> & _)|[[_ ->]|[_ ->]]]; auto.
    left. exists p. split; [|now split].
    destruct Hp as [Hp|Hp]; [exact Hp | exfalso; lia].
  - intros Hw. destruct Hu as [->|Hu].
    + pose proof (Hws Hw) as Hqp. subst q.
      destruct Hp as [Hp|Hp]; [exact Hp|].
      exfalso. apply isWhiteSpace_In in Hw. unfold whiteSpaces in Hw.
      cbn [In] in Hw. lia.
    + exfalso. apply isWhiteSpace_In in Hw. unfold whiteSpaces in Hw.
      cbn [In] in Hw. lia.
Qed.

Lemma flat_map_head (points : list N) (u : N) (t : jsstring) :
  flat_map fromCodePoint points = u :: t ->
  exists q rest, points = q :: rest
                 /\ (u = q \/ (55296 <= u <= 57343)%N).
Proof.
  destruct points as [|q rest]; [discriminate|].
  cbn [flat_map]. intros H. exists q, rest. split; [reflexivity|].
  apply fromCodePoint_units.
  destruct (fromCodePoint q) as [|v w] eqn:E;
    [now apply fromCodePoint_nonempty in E|].
  injection H as -> _. now left.
Qed.

Lemma app_last_In (A : Type) (l m t : list A) (x : A) :
  l ++ m = t ++ [x] -> m <> [] -> In x m.
Proof.
  intros H Hm. destruct (exists_last Hm) as (m' & y & ->).
  rewrite app_assoc in H. apply app_inj_tail in H. destruct H as [_ ->].
  apply in_or_app. right. now left.
Qed.

(** The first code unit of the result, when it lies in ASCII, comes
    from the first code unit of the string; so does the last from the
    last. *)
Lemma toLowerCase_first (s : jsstring) (u : N) (t : jsstring) :
  toLowerCase s = u :: t -> (u < 128)%N ->
  u = 105%N \/ u = 107%N
  \/ exists c r, s = c :: r /\ (c < 128)%N /\ u = lowerAscii c.
Proof.
  unfold toLowerCase. intros H Hu.
  destruct (@flat_map_head _ u t H) as (q & rest & Hq & Huq).
  destruct Huq as [->|Huq]; [|exfalso; lia].
  destruct (toCodePoints s) as [|p points] eqn:Hs; [discriminate|].
  destruct (lowerPoints_cons false p points) as (chunk & Hc & Heq).
  rewrite Heq in Hq.
  destruct chunk as [|q0 chunk'] eqn:Hchunk;
    [now apply chunk_nonempty in Hc|].
  injection Hq as -> _.
  destruct (@chunk_point p (q :: chunk') q Hc (or_introl eq_refl))
    as [Hlow _].
  destruct (Hlow Hu) as [(Hp & Hqp & _)|[[_ ->]|[_ ->]]]; auto.
  right. right.
  destruct (@toCodePoints_head s p points Hs) as (c & r & -> & [->|Hbig]);
    [|exfalso; lia].
  exists c, r. split; [reflexivity|]. split; [exact Hp | exact Hqp].
Qed.

Lemma toLowerCase_last (s : jsstring) (t : jsstring) (u : N) :
  toLowerCase s = t ++ [u] -> (u < 128)%N ->
  u = 105%N \/ u = 107%N
  \/ exists r c, s = r ++ [c] /\ (c < 128)%N /\ u = lowerAscii c.
Proof.
  unfold toLowerCase. intros H Hu.
  destruct s as [|c0 s0] eqn:Hs; [now destruct t|].
  rewrite <- Hs in *.
  destruct (toCodePoints_last (s := s)) as (points & p & r & c & Hp & Hr & Hc);
    [rewrite Hs; discriminate|].
  rewrite Hp in H.
  destruct (lowerPoints_snoc false points p) as (front & chunk & Hchunk & Heq).
  rewrite Heq, flat_map_app in H.
  assert (Hne : flat_map fromCodePoint chunk <> []).
  { destruct chunk as [|q chunk']; [now apply chunk_nonempty in Hchunk|].
    cbn [flat_map]. intros Hnil. apply app_eq_nil in Hnil.
    destruct Hnil as [Hnil _]. now apply fromCodePoint_nonempty in Hnil. }
  pose proof (@app_last_In _ _ _ _ _ H Hne) as Hin.
  apply in_flat_map in Hin. destruct Hin as (q & Hq & Huq).
  apply fromCodePoint_units in Huq.
  destruct Huq as [->|Huq]; [|exfalso; lia].
  destruct (@chunk_point p chunk q Hchunk Hq) as [Hlow _].
  destruct (Hlow Hu) as [(Hp128 & Hqp & _)|[[_ ->]|[_ ->]]]; auto.
  right. right. exists r, c. split; [exact Hr|].
  destruct Hc as [Hc|Hbig]; [|exfalso; lia].
  subst p. split; [exact Hp128 | exact Hqp].
Qed.

Lemma lowerPoints_covers (afterCased : bool) (points : list N) (p : N) :
  In p points ->
  exists chunk,
    Chunk p chunk /\ incl chunk (lowerPoints afterCased points).
Proof.
  revert afterCased. induction points as [|p0 rest IH]; intros afterCased Hp;
    [contradiction|].
  destruct (lowerPoints_cons afterCased p0 rest) as (chunk & Hc & Heq).
  rewrite Heq. destruct Hp as [->|Hp].
  - exists chunk. split; [exact Hc | apply incl_appl, incl_refl].
  - destruct (IH (if isCaseIgnorable p0 then afterCased else isCased p0) Hp)
      as (chunk' & Hc' & Hincl).
    exists chunk'. split; [exact Hc' | now apply incl_appr].
Qed.

(** *** Hexadecimal digits *)

Lemma hex_ascii (c : N) : Uuid.isHex c = true -> (c < 128)%N.
Proof. intros H. classes. bools. lia. Qed.

Lemma lowerAscii_hex (c : N) :
  Uuid.isHex c = true \/ c = hyphen -> lowerAscii c = lowerHex c.
Proof.
  intros H. unfold lowerAscii, lowerHex.
  destruct (in_range 65 90 c) eqn:E1; destruct (in_range 65 70 c) eqn:E2;
    try reflexivity; exfalso; classes; bools; lia.
Qed.

Lemma lowerAscii_hex_inv (c : N) :
  Uuid.isHex (lowerAscii c) = true -> Uuid.isHex c = true.
Proof.
  unfold lowerAscii. destruct (in_range 65 90 c) eqn:E; [|auto].
  intros H. classes. bools. lia.
Qed.

Lemma toLowerCase_uuid (s : jsstring) :
  Forall (fun c => Uuid.isHex c = true \/ c = hyphen) s ->
  toLowerCase s = map lowerHex s.
Proof.
  intros H. rewrite toLowerCase_ascii.
  - apply map_ext_in. intros c Hc. apply lowerAscii_hex.
    exact (proj1 (Forall_forall _ _) H c Hc).
  - apply Forall_forall. intros c Hc.
    destruct (proj1 (Forall_forall _ _) H c Hc) as [Hx| ->];
      [now apply hex_ascii | reflexivity].
Qed.

Lemma toLowerCase_hex (s : jsstring) :
  forallb Uuid.isHex s = true -> toLowerCase s = map lowerHex s.
Proof.
  intros H. apply toLowerCase_uuid, Forall_forall. intros c Hc. left.
  exact (proj1 (forallb_forall _ _) H c Hc).
Qed.

(** A string whose lower-case form consists of hexadecimal digits
    consists of hexadecimal digits. *)
Lemma toLowerCase_hex_inv (s : jsstring) :
  forallb Uuid.isHex (toLowerCase s) = true -> forallb Uuid.isHex s = true.
Proof.
  intros H.
  assert (Hpoints : Forall (fun p => Uuid.isHex p = true) (toCodePoints s)).
  { apply Forall_forall. intros p Hp.
    destruct (@lowerPoints_covers false (toCodePoints s) p Hp)
      as (chunk & Hc & Hincl).
    destruct chunk as [|q chunk'] eqn:Hchunk;
      [now apply chunk_nonempty in Hc|].
    destruct (fromCodePoint q) as [|u w] eqn:Hq;
      [now apply fromCodePoint_nonempty in Hq|].
    assert (Hu : In u (toLowerCase s)).
    { unfold toLowerCase. apply in_flat_map. exists q. split.
      - apply Hincl. now left.
      - rewrite Hq. now left. }
    apply (proj1 (forallb_forall _ _) H) in Hu.
    pose proof (hex_ascii _ Hu) as Hlow.
    assert (Huq : u = q).
    { destruct (@fromCodePoint_units q u) as [Huq|Hs];
        [rewrite Hq; now left | exact Huq | exfalso; lia]. }
    subst u.
    destruct (@chunk_point p (q :: chunk') q Hc (or_introl eq_refl))
      as [Hascii _].
    destruct (Hascii Hlow) as [(_ & Hqp & _)|[[_ Hi]|[_ Hk]]].
    - subst q. now apply lowerAscii_hex_inv.
    - subst q. discriminate Hu.
    - subst q. discriminate Hu. }
  rewrite toCodePoints_plain in Hpoints.
  - apply forallb_forall. exact (proj1 (Forall_forall _ _) Hpoints).
  - apply Forall_forall. intros p Hp.
    pose proof (hex_ascii _ (proj1 (Forall_forall _ _) Hpoints p Hp)). lia.
Qed.

(** ** [normalizeUuid] *)

Lemma closed_isHex : closedUnderLower Uuid.isHex.
Proof.
  intros c H. unfold lowerHex.
  destruct (in_range 65 70 c) eqn:E; classes; bools; lia.
Qed.

Lemma closed_isVersionDigit : closedUnderLower Uuid.isVersionDigit.
Proof.
  intros c H. unfold lowerHex.
  destruct (in_range 65 70 c) eqn:E; classes; bools; lia.
Qed.

Lemma closed_isVariantDigit : closedUnderLower Uuid.isVariantDigit.
Proof.
  intros c H. unfold lowerHex.
  destruct (in_range 65 70 c) eqn:E; classes; bools; lia.
Qed.

Lemma closed_isZero : closedUnderLower Uuid.isZero.
Proof.
  intros c H. unfold lowerHex.
  destruct (in_range 65 70 c) eqn:E; classes; bools; lia.
Qed.

Lemma closed_isF : closedUnderLower Uuid.isF.
Proof.
  intros c H. unfold lowerHex.
  destruct (in_range 65 70 c) eqn:E; classes; bools; lia.
Qed.

Lemma closed_isHyphen : closedUnderLower isHyphen.
Proof.
  intros c H. unfold lowerHex.
  destruct (in_range 65 70 c) eqn:E; classes; bools; lia.
Qed.

Lemma hex_isHex : onlyHexOrHyphen Uuid.isHex.
Proof. intros c H. now left. Qed.

Lemma hex_isVersionDigit : onlyHexOrHyphen Uuid.isVersionDigit.
Proof. intros c H. left. classes. bools. lia. Qed.

Lemma hex_isVariantDigit : onlyHexOrHyphen Uuid.isVariantDigit.
Proof. intros c H. left. classes. bools. lia. Qed.

Lemma hex_isZero : onlyHexOrHyphen Uuid.isZero.
Proof. intros c H. left. classes. bools. lia. Qed.

Lemma hex_isF : onlyHexOrHyphen Uuid.isF.
Proof. intros c H. left. classes. bools. lia. Qed.

Lemma hex_isHyphen : onlyHexOrHyphen isHyphen.
Proof. intros c H. right. classes. bools. lia. Qed.

Create HintDb uuid_classes.
#[local] Hint Resolve closed_isHex closed_isVersionDigit
  closed_isVariantDigit closed_isZero closed_isF closed_isHyphen
  hex_isHex hex_isVersionDigit hex_isVariantDigit hex_isZero hex_isF
  hex_isHyphen : uuid_classes.

Lemma patterns_closed :
  Forall (Forall closedUnderLower) patterns.
Proof.
  repeat (apply Forall_cons || apply Forall_nil); auto with uuid_classes.
Qed.

Lemma patterns_hex :
  Forall (Forall onlyHexOrHyphen) patterns.
Proof.
  repeat (apply Forall_cons || apply Forall_nil); auto with uuid_classes.
Qed.

Lemma patterns_length :
  Forall (fun p => List.length p = 36) patterns.
Proof. repeat constructor. Qed.

Lemma validate_patterns (s : jsstring) :
  Uuid.validate s = true <-> Exists (fun p => Uuid.matches p s = true) patterns.
Proof.
  unfold Uuid.validate, patterns. rewrite !orb_true_iff.
  split.
  - intros [[H|H]|H]; auto.
  - intros H. inversion H as [? ? H1|? ? H1]; subst; auto.
    inversion H1 as [? ? H2|? ? H2]; subst; auto.
    inversion H2 as [? ? H3|? ? H3]; subst; auto.
    inversion H3.
Qed.

Lemma matches_length (p : list (N -> bool)) (s : jsstring) :
  Uuid.matches p s = true -> List.length s = List.length p.
Proof.
  revert s. induction p as [|q p IH]; intros [|c s] H; simpl in *;
    try discriminate; [reflexivity|].
  apply andb_true_iff in H. destruct H as [_ H]. now rewrite (IH s H).
Qed.

Lemma matches_map (p : list (N -> bool)) (s : jsstring) :
  Forall closedUnderLower p ->
  Uuid.matches p s = true -> Uuid.matches p (map lowerHex s) = true.
Proof.
  intros Hp. revert s.
  induction Hp as [|q p Hq Hp IH]; intros [|c s] H; simpl in *;
    try discriminate; [reflexivity|].
  apply andb_true_iff in H. destruct H as [Hc H].
  now rewrite (Hq c Hc), (IH s H).
Qed.

Lemma matches_hex (p : list (N -> bool)) (s : jsstring) :
  Forall onlyHexOrHyphen p ->
  Uuid.matches p s = true ->
  forallb Uuid.isHex (stripHyphens s) = true.
Proof.
  intros Hp. revert s.
  induction Hp as [|q p Hq Hp IH]; intros [|c s] H; simpl in *;
    try discriminate; [reflexivity|].
  apply andb_true_iff in H. destruct H as [Hc H].
  destruct (Hq c Hc) as [Hx| ->].
  - assert (Hn : isHyphen c = false) by (classes; bools; lia).
    rewrite Hn. simpl. now rewrite Hx, (IH s H).
  - change (isHyphen hyphen) with true. simpl. now apply IH.
Qed.

Lemma validate_length (s : jsstring) :
  Uuid.validate s = true -> List.length s = 36.
Proof.
  rewrite validate_patterns. intros H.
  apply Exists_exists in H. destruct H as [p [Hin Hm]].
  rewrite (matches_length _ _ Hm).
  exact (proj1 (Forall_forall _ _) patterns_length p Hin).
Qed.

Lemma validate_lower (s : jsstring) :
  Uuid.validate s = true -> Uuid.validate (map lowerHex s) = true.
Proof.
  rewrite !validate_patterns. intros H.
  apply Exists_exists in H. destruct H as [p [Hin Hm]].
  apply Exists_exists. exists p. split; [exact Hin|].
  apply matches_map; [|exact Hm].
  exact (proj1 (Forall_forall _ _) patterns_closed p Hin).
Qed.

Lemma validate_hex (s : jsstring) :
  Uuid.validate s = true -> forallb Uuid.isHex (stripHyphens s) = true.
Proof.
  rewrite validate_patterns. intros H.
  apply Exists_exists in H. destruct H as [p [Hin Hm]].
  apply matches_hex with (p := p); [|exact Hm].
  exact (proj1 (Forall_forall _ _) patterns_hex p Hin).
Qed.

Lemma slices_join (s : jsstring) :
  slice s 0 8 ++ slice s 8 12 ++ slice s 12 16 ++ slice s 16 20
  ++ sliceFrom s 20 = s.
Proof.
  unfold slice, sliceFrom. cbn [Nat.sub].
  change (skipn 0 s) with s.
  rewrite <- (firstn_skipn 8 s) at 6.
  f_equal.
  replace (skipn 12 s) with (skipn 4 (skipn 8 s))
    by (rewrite skipn_skipn; reflexivity).
  replace (skipn 16 s) with (skipn 4 (skipn 4 (skipn 8 s)))
    by (rewrite !skipn_skipn; reflexivity).
  replace (skipn 20 s) with (skipn 4 (skipn 4 (skipn 4 (skipn 8 s))))
    by (rewrite !skipn_skipn; reflexivity).
  now rewrite !firstn_skipn.
Qed.

Lemma stripHyphens_app (a b : jsstring) :
  stripHyphens (a ++ b) = stripHyphens a ++ stripHyphens b.
Proof. apply filter_app. Qed.

Lemma stripHyphens_hyphenate (s : jsstring) :
  stripHyphens (hyphenate s) = stripHyphens s.
Proof.
  unfold hyphenate. rewrite !stripHyphens_app.
  change (stripHyphens [hyphen]) with (@nil N). cbn [app].
  rewrite <- !stripHyphens_app. now rewrite slices_join.
Qed.

Lemma stripHyphens_hex (s : jsstring) :
  forallb Uuid.isHex s = true -> stripHyphens s = s.
Proof.
  induction s as [|c s IH]; simpl; [reflexivity|].
  intros H. apply andb_true_iff in H. destruct H as [Hc H].
  assert (Hn : isHyphen c = false) by (classes; bools; lia).
  rewrite Hn. simpl. now rewrite IH.
Qed.

Lemma hyphenate_map (f : N -> N) (s : jsstring) :
  f hyphen = hyphen -> hyphenate (map f s) = map f (hyphenate s).
Proof.
  intros Hf. unfold hyphenate, slice, sliceFrom.
  rewrite !skipn_map, !firstn_map, !map_app. cbn [map]. now rewrite Hf.
Qed.

Lemma hyphenate_length (s : jsstring) :
  List.length (hyphenate s) = 36 -> List.length s = 32.
Proof.
  unfold hyphenate, slice, sliceFrom.
  rewrite !length_app, !length_firstn, !length_skipn. cbn [List.length].
  lia.
Qed.

Lemma map_lowerHex_lower (s : jsstring) :
  forallb Uuid.isHex s = true ->
  forallb Uuid.isLowerHex (map lowerHex s) = true.
Proof.
  induction s as [|c s IH]; simpl; [reflexivity|].
  intros H. apply andb_true_iff in H. destruct H as [Hc H].
  now rewrite (lowerHex_lower c Hc), (IH H).
Qed.

Lemma version_hex (c : N) :
  Uuid.isVersionDigit c = true -> Uuid.isHex c = true.
Proof. intros H. classes. bools. lia. Qed.

Lemma variant_hex (c : N) :
  Uuid.isVariantDigit c = true -> Uuid.isHex c = true.
Proof. intros H. classes. bools. lia. Qed.

Lemma zero_hex (c : N) : Uuid.isZero c = true -> Uuid.isHex c = true.
Proof. intros H. classes. bools. lia. Qed.

Lemma f_hex (c : N) : Uuid.isF c = true -> Uuid.isHex c = true.
Proof. intros H. classes. bools. lia. Qed.

#[local] Hint Resolve version_hex variant_hex zero_hex f_hex : uuid_classes.

(** The 32 code units that [hyphenate] spreads over a well-formed UUID
    are hexadecimal digits. *)
Lemma validate_hyphenate_hex (compact : jsstring) :
  Uuid.validate (hyphenate compact) = true ->
  List.length compact = 32 /\ forallb Uuid.isHex compact = true.
Proof.
  intros H.
  assert (Hlen : List.length compact = 32)
    by (apply hyphenate_length, validate_length, H).
  split; [exact Hlen|].
  rewrite validate_patterns in H.
  do 32 (destruct compact as [|? compact]; [discriminate Hlen|]).
  destruct compact; [|discriminate Hlen].
  apply Exists_exists in H. destruct H as [p [Hin H1]].
  destruct Hin as [<-|[<-|[<-|[]]]]; clear - H1;
    cbn -[Uuid.isHex Uuid.isVersionDigit Uuid.isVariantDigit Uuid.isZero
          Uuid.isF isHyphen] in H1;
    repeat (apply andb_true_iff in H1; destruct H1 as [? H1]);
    cbn [forallb];
    repeat (apply andb_true_intro; split);
    auto with uuid_classes.
Qed.

Lemma normalizeUuid_canonical_form (input : jsstring) :
  normalizeUuid input =
  match canonical (stripHyphens input) with
  | Some u => Returned u
  | None => Thrown (MinecraftAuthThrown (MinecraftAuthInvalidUuidError input))
  end.
Proof.
  unfold normalizeUuid, canonical. rewrite replaceAll_hyphen.
  destruct (Nat.eqb (List.length (toLowerCase (stripHyphens input))) 32);
    simpl; [|reflexivity].
  now destruct (Uuid.validate (hyphenate (toLowerCase (stripHyphens input)))).
Qed.

Lemma canonical_wellformed (bare : jsstring) :
  Uuid.validate (hyphenate bare) = true ->
  stripHyphens bare = bare /\
  canonical bare = Some (hyphenate (toLowerCase bare)).
Proof.
  intros H. destruct (validate_hyphenate_hex _ H) as [Hlen Hhex].
  split; [now apply stripHyphens_hex|].
  unfold canonical. rewrite (toLowerCase_hex _ Hhex).
  rewrite length_map, Hlen. simpl.
  rewrite hyphenate_map by reflexivity.
  now rewrite (validate_lower _ H).
Qed.

Lemma canonical_inv (stripped u : jsstring) :
  canonical stripped = Some u ->
  u = hyphenate (toLowerCase stripped) /\ Uuid.validate u = true /\
  List.length stripped = 32 /\ forallb Uuid.isHex stripped = true /\
  forallb Uuid.isLowerHex (toLowerCase stripped) = true.
Proof.
  unfold canonical.
  destruct (Nat.eqb (List.length (toLowerCase stripped)) 32) eqn:Hlen;
    simpl; [|discriminate].
  destruct (Uuid.validate (hyphenate (toLowerCase stripped))) eqn:Hv;
    [|discriminate].
  intros [= <-]. split; [reflexivity|]. split; [exact Hv|].
  destruct (validate_hyphenate_hex _ Hv) as [_ Hhex].
  pose proof (toLowerCase_hex_inv _ Hhex) as Hin.
  apply Nat.eqb_eq in Hlen.
  rewrite (toLowerCase_hex _ Hin) in *. rewrite length_map in Hlen.
  repeat split; [exact Hlen | exact Hin | now apply map_lowerHex_lower].
Qed.

Lemma hyphenate_groups (compact : jsstring) :
  List.length compact = 32 ->
  exists g1 g2 g3 g4 g5,
    hyphenate compact =
      g1 ++ [hyphen] ++ g2 ++ [hyphen] ++ g3 ++ [hyphen] ++ g4
         ++ [hyphen] ++ g5
    /\ map (@List.length N) [g1; g2; g3; g4; g5] = [8; 4; 4; 4; 12]
    /\ g1 ++ g2 ++ g3 ++ g4 ++ g5 = compact.
Proof.
  intros Hlen.
  exists (slice compact 0 8), (slice compact 8 12), (slice compact 12 16),
    (slice compact 16 20), (sliceFrom compact 20).
  split; [reflexivity|]. split; [|apply slices_join].
  unfold slice, sliceFrom. cbn [map].
  rewrite !length_firstn, !length_skipn, Hlen. reflexivity.
Qed.

Lemma hex_not_hyphen (c : N) : Uuid.isHex c = true -> isHyphen c = false.
Proof. intros H. classes. bools. lia. Qed.

Lemma isHyphen_eq (c : N) : isHyphen c = true -> c = hyphen.
Proof. intros H. classes. bools. lia. Qed.

Lemma matches_only (p : list (N -> bool)) (s : jsstring) :
  Forall onlyHexOrHyphen p ->
  Uuid.matches p s = true ->
  Forall (fun c => Uuid.isHex c = true \/ c = hyphen) s.
Proof.
  intros Hp. revert s.
  induction Hp as [|q p Hq Hp IH]; intros [|c s] H; simpl in *;
    try discriminate; [constructor|].
  apply andb_true_iff in H. destruct H as [Hc H].
  constructor; [now apply Hq | now apply IH].
Qed.

Lemma strip_keep (c : N) (s : jsstring) :
  isHyphen c = false -> stripHyphens (c :: s) = c :: stripHyphens s.
Proof. intros H. unfold stripHyphens. cbn [filter]. now rewrite H. Qed.

Lemma strip_drop (s : jsstring) :
  stripHyphens (hyphen :: s) = stripHyphens s.
Proof. reflexivity. Qed.

(** A well-formed UUID is the [hyphenate] of its hyphen-stripped form. *)
Lemma validate_rebuild (u : jsstring) :
  Uuid.validate u = true -> hyphenate (stripHyphens u) = u.
Proof.
  intros H. pose proof (validate_length _ H) as Hlen.
  rewrite validate_patterns in H.
  do 36 (destruct u as [|? u]; [discriminate Hlen|]).
  destruct u; [|discriminate Hlen].
  apply Exists_exists in H. destruct H as [p [Hin H1]].
  destruct Hin as [<-|[<-|[<-|[]]]]; clear - H1;
    cbn -[Uuid.isHex Uuid.isVersionDigit Uuid.isVariantDigit Uuid.isZero
          Uuid.isF isHyphen] in H1;
    repeat (apply andb_true_iff in H1; destruct H1 as [? H1]);
    repeat match goal with
      | Hc : isHyphen ?c = true |- _ => apply isHyphen_eq in Hc; subst c
      | Hc : Uuid.isHex ?c = true |- _ => apply hex_not_hyphen in Hc
      | Hc : Uuid.isVersionDigit ?c = true |- _ => apply version_hex in Hc
      | Hc : Uuid.isVariantDigit ?c = true |- _ => apply variant_hex in Hc
      | Hc : Uuid.isZero ?c = true |- _ => apply zero_hex in Hc
      | Hc : Uuid.isF ?c = true |- _ => apply f_hex in Hc
      end;
    repeat first [rewrite strip_drop | rewrite strip_keep by assumption];
    reflexivity.
Qed.

Lemma validate_lowercase (u : jsstring) :
  Uuid.validate u = true ->
  toLowerCase u = hyphenate (toLowerCase (stripHyphens u)).
Proof.
  intros H.
  assert (Hall : Forall (fun c => Uuid.isHex c = true \/ c = hyphen) u).
  { rewrite validate_patterns in H.
    apply Exists_exists in H. destruct H as [p [Hin Hm]].
    apply matches_only with (p := p); [|exact Hm].
    exact (proj1 (Forall_forall _ _) patterns_hex p Hin). }
  rewrite (toLowerCase_uuid Hall).
  rewrite (toLowerCase_hex _ (validate_hex _ H)).
  rewrite hyphenate_map by reflexivity.
  now rewrite (validate_rebuild _ H).
Qed.

(** C7. [normalizeUuid] accepts every well-formed UUID, in any case, in
    its hyphenated form and in its bare form of 32 hexadecimal digits, and
    returns the same string for both, the lower-case hyphenated form;
    whatever it returns validates, and is five groups of 8, 4, 4, 4 and 12
    lower-case hexadecimal digits separated by hyphens; it throws the
    invalid-UUID error for every input whose hyphen-stripped form is not
    exactly 32 hexadecimal digits. *)
Theorem normalizeUuid_canonical :
  (forall u,
      Uuid.validate u = true ->
      normalizeUuid u = Returned (toLowerCase u)
      /\ normalizeUuid (stripHyphens u) = Returned (toLowerCase u)
      /\ List.length (stripHyphens u) = 32)
  /\ (forall input u,
         normalizeUuid input = Returned u ->
         Uuid.validate u = true /\
         exists g1 g2 g3 g4 g5,
           u = g1 ++ [hyphen] ++ g2 ++ [hyphen] ++ g3 ++ [hyphen] ++ g4
                  ++ [hyphen] ++ g5
           /\ map (@List.length N) [g1; g2; g3; g4; g5] = [8; 4; 4; 4; 12]
           /\ forallb Uuid.isLowerHex (g1 ++ g2 ++ g3 ++ g4 ++ g5) = true)
  /\ (forall input,
         Nat.eqb (List.length (stripHyphens input)) 32
         && forallb Uuid.isHex (stripHyphens input) = false ->
         normalizeUuid input =
         Thrown (MinecraftAuthThrown (MinecraftAuthInvalidUuidError input))).
Proof.
  split; [|split].
  - intros u H.
    pose proof (validate_rebuild _ H) as Hre.
    assert (Hbare : Uuid.validate (hyphenate (stripHyphens u)) = true)
      by (now rewrite Hre).
    destruct (canonical_wellformed _ Hbare) as [Hstrip Hcan].
    destruct (validate_hyphenate_hex _ Hbare) as [Hlen _].
    rewrite !normalizeUuid_canonical_form.
    rewrite Hstrip, Hcan, (validate_lowercase _ H). now repeat split.
  - intros input u H. rewrite normalizeUuid_canonical_form in H.
    destruct (canonical (stripHyphens input)) as [v|] eqn:Hcan;
      [|discriminate].
    injection H as ->.
    destruct (canonical_inv _ Hcan) as (-> & Hv & Hlen & Hhex & Hlow).
    split; [exact Hv|].
    assert (Hlen' : List.length (toLowerCase (stripHyphens input)) = 32)
      by (rewrite (toLowerCase_hex _ Hhex), length_map; exact Hlen).
    destruct (hyphenate_groups _ Hlen')
      as (g1 & g2 & g3 & g4 & g5 & Hu & Hg & Hjoin).
    exists g1, g2, g3, g4, g5. now rewrite Hjoin.
  - intros input H. rewrite normalizeUuid_canonical_form.
    destruct (canonical (stripHyphens input)) as [v|] eqn:Hcan;
      [|reflexivity].
    destruct (canonical_inv _ Hcan) as (_ & _ & Hlen & Hhex & _).
    now rewrite Hlen, Hhex in H.
Qed.

(** One UUID in upper case, hyphenated and bare. *)
Lemma normalizeUuid_canonical_witness :
  normalizeUuid (lit "069A79F4-44E9-4726-A5BE-FCA90E38AAF5")
  = Returned (lit "069a79f4-44e9-4726-a5be-fca90e38aaf5")
  /\ normalizeUuid (lit "069A79F444E94726A5BEFCA90E38AAF5")
     = Returned (lit "069a79f4-44e9-4726-a5be-fca90e38aaf5").
Proof.
  assert (H : Uuid.validate (lit "069A79F4-44E9-4726-A5BE-FCA90E38AAF5")
              = true) by (vm_compute; reflexivity).
  destruct (proj1 normalizeUuid_canonical _ H) as (Hu & Hbare & _).
  split; [exact Hu | exact Hbare].
Defined.

(** ** [validateCreatorName] and [getCreatorNameSlug] *)

(** C6. [validateCreatorName] collapses the whitespace runs of a name but
    does not trim it, and it measures the name before collapsing: a name
    with outer spaces is returned with one space at each end, and a name
    of 27 code units that normalizes to three is rejected. The normal form
    of the specification differs on both inputs. *)
Theorem validateCreatorName_not_trimmed :
  validateCreatorName (Some (lit "  Bob   Smith "))
  = Returned (Some (lit " Bob Smith "))
  /\ normalizeDisplayName (Some (lit "  Bob   Smith "))
     = Returned (Some (lit "Bob Smith"))
  /\ validateCreatorName (Some (lit "A                         B"))
     = Thrown (InvalidCreatorNameError (lit "A                         B"))
  /\ normalizeDisplayName (Some (lit "A                         B"))
     = Returned (Some (lit "A B")).
Proof. repeat split; vm_compute; reflexivity. Qed.

Lemma replaceRuns_length (classes : list (N -> bool)) (c : N)
  (prev : option nat) (s : jsstring) :
  List.length (replaceRuns_from classes [c] prev s) <= List.length s.
Proof.
  revert prev. induction s as [|x s IH]; intros prev; simpl; [lia|].
  destruct (classify classes x) as [i|].
  - destruct (same_class prev (Some i)); simpl;
      specialize (IH (Some i)); lia.
  - simpl. specialize (IH None). lia.
Qed.

(** What [validateCreatorName] does guarantee: null for a null or blank
    name, the error exactly for a non-blank name of more than 25 code
    units, and otherwise a name of at most 25 code units. *)
Lemma validateCreatorName_bound (name : option jsstring) :
  match validateCreatorName name with
  | Returned None => isBlank name = true
  | Returned (Some valid) =>
      isBlank name = false /\ List.length valid <= 25
  | Thrown e =>
      exists n, name = Some n /\ e = InvalidCreatorNameError n
                /\ isBlank name = false /\ 25 < List.length n
  end.
Proof.
  unfold validateCreatorName. destruct name as [n|]; [|reflexivity].
  destruct (isBlank (Some n)) eqn:Hb; [reflexivity|].
  destruct (Nat.ltb 25 (List.length n)) eqn:Hl.
  - apply Nat.ltb_lt in Hl. now exists n.
  - apply Nat.ltb_ge in Hl. split; [reflexivity|].
    pose proof (replaceRuns_length [isWhiteSpace] 32%N None n) as Hle.
    unfold replaceRuns. change (lit " ") with [32%N]. lia.
Qed.

(** C8. [getCreatorNameSlug] gives each whitespace run and each hyphen run
    a hyphen of its own, so that a run mixing the two becomes several
    hyphens; and the second apostrophe literal of the source is not the
    typographic apostrophe U+2019, which stays in the slug. The slug of the
    specification has one hyphen and no apostrophe on these inputs. *)
Theorem getCreatorNameSlug_mixed_run :
  getCreatorNameSlug (Some (lit "a - b")) = Some (lit "a---b")
  /\ slugify (Some (lit "a - b")) = Some (lit "a-b")
  /\ getCreatorNameSlug (Some ([79; 8217] ++ lit "Brien"))%N
     = Some ([111; 8217] ++ lit "brien")%N
  /\ slugify (Some ([79; 8217] ++ lit "Brien"))%N = Some (lit "obrien")
  /\ getCreatorNameSlug (Some ([79; 8217] ++ lit "Brien - Town"))%N
     = Some ([111; 8217] ++ lit "brien---town")%N
  /\ slugify (Some ([79; 8217] ++ lit "Brien - Town"))%N
     = Some (lit "obrien-town").
Proof. repeat split; vm_compute; reflexivity. Qed.

(** The parts of C8 that hold: null for a null or blank name, and the
    example of the specification. *)
Lemma getCreatorNameSlug_examples :
  getCreatorNameSlug None = None
  /\ getCreatorNameSlug (Some []) = None
  /\ getCreatorNameSlug (Some (lit "   ")) = None
  /\ getCreatorNameSlug (Some (lit "O'Brien  Town"))
     = Some (lit "obrien-town")
  /\ slugify (Some (lit "O'Brien  Town")) = Some (lit "obrien-town").
Proof. repeat split; vm_compute; reflexivity. Qed.

Lemma getCreatorNameSlug_blank (name : option jsstring) :
  isBlank name = true -> getCreatorNameSlug name = None.
Proof.
  intros H. unfold getCreatorNameSlug. destruct name; [|reflexivity].
  now rewrite H.
Qed.

(** ** The request monad *)

Lemma run_eta {World A : Type} (r : Run World A) :
  {| outcome := outcome r; final := final r; trace := trace r |} = r.
Proof. now destruct r. Qed.

Lemma writes_app (t1 t2 : list Event) :
  writes (t1 ++ t2) = writes t1 ++ writes t2.
Proof. apply filter_app. Qed.

Section Resolver.

Variable World : Type.
Variable services : Services World.

#[local] Abbreviation unsafe := (authenticateCreatorForModUnsafe services).
#[local] Abbreviation forMod := (authenticateCreatorForMod services).

(** The provider switch calls the profile service at most, never the
    store. *)
Lemma resolveProvider_reads_only (a : ModCreatorAuthorization) (w : World) :
  writes (trace (resolveProvider services a w)) = [].
Proof.
  unfold resolveProvider.
  destruct (authCreatorIdProvider a); try reflexivity.
  - destruct (isBlank (minecraftAccessToken a)); [reflexivity|].
    unfold tryCatch, bind, minecraftAuthVerifyOfficialAccount.
    destruct (verifyOfficialAccount services _ w) as [[p|e] w1];
      [reflexivity|].
    cbn [outcome final trace]. now destruct e.
  - destruct (isBlank (authMinecraftPlayerUuid a)); [reflexivity|].
    destruct (normalizeUuid _) as [u|e]; [reflexivity|].
    destruct e as [| | | | | | | | |m| | |]; try reflexivity.
    now destruct m.
Qed.

(** How a run of [authenticateCreatorForModUnsafe] that reaches the match
    query continues. *)
Lemma unsafe_run (a : ModCreatorAuthorization) (w : World)
  (context : CreatorContext) (creators : list Creator) (w' : World) :
  QueryReturns services a w context creators w' ->
  unsafe a w =
  let r := disambiguate services context creators w' in
  {| outcome := outcome r; final := final r;
     trace := trace (resolveProvider services a w)
              ++ FindManyCalled (searchWhere context) (Returned creators)
                 :: trace r |}.
Proof.
  intros (effective & Hout & Hvalid & -> & Hfind).
  unfold authenticateCreatorForModUnsafe, bind at 1.
  rewrite Hout. unfold ensureValidCreatorId. rewrite Hvalid.
  cbn [negb liftOutcome]. unfold bind, ret, prismaFindMany.
  cbn [outcome final trace]. rewrite Hfind.
  cbn [outcome final trace app]. reflexivity.
Qed.

(** The wrapper adds nothing to an attempt that does not end in a
    uniqueness violation. *)
Lemma forMod_single_attempt (a : ModCreatorAuthorization) (w : World) :
  (forall e, outcome (unsafe a w) = Thrown e ->
             isUniqueConstraintViolation e = false) ->
  forMod a w = unsafe a w.
Proof.
  intros H. unfold authenticateCreatorForMod, tryCatch.
  destruct (outcome (unsafe a w)) as [c|e] eqn:Hout; [reflexivity|].
  rewrite (H e eq_refl). unfold throw. cbn [outcome final trace].
  rewrite app_nil_r, <- Hout. apply run_eta.
Qed.

End Resolver.

(** C2. [authenticateCreatorForMod] runs the resolution procedure once
    and returns its run as it is, unless that run threw the store's
    uniqueness violation (P2002): then, and only then, the whole procedure
    runs once more from the world the first run left, and whatever this
    second run returns or throws, a second uniqueness violation included,
    is the result. *)
Theorem authenticateCreatorForMod_retries_once :
  forall (World : Type) (services : Services World)
         (a : ModCreatorAuthorization) (w : World),
    authenticateCreatorForMod services a w =
    let first := authenticateCreatorForModUnsafe services a w in
    match outcome first with
    | Returned _ => first
    | Thrown e =>
        if isUniqueConstraintViolation e
        then
          let second :=
            authenticateCreatorForModUnsafe services a (final first) in
          {| outcome := outcome second; final := final second;
             trace := trace first ++ trace second |}
        else first
    end.
Proof.
  intros World services a w. cbv zeta.
  destruct (outcome (authenticateCreatorForModUnsafe services a w))
    as [c|e] eqn:Hout.
  - apply forMod_single_attempt. intros e He. congruence.
  - destruct (isUniqueConstraintViolation e) eqn:Hu.
    + unfold authenticateCreatorForMod, tryCatch. now rewrite Hout, Hu.
    + apply forMod_single_attempt. intros e' He'. congruence.
Qed.

(** The race of section 5 on the reference store: another request inserts
    the account between the query and the insert of this one; the first
    attempt fails with P2002, the second finds the account of the other
    request and returns it, and the store holds that account once. *)
Lemma retry_resolves_race :
  let first :=
    authenticateCreatorForModUnsafe (Store.dbServices Store.noProfiles)
      Examples.claimAlice Examples.raced in
  let r := Examples.run Examples.claimAlice Examples.raced in
  outcome first = Thrown Store.uniqueViolation
  /\ option_map creatorId
       (match outcome r with Returned c => Some c | Thrown _ => None end)
     = Some Examples.idA
  /\ List.length (filter (Store.hasCreatorId Examples.idA)
                    (Store.rows (final r))) = 1
  /\ List.length (writes (trace r)) = 1.
Proof. repeat split; vm_compute; reflexivity. Qed.

(** ** The decision after the match query *)

Section Decisions.

Variable World : Type.
Variable services : Services World.

Lemma disambiguate_claimed (context : CreatorContext)
  (creators : list Creator) (w : World) (n : jsstring) :
  List.length creators = 2 ->
  effectiveCreatorName context = Some n -> n <> [] ->
  disambiguate services context creators w =
  {| outcome := Thrown (IncorrectCreatorIdError n); final := w;
     trace := [] |}.
Proof.
  intros Hlen Hname Hn. unfold disambiguate. rewrite Hlen, Hname.
  destruct n as [|c n]; [contradiction|]. reflexivity.
Qed.

Lemma disambiguate_violation (context : CreatorContext)
  (creators : list Creator) (w : World) :
  2 <= List.length creators ->
  2 < List.length creators \/ truthy (effectiveCreatorName context) = false ->
  exists message,
    disambiguate services context creators w =
    {| outcome := Thrown (AssertionError message); final := w;
       trace := [] |}.
Proof.
  intros Hge Hshape. unfold disambiguate.
  assert (Hlt : Nat.ltb 1 (List.length creators) = true)
    by (apply Nat.ltb_lt; lia).
  rewrite Hlt.
  destruct (Nat.eqb (List.length creators) 2) eqn:Heq.
  - apply Nat.eqb_eq in Heq. destruct Hshape as [Hgt|Hname]; [lia|].
    rewrite Hname. eexists. reflexivity.
  - eexists. reflexivity.
Qed.

Lemma updateCreator_rejects (creator : Creator) (context : CreatorContext)
  (w : World) :
  creatorIdMismatch context creator = true ->
  updateCreator services creator context w =
  {| outcome := Thrown (ownershipError creator); final := w; trace := [] |}.
Proof.
  intros H. unfold updateCreator, ownershipError. rewrite H.
  destruct (creatorName creator) as [[|c n]|]; reflexivity.
Qed.

Lemma updateCreator_unchanged (creator : Creator) (context : CreatorContext)
  (w : World) :
  modified context creator = false ->
  updateCreator services creator context w =
  {| outcome := Returned creator; final := w; trace := [] |}.
Proof.
  intros H. unfold updateCreator.
  assert (Hid : creatorIdMismatch context creator = false).
  { unfold modified in H. unfold creatorIdMismatch.
    repeat (apply orb_false_iff in H; destruct H as [H ?]).
    match goal with
    | Hid : negb (str_eqb _ _) = false |- _ => now rewrite Hid
    end. }
  now rewrite Hid, H.
Qed.

Lemma updateCreator_invalid (creator : Creator) (context : CreatorContext)
  (w : World) (e : Error) :
  creatorIdMismatch context creator = false ->
  modified context creator = true ->
  nameToWrite context creator = Thrown e ->
  updateCreator services creator context w =
  {| outcome := Thrown e; final := w; trace := [] |}.
Proof.
  intros Hid Hmod Hname. unfold updateCreator. rewrite Hid, Hmod.
  cbn [negb]. unfold nameToWrite in Hname.
  destruct (opt_eqb (creatorName creator) (effectiveCreatorName context));
    [discriminate|].
  rewrite Hname. reflexivity.
Qed.

Lemma bind_ret {A B : Type} (a : A) (k : A -> M World B) (w : World) :
  bind (ret a) k w = k a w.
Proof. unfold bind, ret. cbn [outcome final trace app]. apply run_eta. Qed.

Lemma bind_prismaUpdate {B : Type} (n : nat) (data : UpdateData)
  (k : Creator -> M World B) (w : World) :
  bind (prismaUpdate services n data) k w =
  let (out, w') := update services n data w in
  match out with
  | Returned c =>
      let r := k c w' in
      {| outcome := outcome r; final := final r;
         trace := UpdateCalled n data out :: trace r |}
  | Thrown e =>
      {| outcome := Thrown e; final := w';
         trace := [UpdateCalled n data out] |}
  end.
Proof.
  unfold bind, prismaUpdate.
  destruct (update services n data w) as [[c|e] w']; reflexivity.
Qed.

Lemma updateCreator_writes (creator : Creator) (context : CreatorContext)
  (w : World) (validName : option jsstring) :
  creatorIdMismatch context creator = false ->
  modified context creator = true ->
  nameToWrite context creator = Returned validName ->
  let data := updateOf context creator validName in
  let (out, w') := update services (id creator) data w in
  updateCreator services creator context w =
  {| outcome := out; final := w';
     trace :=
       UpdateCalled (id creator) data out
       :: match out with
          | Returned updated =>
              if negb (opt_eqb (creatorName updated) (creatorName creator))
              then [TranslationSpawned updated]
              else []
          | Thrown _ => []
          end |}.
Proof.
  intros Hid Hmod Hname. cbv zeta.
  unfold updateCreator. rewrite Hid, Hmod. cbn [negb].
  replace (if opt_eqb (creatorName creator) (effectiveCreatorName context)
           then ret (effectiveCreatorName context)
           else liftOutcome
                  (validateCreatorName (effectiveCreatorName context)))
    with (@ret World _ validName).
  2:{ unfold nameToWrite in Hname.
      destruct (opt_eqb (creatorName creator)
                  (effectiveCreatorName context)).
      - now injection Hname as <-.
      - now rewrite Hname. }
  rewrite bind_ret, bind_prismaUpdate.
  fold (updateOf context creator validName).
  destruct (update services (id creator)
              (updateOf context creator validName) w) as [[updated|e] w'];
    [|reflexivity].
  cbv zeta. unfold bind, ret, backgroundUpdateCreatorNameTranslation, emit.
  destruct (negb (opt_eqb (creatorName updated) (creatorName creator)));
    reflexivity.
Qed.

End Decisions.

(** ** Several matches *)

Section SeveralMatches.

Variable World : Type.
Variable services : Services World.

Lemma truthy_name (o : option jsstring) :
  truthy o = true <-> exists n, o = Some n /\ n <> [].
Proof.
  destruct o as [[|c n]|]; simpl; split; try discriminate.
  - intros (n & [= <-] & Hn). contradiction.
  - intros _. exists (c :: n). split; [reflexivity|discriminate].
  - reflexivity.
  - intros (n & Hn & _). discriminate.
Qed.

Lemma disambiguate_several (context : CreatorContext)
  (creators : list Creator) (w : World) :
  2 <= List.length creators ->
  exists e,
    disambiguate services context creators w =
    {| outcome := Thrown e; final := w; trace := [] |}
    /\ isUniqueConstraintViolation e = false
    /\ (List.length creators = 2 ->
        forall n, effectiveCreatorName context = Some n -> n <> [] ->
                  e = IncorrectCreatorIdError n)
    /\ (2 < List.length creators
        \/ truthy (effectiveCreatorName context) = false ->
        exists message, e = AssertionError message).
Proof.
  intros Hge.
  destruct (Nat.eqb (List.length creators) 2
            && truthy (effectiveCreatorName context)) eqn:Hcase.
  - apply andb_true_iff in Hcase. destruct Hcase as [Hlen Hname].
    apply Nat.eqb_eq in Hlen. apply truthy_name in Hname.
    destruct Hname as (n & Hname & Hn).
    exists (IncorrectCreatorIdError n).
    split; [now apply disambiguate_claimed|].
    split; [reflexivity|]. split.
    + intros _ n' Hn' _. congruence.
    + intros [Hgt|Hfalse]; [lia|].
      rewrite Hname in Hfalse. destruct n; [contradiction|discriminate].
  - assert (Hshape : 2 < List.length creators
                     \/ truthy (effectiveCreatorName context) = false).
    { apply andb_false_iff in Hcase. destruct Hcase as [Hlen|Hname].
      - apply Nat.eqb_neq in Hlen. left. lia.
      - now right. }
    destruct (disambiguate_violation services context creators w
                Hge Hshape) as [message Hrun].
    exists (AssertionError message).
    split; [exact Hrun|]. split; [reflexivity|]. split.
    + intros Hlen n Hname Hn. exfalso.
      destruct Hshape as [Hgt|Hfalse]; [lia|].
      rewrite Hname in Hfalse. destruct n; [contradiction|discriminate].
    + intros _. now exists message.
Qed.


End SeveralMatches.




(** ** One match: the ownership check *)

Lemma isSameMinecraftPlayer_spec (context : CreatorContext)
  (creator : Creator) :
  isSameMinecraftPlayer context creator = true <->
  exists u, u <> [] /\ effectiveMinecraftPlayerUuid context = Some u
            /\ minecraftPlayerUuid creator = Some u.
Proof.
  unfold isSameMinecraftPlayer. rewrite andb_true_iff, truthy_name, opt_eqb_eq.
  split.
  - intros [(u & Hu & Hne) Hsame]. exists u. now rewrite Hsame.
  - intros (u & Hne & Hu & Hsame). split; [now exists u | congruence].
Qed.

Lemma differs_modified (context : CreatorContext) (creator : Creator) :
  creatorId creator <> effectiveCreatorId context ->
  str_eqb (creatorId creator) (effectiveCreatorId context) = false
  /\ modified context creator = true.
Proof.
  intros Hne.
  assert (Hb : str_eqb (creatorId creator) (effectiveCreatorId context)
               = false).
  { destruct (str_eqb _ _) eqn:E; [|reflexivity].
    apply str_eqb_eq in E. contradiction. }
  split; [exact Hb|]. unfold modified. rewrite Hb. cbn [negb].
  now rewrite !orb_true_r.
Qed.

(** C1, as the code has it. In an update of the single matched account
    whose stored Creator ID differs from the effective one: without the
    reset flag and without a shared Minecraft player, the request is
    rejected and nothing is written, the error being
    [IncorrectCreatorIdError] with the stored name when that name is not
    empty (and the failed assertion otherwise); with the reset flag, the
    check passes, and if the name is unchanged or valid exactly one update
    goes to the store, with the effective Creator ID and the flag set to
    false, and the request ends as that update does; if the changed name
    is not valid the request throws the validation error and writes
    nothing. *)
Theorem ownership_check :
  forall (World : Type) (services : Services World)
         (a : ModCreatorAuthorization) (w : World)
         (context : CreatorContext) (creator : Creator) (w' : World),
    QueryReturns services a w context [creator] w' ->
    creatorId creator <> effectiveCreatorId context ->
    let r := authenticateCreatorForModUnsafe services a w in
    (allowCreatorIdReset creator = false ->
     isSameMinecraftPlayer context creator = false ->
     authenticateCreatorForMod services a w = r
     /\ writes (trace r) = [] /\ final r = w'
     /\ outcome r = Thrown (ownershipError creator)
     /\ (forall n, creatorName creator = Some n -> n <> [] ->
                   outcome r = Thrown (IncorrectCreatorIdError n)))
    /\ (allowCreatorIdReset creator = true ->
        match nameToWrite context creator with
        | Returned validName =>
            let data := updateOf context creator validName in
            let (out, w'') := update services (id creator) data w' in
            writes (trace r) = [UpdateCalled (id creator) data out]
            /\ setCreatorId data = Some (effectiveCreatorId context)
            /\ setAllowCreatorIdReset data = Some false
            /\ outcome r = out /\ final r = w''
            /\ (forall updated, out = Returned updated ->
                                authenticateCreatorForMod services a w = r)
        | Thrown e =>
            outcome r = Thrown e /\ writes (trace r) = [] /\ final r = w'
        end).
Proof.
  intros World services a w context creator w' Hquery Hne. cbv zeta.
  pose proof (unsafe_run Hquery) as Hrun. cbv zeta in Hrun.
  change (disambiguate services context [creator] w')
    with (updateCreator services creator context w') in Hrun.
  destruct (differs_modified context creator Hne) as [Hid Hmod].
  split.
  - intros Hreset Hsame.
    assert (Hmis : creatorIdMismatch context creator = true)
      by (unfold creatorIdMismatch; now rewrite Hid, Hreset, Hsame).
    rewrite (updateCreator_rejects services creator context w' Hmis) in Hrun.
    cbn [outcome final trace] in Hrun.
    assert (Hsingle : authenticateCreatorForMod services a w
                      = authenticateCreatorForModUnsafe services a w).
    { apply forMod_single_attempt. rewrite Hrun. cbn [outcome].
      intros e [= <-]. unfold ownershipError.
      now destruct (creatorName creator) as [[|c n]|]. }
    rewrite Hsingle, Hrun. cbn [outcome final trace].
    split; [reflexivity|]. split.
    { rewrite writes_app, resolveProvider_reads_only. reflexivity. }
    split; [reflexivity|]. split; [reflexivity|].
    intros n Hname Hn. unfold ownershipError. rewrite Hname.
    destruct n; [contradiction|reflexivity].
  - intros Hreset.
    assert (Hmis : creatorIdMismatch context creator = false)
      by (unfold creatorIdMismatch; now rewrite Hid, Hreset).
    destruct (nameToWrite context creator) as [validName|e] eqn:Hname.
    + pose proof (updateCreator_writes services creator context w'
                    Hmis Hmod Hname) as Hup.
      cbv zeta in Hup |- *.
      destruct (update services (id creator)
                  (updateOf context creator validName) w')
        as [out w''] eqn:Hstore.
      rewrite Hup in Hrun. cbn [outcome final trace] in Hrun.
      rewrite Hrun. cbn [outcome final trace].
      split.
      { rewrite writes_app, resolveProvider_reads_only. cbn.
        destruct out as [updated|e]; [|reflexivity].
        now destruct (negb (opt_eqb (creatorName updated)
                              (creatorName creator))). }
      repeat split.
      intros updated ->. rewrite <- Hrun.
      apply forMod_single_attempt. rewrite Hrun. cbn [outcome].
      discriminate.
    + rewrite (updateCreator_invalid services creator context w'
                 Hmis Hmod Hname) in Hrun.
      cbn [outcome final trace] in Hrun. rewrite Hrun.
      cbn [outcome final trace]. split; [reflexivity|]. split.
      { rewrite writes_app, resolveProvider_reads_only. reflexivity. }
      reflexivity.
Qed.

(** The holder of [idA] presents the name of [bob], whose account has no
    reset flag: rejected. *)
Lemma ownership_check_witness :
  outcome (Examples.run Examples.claimBob (Store.quiet [Examples.bob]))
  = Thrown (IncorrectCreatorIdError (lit "Bob"))
  /\ writes (trace (Examples.run Examples.claimBob
                      (Store.quiet [Examples.bob]))) = [].
Proof.
  assert (Hquery :
    QueryReturns (Store.dbServices Store.noProfiles) Examples.claimBob
      (Store.quiet [Examples.bob])
      (contextOf Examples.claimBob
         {| effId := Examples.idA; effName := Some (lit "Bob");
            effUuid := None |})
      [Examples.bob] (Store.quiet [Examples.bob])).
  { eexists. repeat split; vm_compute; reflexivity. }
  assert (Hne : creatorId Examples.bob <> Examples.idA)
    by (vm_compute; discriminate).
  destruct (ownership_check Hquery Hne) as [Hreject _].
  destruct (Hreject eq_refl eq_refl) as (Hsame & Hwrites & _ & _ & Hname).
  unfold Examples.run. rewrite Hsame. split; [|exact Hwrites].
  apply Hname; [reflexivity|discriminate].
Defined.

(** The claim as the specification words it fails for [legacy]: the
    stored Creator ID differs, the reset flag is set, the claim matches
    the account by its slug, and yet the request is rejected, because the
    claimed name differs from the stored one and has more than 25 code
    units; the store is not written and keeps the stored Creator ID and
    the flag. *)
Lemma reset_does_not_bypass_validation :
  let db := Store.quiet [Examples.legacy] in
  let r := Examples.run Examples.claimLegacy db in
  filter (Store.matchesWhere
            (searchWhere (contextOf Examples.claimLegacy
               {| effId := Examples.idA;
                  effName := authCreatorName Examples.claimLegacy;
                  effUuid := None |}))) (Store.rows db)
  = [Examples.legacy]
  /\ str_eqb (creatorId Examples.legacy) (authCreatorId Examples.claimLegacy)
     = false
  /\ allowCreatorIdReset Examples.legacy = true
  /\ outcome r
     = Thrown (InvalidCreatorNameError (lit "The Quick Brown Fox Jumps Ov"))
  /\ writes (trace r) = []
  /\ final r = db.
Proof. repeat split; vm_compute; reflexivity. Qed.

(** ** The two rejections *)

Section Rejections.

Variable World : Type.
Variable services : Services World.

Lemma rejected_for_two (a : ModCreatorAuthorization) (w : World)
  (context : CreatorContext) (creators : list Creator) (w' : World)
  (n : jsstring) :
  QueryReturns services a w context creators w' ->
  List.length creators = 2 ->
  effectiveCreatorName context = Some n -> n <> [] ->
  outcome (authenticateCreatorForMod services a w)
  = Thrown (IncorrectCreatorIdError n).
Proof.
  intros Hquery Hlen Hname Hn.
  pose proof (unsafe_run Hquery) as Hrun. cbv zeta in Hrun.
  rewrite (disambiguate_claimed services context creators w' Hlen Hname Hn)
    in Hrun.
  cbn [outcome final trace] in Hrun.
  rewrite forMod_single_attempt; rewrite Hrun; cbn [outcome];
    [reflexivity|].
  now intros e [= <-].
Qed.

Lemma rejected_for_mismatch (a : ModCreatorAuthorization) (w : World)
  (context : CreatorContext) (creator : Creator) (w' : World) :
  QueryReturns services a w context [creator] w' ->
  creatorIdMismatch context creator = true ->
  outcome (authenticateCreatorForMod services a w)
  = Thrown (ownershipError creator).
Proof.
  intros Hquery Hmis.
  pose proof (unsafe_run Hquery) as Hrun. cbv zeta in Hrun.
  change (disambiguate services context [creator] w')
    with (updateCreator services creator context w') in Hrun.
  rewrite (updateCreator_rejects services creator context w' Hmis) in Hrun.
  cbn [outcome final trace] in Hrun.
  rewrite forMod_single_attempt; rewrite Hrun; cbn [outcome];
    [reflexivity|].
  intros e [= <-]. unfold ownershipError.
  now destruct (creatorName creator) as [[|c n]|].
Qed.

End Rejections.

(** C9, as the code has it. The rejection for two matches and the
    rejection by the ownership check throw the same class,
    [IncorrectCreatorIdError], whose only field is a Creator Name: the
    claimed name in the first case, the stored name in the second. *)
Theorem rejections_share_one_error :
  forall (World : Type) (services : Services World)
         (a : ModCreatorAuthorization) (w : World)
         (context : CreatorContext) (creators : list Creator) (w' : World),
    QueryReturns services a w context creators w' ->
    (List.length creators = 2 ->
     forall n, effectiveCreatorName context = Some n -> n <> [] ->
               outcome (authenticateCreatorForMod services a w)
               = Thrown (IncorrectCreatorIdError n))
    /\ (forall c n, creators = [c] ->
                    creatorIdMismatch context c = true ->
                    creatorName c = Some n -> n <> [] ->
                    outcome (authenticateCreatorForMod services a w)
                    = Thrown (IncorrectCreatorIdError n)).
Proof.
  intros World services a w context creators w' Hquery. split.
  - intros Hlen n Hname Hn. now apply rejected_for_two with context creators w'.
  - intros c n -> Hmis Hname Hn.
    rewrite (rejected_for_mismatch Hquery Hmis).
    unfold ownershipError. rewrite Hname.
    destruct n; [contradiction|reflexivity].
Qed.

Lemma claimBob_two_matches :
  QueryReturns (Store.dbServices Store.noProfiles) Examples.claimBob
    (Store.quiet [Examples.alice; Examples.bob])
    (contextOf Examples.claimBob
       {| effId := Examples.idA; effName := Some (lit "Bob");
          effUuid := None |})
    [Examples.alice; Examples.bob]
    (Store.quiet [Examples.alice; Examples.bob]).
Proof. eexists. repeat split; vm_compute; reflexivity. Defined.

Lemma claimBob_one_match :
  QueryReturns (Store.dbServices Store.noProfiles) Examples.claimBob
    (Store.quiet [Examples.bob])
    (contextOf Examples.claimBob
       {| effId := Examples.idA; effName := Some (lit "Bob");
          effUuid := None |})
    [Examples.bob] (Store.quiet [Examples.bob]).
Proof. eexists. repeat split; vm_compute; reflexivity. Defined.

Lemma rejections_share_one_error_witness :
  outcome (Examples.run Examples.claimBob
             (Store.quiet [Examples.alice; Examples.bob]))
  = Thrown (IncorrectCreatorIdError (lit "Bob")).
Proof.
  apply (proj1 (rejections_share_one_error claimBob_two_matches));
    [reflexivity | reflexivity | discriminate].
Defined.

Lemma claimBob_two_rejected :
  outcome (authenticateCreatorForMod (Store.dbServices Store.noProfiles)
             Examples.claimBob (Store.quiet [Examples.alice; Examples.bob]))
  = Thrown (IncorrectCreatorIdError (lit "Bob")).
Proof. vm_compute. reflexivity. Qed.

Lemma claimBob_one_rejected :
  outcome (authenticateCreatorForMod (Store.dbServices Store.noProfiles)
             Examples.claimBob (Store.quiet [Examples.bob]))
  = Thrown (IncorrectCreatorIdError (lit "Bob")).
Proof. vm_compute. reflexivity. Qed.

Lemma claimBob_mismatch :
  creatorIdMismatch
    (contextOf Examples.claimBob
       {| effId := Examples.idA; effName := Some (lit "Bob");
          effUuid := None |}) Examples.bob = true.
Proof. vm_compute. reflexivity. Qed.

(** The same claim is rejected with the same error value when the name
    belongs to a second account (two matches) and when the only account
    found has another Creator ID (ownership check): no test on the error
    separates the two causes. *)
Lemma rejections_indistinguishable :
  outcome (Examples.run Examples.claimBob
             (Store.quiet [Examples.alice; Examples.bob]))
  = outcome (Examples.run Examples.claimBob (Store.quiet [Examples.bob]))
  /\ ~ Distinguishable.
Proof.
  split; [vm_compute; reflexivity|].
  intros [tell H].
  destruct (H _ _ _ _ _ _ claimBob_two_matches claimBob_two_rejected)
    as [Htwo _].
  destruct (H _ _ _ _ _ _ claimBob_one_match claimBob_one_rejected)
    as [_ Hone].
  specialize (Htwo eq_refl eq_refl).
  specialize (Hone Examples.bob eq_refl claimBob_mismatch).
  congruence.
Qed.

(** ** One match: the update *)

Lemma modified_false_iff (context : CreatorContext) (creator : Creator) :
  modified context creator = false <->
  creatorName creator = effectiveCreatorName context
  /\ creatorNameSlug creator = ctxCreatorNameSlug context
  /\ hd_error (hwids creator) = Some (ctxHwid context)
  /\ hd_error (ips creator) = Some (ctxIp context)
  /\ creatorId creator = effectiveCreatorId context
  /\ minecraftPlayerUuid creator = effectiveMinecraftPlayerUuid context
  /\ creatorIdProvider creator = ctxCreatorIdProvider context.
Proof.
  unfold modified.
  rewrite !orb_false_iff, !negb_false_iff, !opt_eqb_eq, str_eqb_eq,
    provider_eqb_eq.
  tauto.
Qed.

Section Update.

Variable World : Type.
Variable services : Services World.

Lemma resolveProvider_plain (a : ModCreatorAuthorization) (w : World) :
  authCreatorIdProvider a = Paradox
  \/ authCreatorIdProvider a = LocalProvider ->
  resolveProvider services a w =
  {| outcome := Returned {| effId := authCreatorId a;
                            effName := authCreatorName a;
                            effUuid := None |};
     final := w; trace := [] |}.
Proof. unfold resolveProvider. now intros [-> | ->]. Qed.

Lemma unchanged_account_returned (a : ModCreatorAuthorization) (w : World)
  (context : CreatorContext) (creator : Creator) (w' : World) :
  QueryReturns services a w context [creator] w' ->
  modified context creator = false ->
  authenticateCreatorForMod services a w
  = authenticateCreatorForModUnsafe services a w
  /\ outcome (authenticateCreatorForModUnsafe services a w) = Returned creator
  /\ writes (trace (authenticateCreatorForModUnsafe services a w)) = []
  /\ final (authenticateCreatorForModUnsafe services a w) = w'.
Proof.
  intros Hquery Hmod.
  pose proof (unsafe_run Hquery) as Hrun. cbv zeta in Hrun.
  change (disambiguate services context [creator] w')
    with (updateCreator services creator context w') in Hrun.
  rewrite (updateCreator_unchanged services creator context w' Hmod) in Hrun.
  cbn [outcome final trace] in Hrun.
  split.
  { apply forMod_single_attempt. rewrite Hrun. cbn [outcome]. discriminate. }
  rewrite Hrun. cbn [outcome final trace].
  split; [reflexivity|]. split; [|reflexivity].
  rewrite writes_app, resolveProvider_reads_only. reflexivity.
Qed.

End Update.

(** C10. Under the provider [paradox] or [local], a run of the resolution
    procedure that finds, as its single match, an account carrying its own
    Creator ID and a linked Minecraft player, and that succeeds, is the
    whole call (no retry) and has sent exactly one update to the store,
    whose data set [minecraftPlayerUuid] to null and [creatorIdProvider]
    to the claimed provider; the account returned is what the store
    returned for that update. *)
Theorem linked_player_is_unlinked :
  forall (World : Type) (services : Services World)
         (a : ModCreatorAuthorization) (w : World)
         (context : CreatorContext) (creator : Creator) (w' : World)
         (updated : Creator),
    authCreatorIdProvider a = Paradox
    \/ authCreatorIdProvider a = LocalProvider ->
    QueryReturns services a w context [creator] w' ->
    creatorId creator = authCreatorId a ->
    minecraftPlayerUuid creator <> None ->
    outcome (authenticateCreatorForModUnsafe services a w)
    = Returned updated ->
    let r := authenticateCreatorForMod services a w in
    r = authenticateCreatorForModUnsafe services a w
    /\ exists validName,
         let data := updateOf context creator validName in
         setMinecraftPlayerUuid data = Some None
         /\ setCreatorIdProvider data = Some (authCreatorIdProvider a)
         /\ update services (id creator) data w' = (Returned updated, final r)
         /\ writes (trace r)
            = [UpdateCalled (id creator) data (Returned updated)].
Proof.
  intros World services a w context creator w' updated Hprov Hquery Hid
    Hlinked Hout. cbv zeta.
  assert (Hsingle : authenticateCreatorForMod services a w
                    = authenticateCreatorForModUnsafe services a w).
  { apply forMod_single_attempt. rewrite Hout. discriminate. }
  split; [exact Hsingle|]. rewrite Hsingle.
  pose proof (unsafe_run Hquery) as Hrun. cbv zeta in Hrun.
  change (disambiguate services context [creator] w')
    with (updateCreator services creator context w') in Hrun.
  destruct Hquery as (effective & Hres & _ & Hctx & _).
  rewrite (resolveProvider_plain services a w Hprov) in Hres, Hrun.
  cbn [outcome trace app] in Hres, Hrun. injection Hres as <-.
  assert (Hmis : creatorIdMismatch context creator = false).
  { unfold creatorIdMismatch. subst context.
    cbn [contextOf effectiveCreatorId effId]. now rewrite Hid, str_eqb_refl. }
  assert (Hmod : modified context creator = true).
  { destruct (modified context creator) eqn:E; [reflexivity|].
    apply modified_false_iff in E. destruct E as (_ & _ & _ & _ & _ & E & _).
    subst context. cbn in E. contradiction. }
  destruct (nameToWrite context creator) as [validName|e] eqn:Hname.
  - pose proof (updateCreator_writes services creator context w'
                  Hmis Hmod Hname) as Hup.
    cbv zeta in Hup.
    destruct (update services (id creator)
                (updateOf context creator validName) w')
      as [out w''] eqn:Hstore.
    rewrite Hup in Hrun. cbn [outcome final trace] in Hrun.
    rewrite Hrun in Hout |- *. cbn [outcome final trace] in *.
    subst out. exists validName. cbv zeta.
    split; [subst context; reflexivity|].
    split; [subst context; reflexivity|].
    split; [exact Hstore|].
    unfold writes. cbn [filter isWrite].
    now destruct (negb (opt_eqb (creatorName updated)
                          (creatorName creator))).
  - exfalso.
    rewrite (updateCreator_invalid services creator context w'
               Hmis Hmod Hname) in Hrun.
    rewrite Hrun in Hout. discriminate.
Qed.

(** [carol], linked to a Minecraft player, signs in through Paradox with
    her own Creator ID: the stored link is gone. *)
Lemma linked_player_is_unlinked_witness :
  exists updated,
    outcome (Examples.run Examples.claimCarol (Store.quiet [Examples.carol]))
    = Returned updated
    /\ minecraftPlayerUuid Examples.carol = Some Examples.carolUuid
    /\ minecraftPlayerUuid updated = None
    /\ creatorIdProvider updated = Paradox
    /\ Store.rows (final (Examples.run Examples.claimCarol
                            (Store.quiet [Examples.carol]))) = [updated].
Proof.
  assert (Hquery :
    QueryReturns (Store.dbServices Store.noProfiles) Examples.claimCarol
      (Store.quiet [Examples.carol])
      (contextOf Examples.claimCarol
         {| effId := Examples.idA; effName := Some (lit "Carol");
            effUuid := None |})
      [Examples.carol] (Store.quiet [Examples.carol])).
  { eexists. repeat split; vm_compute; reflexivity. }
  set (updated := Store.applyUpdate
         (updateOf (contextOf Examples.claimCarol
                      {| effId := Examples.idA; effName := Some (lit "Carol");
                         effUuid := None |})
            Examples.carol (Some (lit "Carol"))) Examples.carol).
  assert (Hout :
    outcome (authenticateCreatorForModUnsafe
               (Store.dbServices Store.noProfiles) Examples.claimCarol
               (Store.quiet [Examples.carol])) = Returned updated)
    by (vm_compute; reflexivity).
  assert (Hlinked : minecraftPlayerUuid Examples.carol <> None)
    by discriminate.
  assert (Hprov : authCreatorIdProvider Examples.claimCarol = Paradox
                  \/ authCreatorIdProvider Examples.claimCarol
                     = LocalProvider) by (left; reflexivity).
  destruct (linked_player_is_unlinked Hprov Hquery eq_refl Hlinked Hout)
    as (Hsame & validName & _ & _ & Hstore & _).
  exists updated. unfold Examples.run. rewrite Hsame.
  split; [exact Hout|]. repeat split; vm_compute; reflexivity.
Defined.

(** ** Histories *)

Lemma seen_In (v : jsstring) (seen : list jsstring) :
  existsb (str_eqb v) seen = true <-> In v seen.
Proof.
  rewrite existsb_exists. split.
  - intros (x & Hin & Heq). apply str_eqb_eq in Heq. now subst.
  - intros Hin. exists v. split; [exact Hin | apply str_eqb_refl].
Qed.

Lemma uniq_In (seen values : list jsstring) (x : jsstring) :
  In x (uniq seen values) -> In x values /\ ~ In x seen.
Proof.
  revert seen. induction values as [|v rest IH]; intros seen; simpl;
    [contradiction|].
  destruct (existsb (str_eqb v) seen) eqn:E.
  - intros H. destruct (IH _ H). auto.
  - intros [<- | H].
    + split; [now left|]. rewrite <- seen_In. congruence.
    + destruct (IH _ H) as [Hin Hnot]. split; [now right|].
      intros Hs. apply Hnot. now right.
Qed.

Lemma uniq_NoDup (seen values : list jsstring) : NoDup (uniq seen values).
Proof.
  revert seen. induction values as [|v rest IH]; intros seen; simpl;
    [constructor|].
  destruct (existsb (str_eqb v) seen); [apply IH|].
  constructor; [|apply IH].
  intros H. apply uniq_In in H. destruct H as [_ Hnot]. apply Hnot. now left.
Qed.

Lemma firstn_In (n : nat) (l : list jsstring) (x : jsstring) :
  In x (firstn n l) -> In x l.
Proof.
  revert l. induction n as [|n IH]; intros [|y l]; simpl; try contradiction.
  intros [<- | H]; [now left | right; now apply IH].
Qed.

Lemma firstn_NoDup (n : nat) (l : list jsstring) :
  NoDup l -> NoDup (firstn n l).
Proof.
  revert l. induction n as [|n IH]; intros [|y l] H; simpl;
    try constructor.
  - inversion H; subst. intros Hin. apply firstn_In in Hin. contradiction.
  - inversion H; subst. now apply IH.
Qed.

Lemma uniq_filter (seen values : list jsstring) :
  NoDup values ->
  uniq seen values
  = filter (fun x => negb (existsb (str_eqb x) seen)) values.
Proof.
  intros Hnd. revert seen.
  induction Hnd as [|v rest Hnot Hnd IH]; intros seen; simpl;
    [reflexivity|].
  destruct (existsb (str_eqb v) seen) eqn:E; simpl; [apply IH|].
  f_equal. rewrite IH. apply filter_ext_in. intros x Hx. simpl.
  destruct (str_eqb x v) eqn:Exv; [|reflexivity].
  apply str_eqb_eq in Exv. subst. contradiction.
Qed.

Lemma mergeHistory_shape (v : jsstring) (h : list jsstring) :
  List.length (mergeHistory v h) <= 3
  /\ NoDup (mergeHistory v h)
  /\ hd_error (mergeHistory v h) = Some v.
Proof.
  unfold mergeHistory. split; [apply firstn_le_length|]. split.
  - apply firstn_NoDup, uniq_NoDup.
  - reflexivity.
Qed.

Lemma mergeHistory_filter (v : jsstring) (h : list jsstring) :
  NoDup h ->
  mergeHistory v h
  = firstn 3 (v :: filter (fun x => negb (str_eqb x v)) h).
Proof.
  intros Hnd. unfold mergeHistory. cbn [uniq existsb].
  rewrite (uniq_filter [v] Hnd). do 2 f_equal.
  apply filter_ext. intros x. simpl. now rewrite orb_false_r.
Qed.

Lemma mergeHistory_mru3 (v : jsstring) (h : list jsstring) :
  NoDup h ->
  hd_error h <> Some v \/ List.length h <= 3 ->
  mergeHistory v h = mergeMru3 h v.
Proof.
  intros Hnd Hcase. rewrite (mergeHistory_filter v Hnd). unfold mergeMru3.
  destruct (opt_eqb (hd_error h) (Some v)) eqn:E; [|reflexivity].
  apply opt_eqb_eq in E. destruct Hcase as [Hne|Hlen]; [contradiction|].
  destruct h as [|x t]; [discriminate|]. injection E as ->.
  inversion Hnd as [|? ? Hnot Hnd']; subst.
  cbn [filter]. rewrite str_eqb_refl. cbn [negb].
  assert (Hid : filter (fun x => negb (str_eqb x v)) t = t).
  { rewrite <- (filter_ext_in (fun _ => true)).
    - clear. induction t as [|y t IH]; simpl; [reflexivity|]. now rewrite IH.
    - intros y Hy. destruct (str_eqb y v) eqn:Ey; [|reflexivity].
      apply str_eqb_eq in Ey. subst. contradiction. }
  rewrite Hid. apply firstn_all2. exact Hlen.
Qed.

Section HistoryWrites.

Variable World : Type.
Variable services : Services World.

Lemma simple_history (auth : SimpleCreatorAuthorization) (w : World)
  (creator : Creator) (w1 : World) :
  findUnique services (simpleCreatorId auth) w
  = (Returned (Some creator), w1) ->
  let asked := FindUniqueCalled (simpleCreatorId auth)
                 (Returned (Some creator)) in
  let r := authenticateCreatorSimple services auth w in
  if opt_eqb (hd_error (ips creator)) (Some (simpleIp auth))
  then r = {| outcome := Returned creator; final := w1; trace := [asked] |}
  else
    exists data,
      setIps data = Some (mergeHistory (simpleIp auth) (ips creator))
      /\ setHwids data = None
      /\ let (out, w2) := update services (id creator) data w1 in
         r = {| outcome := out; final := w2;
                trace := [asked; UpdateCalled (id creator) data out] |}.
Proof.
  intros Hfind. cbv zeta.
  unfold authenticateCreatorSimple, bind, prismaFindUnique. cbv beta.
  rewrite Hfind. cbn [outcome final trace].
  destruct (opt_eqb (hd_error (ips creator)) (Some (simpleIp auth)));
    cbn [negb].
  - reflexivity.
  - exists {| setCreatorName := None; setCreatorNameSlug := None;
              setAllowCreatorIdReset := None; setCreatorId := None;
              setCreatorIdProvider := None; setMinecraftPlayerUuid := None;
              setHwids := None;
              setIps := Some (mergeHistory (simpleIp auth)
                                (ips creator)) |}.
    split; [reflexivity|]. split; [reflexivity|].
    unfold prismaUpdate.
    destruct (update services (id creator) _ w1) as [out w2]. reflexivity.
Qed.

Lemma updateCreator_history (creator : Creator) (context : CreatorContext)
  (w : World) (n : nat) (data : UpdateData) (out : Outcome Creator) :
  In (UpdateCalled n data out)
    (trace (updateCreator services creator context w)) ->
  n = id creator
  /\ setHwids data = Some (mergeHistory (ctxHwid context) (hwids creator))
  /\ setIps data = Some (mergeHistory (ctxIp context) (ips creator)).
Proof.
  destruct (creatorIdMismatch context creator) eqn:Hmis.
  { rewrite (updateCreator_rejects services creator context w Hmis).
    contradiction. }
  destruct (modified context creator) eqn:Hmod.
  2:{ rewrite (updateCreator_unchanged services creator context w Hmod).
      contradiction. }
  destruct (nameToWrite context creator) as [validName|e] eqn:Hname.
  2:{ rewrite (updateCreator_invalid services creator context w
                 Hmis Hmod Hname). contradiction. }
  pose proof (updateCreator_writes services creator context w
                Hmis Hmod Hname) as Hup.
  cbv zeta in Hup.
  destruct (update services (id creator)
              (updateOf context creator validName) w) as [o w'].
  rewrite Hup. cbn [trace]. intros [Hev|Hin].
  - injection Hev as <- <- <-. repeat split.
  - exfalso. destruct o as [updated|e]; [|contradiction].
    destruct (negb _); [|contradiction].
    destruct Hin as [Hin|[]]. discriminate.
Qed.

End HistoryWrites.

(** C4, as the code has it. The merged history that the code persists,
    [mergeHistory v h], is the first three distinct values of [v :: h]: it
    has at most three entries, no duplicate, and [v] at its head, for
    every [h]. When [h] has no duplicate, and [v] is not its head or [h]
    has at most three entries, it is the [mergeMru3] of the
    specification. [authenticateCreatorSimple] writes nothing when the IP
    is the head of the stored history and otherwise updates [ips] alone,
    to the merged history; every update sent by [updateCreator] carries
    the merged histories of both the device and the IP. *)
Theorem history_merge :
  (forall v h,
      List.length (mergeHistory v h) <= 3
      /\ NoDup (mergeHistory v h)
      /\ hd_error (mergeHistory v h) = Some v)
  /\ (forall v h,
         NoDup h -> hd_error h <> Some v \/ List.length h <= 3 ->
         mergeHistory v h = mergeMru3 h v)
  /\ (forall (World : Type) (services : Services World)
             (auth : SimpleCreatorAuthorization) (w : World)
             (creator : Creator) (w1 : World),
         findUnique services (simpleCreatorId auth) w
         = (Returned (Some creator), w1) ->
         let asked := FindUniqueCalled (simpleCreatorId auth)
                        (Returned (Some creator)) in
         let r := authenticateCreatorSimple services auth w in
         if opt_eqb (hd_error (ips creator)) (Some (simpleIp auth))
         then r = {| outcome := Returned creator; final := w1;
                     trace := [asked] |}
         else
           exists data,
             setIps data = Some (mergeHistory (simpleIp auth) (ips creator))
             /\ setHwids data = None
             /\ let (out, w2) := update services (id creator) data w1 in
                r = {| outcome := out; final := w2;
                       trace := [asked; UpdateCalled (id creator) data out] |})
  /\ (forall (World : Type) (services : Services World)
             (creator : Creator) (context : CreatorContext) (w : World)
             (n : nat) (data : UpdateData) (out : Outcome Creator),
         In (UpdateCalled n data out)
           (trace (updateCreator services creator context w)) ->
         n = id creator
         /\ setHwids data
            = Some (mergeHistory (ctxHwid context) (hwids creator))
         /\ setIps data = Some (mergeHistory (ctxIp context) (ips creator))).
Proof.
  split; [exact mergeHistory_shape|].
  split; [exact mergeHistory_mru3|].
  split; [exact simple_history | exact updateCreator_history].
Qed.

(** A duplicate-free history of three entries and a new value. *)
Lemma history_merge_witness :
  mergeHistory (lit "d") [lit "a"; lit "b"; lit "c"]
  = mergeMru3 [lit "a"; lit "b"; lit "c"] (lit "d").
Proof.
  apply (proj1 (proj2 history_merge)).
  - repeat constructor; simpl; intuition discriminate.
  - right. simpl. lia.
Defined.

(** The claim as the specification words it fails in the update path:
    [alice] signs in from a new address with the device at the head of
    her device history, and the update that is written carries the device
    history as well. It also fails for a stored history with a duplicate,
    which the code removes and [mergeMru3] keeps. *)
Lemma unchanged_device_is_rewritten :
  let r := Examples.run Examples.claimAliceMoved
             (Store.quiet [Examples.alice]) in
  hd_error (hwids Examples.alice) = Some (authHwid Examples.claimAliceMoved)
  /\ map (fun e => match e with
                   | UpdateCalled _ data _ => setHwids data
                   | _ => None
                   end) (writes (trace r))
     = [Some [lit "hw-1"]]
  /\ mergeHistory (lit "b") [lit "a"; lit "a"] = [lit "b"; lit "a"]
  /\ mergeMru3 [lit "a"; lit "a"] (lit "b") = [lit "b"; lit "a"; lit "a"].
Proof. repeat split; vm_compute; reflexivity. Qed.

(** ** The reference store *)

Section ReferenceStore.

Import Store.

Variable profiles : jsstring -> Outcome MinecraftOfficialProfile.

Lemma resolveProvider_db (a : ModCreatorAuthorization) (db : Db) :
  final (resolveProvider (dbServices profiles) a db) = db
  /\ forall db',
       outcome (resolveProvider (dbServices profiles) a db')
       = outcome (resolveProvider (dbServices profiles) a db).
Proof.
  unfold resolveProvider.
  destruct (authCreatorIdProvider a); try (split; reflexivity).
  - destruct (isBlank (minecraftAccessToken a)); [split; reflexivity|].
    unfold tryCatch, bind, minecraftAuthVerifyOfficialAccount.
    cbn [dbServices verifyOfficialAccount outcome final trace ret].
    destruct (profiles _) as [p|e]; [split; reflexivity|].
    destruct e; split; reflexivity.
  - destruct (isBlank (authMinecraftPlayerUuid a)); [split; reflexivity|].
    destruct (normalizeUuid _) as [u|e]; [split; reflexivity|].
    destruct e as [| | | | | | | | |m| | |]; try (split; reflexivity).
    destruct m; split; reflexivity.
Qed.

Lemma freshId_above (table : list Creator) (r : Creator) :
  In r table -> hasId (freshId table) r = false.
Proof.
  intros Hin. unfold hasId, freshId. apply Nat.eqb_neq.
  assert (id r <= fold_right Nat.max 0 (map id table)); [|lia].
  induction table as [|x t IH]; [contradiction|].
  simpl. destruct Hin as [->|Hin]; [lia|]. specialize (IH Hin). lia.
Qed.

Lemma find_last (n : nat) (table : list Creator) (c : Creator) :
  (forall r, In r table -> hasId n r = false) -> hasId n c = true ->
  find (hasId n) (table ++ [c]) = Some c.
Proof.
  intros Hnone Hc. induction table as [|x t IH]; simpl.
  - now rewrite Hc.
  - rewrite (Hnone x (or_introl eq_refl)). apply IH.
    intros r Hr. apply Hnone. now right.
Qed.

Lemma replaceRow_last (table : list Creator) (c c' : Creator) :
  (forall r, In r table -> hasId (id c') r = false) ->
  hasId (id c') c = true ->
  replaceRow c' (table ++ [c]) = table ++ [c'].
Proof.
  intros Hnone Hc. induction table as [|x t IH]; simpl.
  - now rewrite Hc.
  - rewrite (Hnone x (or_introl eq_refl)). f_equal. apply IH.
    intros r Hr. apply Hnone. now right.
Qed.

Lemma matches_own_id (context : CreatorContext) (r : Creator) :
  hasCreatorId (effectiveCreatorId context) r = true ->
  matchesWhere (searchWhere context) r = true.
Proof.
  intros H. unfold searchWhere.
  destruct (Nat.ltb 1 (List.length (searchConditions context))).
  - unfold searchConditions. cbn [app matchesWhere existsb matchesCondition].
    unfold hasCreatorId in H. now rewrite H.
  - exact H.
Qed.

Lemma no_match_no_id (context : CreatorContext) (table : list Creator) :
  filter (matchesWhere (searchWhere context)) table = [] ->
  forall r, In r table -> hasCreatorId (effectiveCreatorId context) r = false.
Proof.
  intros Hnone r Hin.
  destruct (hasCreatorId (effectiveCreatorId context) r) eqn:E;
    [|reflexivity].
  assert (Hr : In r (filter (matchesWhere (searchWhere context)) table))
    by (apply filter_In; split; [exact Hin | now apply matches_own_id]).
  rewrite Hnone in Hr. contradiction.
Qed.

Lemma existsb_none {A : Type} (p : A -> bool) (l : list A) :
  (forall x, In x l -> p x = false) -> existsb p l = false.
Proof.
  intros H. induction l as [|x l IH]; [reflexivity|]. simpl.
  rewrite (H x (or_introl eq_refl)). apply IH. intros y Hy. apply H.
  now right.
Qed.

Lemma mergeHistory_single (v : jsstring) : mergeHistory v [v] = [v].
Proof.
  unfold mergeHistory. cbn [uniq existsb]. now rewrite str_eqb_refl.
Qed.

(** The insert of [createCreator] into a table without a match. *)
Lemma create_new (context : CreatorContext) (table : list Creator)
  (validName : option jsstring) :
  filter (matchesWhere (searchWhere context)) table = [] ->
  create (dbServices profiles)
    {| newCreatorId := effectiveCreatorId context;
       newCreatorIdProvider := ctxCreatorIdProvider context;
       newCreatorName := validName;
       newCreatorNameSlug := ctxCreatorNameSlug context;
       newMinecraftPlayerUuid := effectiveMinecraftPlayerUuid context;
       newHwids := [ctxHwid context];
       newIps := [ctxIp context] |} (quiet table)
  = (Returned (newAccount table context validName),
     quiet (table ++ [newAccount table context validName])).
Proof.
  intros Hnone.
  cbn [dbServices create quiet rows racing commit fold_left].
  unfold insertRow. cbn [newCreatorId].
  rewrite (existsb_none _ _ (no_match_no_id context table Hnone)).
  reflexivity.
Qed.

(** The update of [updateCreator] on the account that was just created,
    for the same context, rewrites the row with what it holds. *)
Lemma update_same (context : CreatorContext) (table : list Creator)
  (validName : option jsstring) :
  filter (matchesWhere (searchWhere context)) table = [] ->
  let c := newAccount table context validName in
  update (dbServices profiles) (id c) (updateOf context c validName)
    (quiet (table ++ [c]))
  = (Returned c, quiet (table ++ [c])).
Proof.
  intros Hnone c.
  assert (Hsame : applyUpdate (updateOf context c validName) c = c).
  { unfold applyUpdate, updateOf, c, newAccount. cbn -[mergeHistory].
    now rewrite !mergeHistory_single. }
  assert (Hfresh : forall r, In r table -> hasId (id c) r = false)
    by (intros r Hr; now apply freshId_above).
  assert (Hown : hasId (id c) c = true) by apply Nat.eqb_refl.
  cbn [dbServices update quiet rows racing]. unfold updateRow.
  rewrite (@find_last (id c) table c Hfresh Hown), Hsame.
  rewrite existsb_app. cbn [existsb]. rewrite Hown. cbn [negb andb orb].
  rewrite existsb_none.
  - cbn [orb]. rewrite (@replaceRow_last table c c Hfresh Hown). reflexivity.
  - intros r Hr. change (creatorId c) with (effectiveCreatorId context).
    rewrite (no_match_no_id context table Hnone r Hr). apply andb_false_r.
Qed.

End ReferenceStore.

(** ** Creation and the second run *)

Section Creation.

Variable World : Type.
Variable services : Services World.

Lemma createCreator_invalid (context : CreatorContext) (w : World)
  (e : Error) :
  validateCreatorName (effectiveCreatorName context) = Thrown e ->
  createCreator services context w
  = {| outcome := Thrown e; final := w; trace := [] |}
  /\ isUniqueConstraintViolation e = false.
Proof.
  intros Hname. unfold createCreator. rewrite Hname. split; [reflexivity|].
  pose proof (validateCreatorName_bound (effectiveCreatorName context)) as H.
  rewrite Hname in H. destruct H as (n & _ & -> & _). reflexivity.
Qed.

Lemma createCreator_writes (context : CreatorContext) (w : World)
  (validName : option jsstring) :
  validateCreatorName (effectiveCreatorName context) = Returned validName ->
  let data :=
    {| newCreatorId := effectiveCreatorId context;
       newCreatorIdProvider := ctxCreatorIdProvider context;
       newCreatorName := validName;
       newCreatorNameSlug := ctxCreatorNameSlug context;
       newMinecraftPlayerUuid := effectiveMinecraftPlayerUuid context;
       newHwids := [ctxHwid context];
       newIps := [ctxIp context] |} in
  let (out, w') := create services data w in
  createCreator services context w =
  {| outcome := out; final := w';
     trace := CreateCalled data out
              :: match out with
                 | Returned c => [TranslationSpawned c]
                 | Thrown _ => []
                 end |}.
Proof.
  intros Hname. cbv zeta. unfold createCreator. rewrite Hname.
  cbn [liftOutcome]. rewrite bind_ret.
  unfold bind, prismaCreate. cbv beta.
  destruct (create services _ w) as [[c|e] w']; reflexivity.
Qed.

End Creation.

(** C5. When the single matched account already holds every effective
    value of the claim (name, slug, head of the device history, head of
    the IP history, Creator ID, Minecraft player, provider),
    [authenticateCreatorForMod] returns that account, writes nothing and
    leaves the world as the query left it. And on the reference store,
    without concurrent requests, a call that found no match and created
    the account [c], run again with the same input on the store it left,
    returns [c] again and leaves the store as it was. *)
Theorem unchanged_claim_is_a_no_op :
  (forall (World : Type) (services : Services World)
          (a : ModCreatorAuthorization) (w : World)
          (context : CreatorContext) (creator : Creator) (w' : World),
      QueryReturns services a w context [creator] w' ->
      creatorName creator = effectiveCreatorName context ->
      creatorNameSlug creator = ctxCreatorNameSlug context ->
      hd_error (hwids creator) = Some (ctxHwid context) ->
      hd_error (ips creator) = Some (ctxIp context) ->
      creatorId creator = effectiveCreatorId context ->
      minecraftPlayerUuid creator = effectiveMinecraftPlayerUuid context ->
      creatorIdProvider creator = ctxCreatorIdProvider context ->
      let r := authenticateCreatorForMod services a w in
      outcome r = Returned creator /\ writes (trace r) = [] /\ final r = w')
  /\ (forall (profiles : jsstring -> Outcome MinecraftOfficialProfile)
             (table : list Creator) (a : ModCreatorAuthorization)
             (context : CreatorContext) (w' : Store.Db) (c : Creator),
         let services := Store.dbServices profiles in
         let first := authenticateCreatorForMod services a
                        (Store.quiet table) in
         QueryReturns services a (Store.quiet table) context [] w' ->
         outcome first = Returned c ->
         let second := authenticateCreatorForMod services a (final first) in
         Store.rows (final first) = table ++ [c]
         /\ outcome second = Returned c /\ final second = final first).
Proof.
  split.
  - intros World services a w context creator w' Hquery H1 H2 H3 H4 H5 H6 H7.
    cbv zeta.
    assert (Hmod : modified context creator = false)
      by (apply modified_false_iff; tauto).
    destruct (unchanged_account_returned Hquery Hmod)
      as (-> & Hout & Hwrites & Hfinal).
    tauto.
  - intros profiles table a context w' c services first Hquery Hout second.
    pose proof (unsafe_run Hquery) as Hrun. cbv zeta in Hrun.
    change (disambiguate services context [] w')
      with (createCreator services context w') in Hrun.
    destruct Hquery as (effective & Hres & Hvalid & Hctx & Hfind).
    destruct (resolveProvider_db profiles a (Store.quiet table))
      as [Hfinal Hany].
    fold services in Hfinal, Hany. rewrite Hfinal in Hfind.
    cbn [services Store.dbServices findMany Store.quiet Store.rows]
      in Hfind.
    injection Hfind as Hnone <-.
    destruct (validateCreatorName (effectiveCreatorName context))
      as [validName|e] eqn:Hname.
    2:{ exfalso.
        destruct (createCreator_invalid services context
                    (Store.quiet table) Hname) as [Hcreate He].
        fold (Store.quiet table) in Hrun. rewrite Hcreate in Hrun.
        cbn [outcome final trace] in Hrun.
        unfold first in Hout.
        rewrite forMod_single_attempt in Hout; rewrite Hrun in *;
          cbn [outcome] in *; [discriminate|].
        now intros e' [= <-]. }
    pose proof (createCreator_writes services context (Store.quiet table)
                  Hname) as Hcreate.
    cbv zeta in Hcreate. unfold services in Hcreate at 1.
    rewrite (create_new profiles context table validName Hnone) in Hcreate.
    fold services in Hcreate. fold (Store.quiet table) in Hrun.
    rewrite Hcreate in Hrun. cbn [outcome final trace] in Hrun.
    set (c1 := newAccount table context validName) in *.
    assert (Hfirst : first = authenticateCreatorForModUnsafe services a
                               (Store.quiet table)).
    { apply forMod_single_attempt. rewrite Hrun. discriminate. }
    rewrite Hfirst, Hrun in Hout. cbn [outcome] in Hout.
    injection Hout as <-.
    assert (Hleft : final first = Store.quiet (table ++ [c1]))
      by (rewrite Hfirst, Hrun; reflexivity).
    subst second. rewrite Hleft. split; [reflexivity|].
    assert (Hquery2 :
      QueryReturns services a (Store.quiet (table ++ [c1])) context [c1]
        (Store.quiet (table ++ [c1]))).
    { exists effective.
      destruct (resolveProvider_db profiles a (Store.quiet (table ++ [c1])))
        as [Hfinal2 _].
      fold services in Hfinal2.
      split; [now rewrite Hany|]. split; [exact Hvalid|].
      split; [exact Hctx|]. rewrite Hfinal2.
      cbn [services Store.dbServices findMany Store.quiet Store.rows].
      rewrite filter_app, Hnone. cbn [filter app].
      rewrite matches_own_id; [reflexivity|].
      apply str_eqb_refl. }
    destruct (modified context c1) eqn:Hmod.
    + assert (Hmis : creatorIdMismatch context c1 = false).
      { unfold creatorIdMismatch.
        change (creatorId c1) with (effectiveCreatorId context).
        now rewrite str_eqb_refl. }
      assert (Hwrite : nameToWrite context c1 = Returned validName).
      { unfold nameToWrite. change (creatorName c1) with validName.
        destruct (opt_eqb validName (effectiveCreatorName context)) eqn:E;
          [|exact Hname].
        apply opt_eqb_eq in E. now rewrite E. }
      pose proof (updateCreator_writes services c1 context
                    (Store.quiet (table ++ [c1])) Hmis Hmod Hwrite) as Hup.
      cbv zeta in Hup. unfold services in Hup at 1.
      pose proof (update_same profiles context table validName Hnone)
        as Hstore.
      cbv zeta in Hstore. fold c1 in Hstore. rewrite Hstore in Hup.
      fold services in Hup.
      pose proof (unsafe_run Hquery2) as Hrun2. cbv zeta in Hrun2.
      change (disambiguate services context [c1]
                (Store.quiet (table ++ [c1])))
        with (updateCreator services c1 context
                (Store.quiet (table ++ [c1]))) in Hrun2.
      rewrite Hup in Hrun2. cbn [outcome final trace] in Hrun2.
      rewrite forMod_single_attempt; rewrite Hrun2; cbn [outcome final];
        [split; reflexivity | discriminate].
    + destruct (unchanged_account_returned Hquery2 Hmod)
        as (-> & Hout2 & _ & Hfinal2).
      now split.
Qed.

(** [alice] signs in with the values her account holds; and [claimDave],
    which creates an account on the empty store, is run a second time. *)
Lemma unchanged_claim_is_a_no_op_witness :
  (outcome (Examples.run Examples.claimAlice (Store.quiet [Examples.alice]))
   = Returned Examples.alice
   /\ writes (trace (Examples.run Examples.claimAlice
                       (Store.quiet [Examples.alice]))) = [])
  /\ (outcome (Examples.run Examples.claimDave
                 (final (Examples.run Examples.claimDave (Store.quiet []))))
      = outcome (Examples.run Examples.claimDave (Store.quiet []))
      /\ final (Examples.run Examples.claimDave
                  (final (Examples.run Examples.claimDave (Store.quiet []))))
         = final (Examples.run Examples.claimDave (Store.quiet []))).
Proof.
  split.
  - assert (Hquery :
      QueryReturns (Store.dbServices Store.noProfiles) Examples.claimAlice
        (Store.quiet [Examples.alice])
        (contextOf Examples.claimAlice
           {| effId := Examples.idA; effName := Some (lit "Alice");
              effUuid := None |})
        [Examples.alice] (Store.quiet [Examples.alice])).
    { eexists. repeat split; vm_compute; reflexivity. }
    destruct (proj1 unchanged_claim_is_a_no_op _ _ _ _ _ _ _ Hquery
                eq_refl eq_refl eq_refl eq_refl eq_refl eq_refl eq_refl)
      as (Hout & Hwrites & _).
    split; assumption.
  - assert (Hquery :
      QueryReturns (Store.dbServices Store.noProfiles) Examples.claimDave
        (Store.quiet [])
        (contextOf Examples.claimDave
           {| effId := Examples.idA; effName := Some (lit "Dave  Smith");
              effUuid := None |})
        [] (Store.quiet [])).
    { eexists. repeat split; vm_compute; reflexivity. }
    assert (Hout :
      outcome (authenticateCreatorForMod (Store.dbServices Store.noProfiles)
                 Examples.claimDave (Store.quiet []))
      = Returned
          (newAccount []
             (contextOf Examples.claimDave
                {| effId := Examples.idA;
                   effName := Some (lit "Dave  Smith");
                   effUuid := None |})
             (Some (lit "Dave Smith"))))
      by (vm_compute; reflexivity).
    destruct (proj2 unchanged_claim_is_a_no_op _ _ _ _ _ _ Hquery Hout)
      as (_ & Hsecond & Hfinal).
    unfold Examples.run. rewrite Hsecond, Hout. split; [reflexivity|].
    exact Hfinal.
Defined.

(** * Further properties *)

(** ** The Creator ID format *)

Lemma hexValue_four (c : N) :
  match Uuid.hexValue c with
  | Some v => N.eqb v 4
  | None => false
  end = true <-> CreatorIdFormat.isFour c = true.
Proof.
  unfold Uuid.hexValue, CreatorIdFormat.isFour, Uuid.isDigit.
  destruct (in_range 48 57 c) eqn:E1;
    [|destruct (in_range 97 102 c) eqn:E2;
      [|destruct (in_range 65 70 c) eqn:E3]];
    unfold in_range in *; bools; split; intros; try lia; try discriminate.
Qed.

Lemma four_version (c : N) :
  CreatorIdFormat.isFour c = true -> Uuid.isVersionDigit c = true.
Proof.
  unfold CreatorIdFormat.isFour. intros H. classes. bools. lia.
Qed.

Lemma four_not_zero (c : N) :
  CreatorIdFormat.isFour c = true -> Uuid.isZero c = true -> False.
Proof.
  unfold CreatorIdFormat.isFour. intros H Hz. classes. bools. lia.
Qed.

Lemma four_not_f (c : N) :
  CreatorIdFormat.isFour c = true -> Uuid.isF c = true -> False.
Proof.
  unfold CreatorIdFormat.isFour. intros H Hz. classes. bools. lia.
Qed.

Ltac thirty_six s Hlen :=
  do 36 (destruct s as [|? s]; [discriminate Hlen|]);
  destruct s; [|discriminate Hlen].

Ltac class_facts H :=
  cbn -[Uuid.isHex Uuid.isVersionDigit Uuid.isVariantDigit Uuid.isZero
        Uuid.isF isHyphen CreatorIdFormat.isFour] in H;
  repeat (apply andb_true_iff in H; destruct H as [? H]).

Ltac class_goal :=
  cbn -[Uuid.isHex Uuid.isVersionDigit Uuid.isVariantDigit Uuid.isZero
        Uuid.isF isHyphen CreatorIdFormat.isFour];
  repeat match goal with
    | |- andb _ _ = true => apply andb_true_intro; split
    end;
  first [assumption | reflexivity | now apply four_version].

(** X1. [ensureValidCreatorId] accepts exactly the strings of 36 code
    units that are a UUID of version 4: hexadecimal digits in groups of 8,
    4, 4, 4 and 12 separated by hyphens, in either case, with [4] as the
    first digit of the third group and 8, 9, a or b as the first digit of
    the fourth. The nil and the max UUID, which [uuid.validate] accepts,
    are rejected. *)
Theorem creatorId_is_uuid_v4 :
  forall s,
    isValidCreatorId s = true
    <-> Uuid.matches CreatorIdFormat.v4Pattern s = true.
Proof.
  intros s. unfold isValidCreatorId. rewrite andb_true_iff. split.
  - intros [Hv Hver]. pose proof (validate_length _ Hv) as Hlen.
    rewrite validate_patterns in Hv.
    thirty_six s Hlen.
    change (Uuid.version _) with (Uuid.hexValue n13) in Hver.
    apply hexValue_four in Hver.
    apply Exists_exists in Hv. destruct Hv as [p [Hin H1]].
    destruct Hin as [<-|[<-|[<-|[]]]]; class_facts H1.
    + class_goal.
    + exfalso. eapply four_not_zero; eassumption.
    + exfalso. eapply four_not_f; eassumption.
  - intros H. pose proof (matches_length _ _ H) as Hlen.
    change (List.length CreatorIdFormat.v4Pattern) with 36 in Hlen.
    thirty_six s Hlen. class_facts H. split.
    + unfold Uuid.validate. apply orb_true_iff. left.
      apply orb_true_iff. left. class_goal.
    + change (Uuid.version _) with (Uuid.hexValue n13).
      now apply hexValue_four.
Qed.

(** ** The simple authentication *)

(** X2. [authenticateCreator] with a simple authorization rejects an
    ill-formed Creator ID before it reaches the store, answers
    [CreatorNotFoundError] when the lookup finds nothing, and in every
    run makes one lookup by the claimed Creator ID at most, followed by
    one update at most, of the account found and of its [ips] alone: it
    never inserts an account and never changes another field. *)
Theorem simple_authentication_touches_ips_only :
  forall (World : Type) (services : Services World)
         (auth : SimpleCreatorAuthorization) (w : World),
    let r := authenticateCreator services (KindSimple auth) w in
    (isValidCreatorId (simpleCreatorId auth) = false ->
     r = {| outcome := Thrown (InvalidCreatorIdError (simpleCreatorId auth));
            final := w; trace := [] |})
    /\ (isValidCreatorId (simpleCreatorId auth) = true ->
        forall w1,
          findUnique services (simpleCreatorId auth) w
          = (Returned None, w1) ->
          r = {| outcome := Thrown CreatorNotFoundError; final := w1;
                 trace := [FindUniqueCalled (simpleCreatorId auth)
                             (Returned None)] |})
    /\ (trace r = []
        \/ (exists found, trace r = [FindUniqueCalled (simpleCreatorId auth)
                                      found])
        \/ (exists creator out,
              trace r
              = [FindUniqueCalled (simpleCreatorId auth)
                   (Returned (Some creator));
                 UpdateCalled (id creator)
                   (ipsOnly (mergeHistory (simpleIp auth) (ips creator)))
                   out]
              /\ hd_error (ips creator) <> Some (simpleIp auth)
              /\ outcome r = out)).
Proof.
  intros World services auth w. cbv zeta.
  unfold authenticateCreator, ensureValidCreatorId.
  destruct (isValidCreatorId (simpleCreatorId auth)) eqn:Hvalid;
    cbn [negb liftOutcome].
  2:{ split; [reflexivity|]. split; [discriminate|]. now left. }
  rewrite bind_ret.
  split; [discriminate|].
  unfold authenticateCreatorSimple, bind, prismaFindUnique. cbv beta.
  destruct (findUnique services (simpleCreatorId auth) w) as [found w1].
  cbn [outcome final trace]. split.
  - intros _ w1' [= -> <-]. reflexivity.
  - right. destruct found as [[creator|]|e]; cbn [outcome final trace app].
    + destruct (opt_eqb (hd_error (ips creator)) (Some (simpleIp auth)))
        eqn:Hip; cbn [negb].
      * left. eexists. reflexivity.
      * right. unfold prismaUpdate.
        fold (ipsOnly (mergeHistory (simpleIp auth) (ips creator))).
        destruct (update services (id creator) _ w1) as [out w2].
        cbn [outcome final trace app].
        exists creator, out. split; [reflexivity|]. split; [|reflexivity].
        intros Heq. apply opt_eqb_eq in Heq. congruence.
    + left. eexists. reflexivity.
    + left. eexists. reflexivity.
Qed.

(** A valid Creator ID that no account of the reference store holds. *)
Lemma simple_authentication_touches_ips_only_witness :
  authenticateCreator (Store.dbServices Store.noProfiles)
    (KindSimple {| simpleCreatorId := Examples.idA;
                   simpleIp := lit "10.0.0.9" |})
    (Store.quiet [Examples.bob])
  = {| outcome := Thrown CreatorNotFoundError;
       final := Store.quiet [Examples.bob];
       trace := [FindUniqueCalled Examples.idA (Returned None)] |}.
Proof.
  apply (proj1 (proj2 (simple_authentication_touches_ips_only
                         (Store.dbServices Store.noProfiles)
                         {| simpleCreatorId := Examples.idA;
                            simpleIp := lit "10.0.0.9" |}
                         (Store.quiet [Examples.bob])))).
  - vm_compute. reflexivity.
  - vm_compute. reflexivity.
Defined.

(** ** The calls of one attempt *)

Section Attempts.

Variable World : Type.
Variable services : Services World.

Lemma resolveProvider_trace (a : ModCreatorAuthorization) (w : World) :
  trace (resolveProvider services a w) = []
  \/ exists token out,
       trace (resolveProvider services a w)
       = [VerifyOfficialAccountCalled token out].
Proof.
  unfold resolveProvider.
  destruct (authCreatorIdProvider a); try (left; reflexivity).
  - destruct (isBlank (minecraftAccessToken a)); [left; reflexivity|].
    right. unfold tryCatch, bind, minecraftAuthVerifyOfficialAccount.
    destruct (verifyOfficialAccount services _ w) as [[p|e] w1].
    + eexists _, _. reflexivity.
    + cbn [outcome final trace]. destruct e; eexists _, _; reflexivity.
  - destruct (isBlank (authMinecraftPlayerUuid a)); [left; reflexivity|].
    destruct (normalizeUuid _) as [u|e]; [left; reflexivity|].
    destruct e as [| | | | | | | | |m| | |]; try (left; reflexivity).
    destruct m; left; reflexivity.
Qed.

(** A run that the provider step or the Creator ID check ends. *)
Lemma unsafe_stops_early (a : ModCreatorAuthorization) (w : World) :
  match outcome (resolveProvider services a w) with
  | Thrown e =>
      authenticateCreatorForModUnsafe services a w
      = {| outcome := Thrown e;
           final := final (resolveProvider services a w);
           trace := trace (resolveProvider services a w) |}
  | Returned effective =>
      isValidCreatorId (effId effective) = false ->
      authenticateCreatorForModUnsafe services a w
      = {| outcome := Thrown (InvalidCreatorIdError (effId effective));
           final := final (resolveProvider services a w);
           trace := trace (resolveProvider services a w) |}
  end.
Proof.
  destruct (outcome (resolveProvider services a w)) as [effective|e]
    eqn:Hout.
  - intros Hvalid. unfold authenticateCreatorForModUnsafe, bind at 1.
    rewrite Hout. unfold ensureValidCreatorId. rewrite Hvalid.
    cbn [negb liftOutcome]. unfold bind, throw. cbn [outcome final trace].
    now rewrite app_nil_r.
  - unfold authenticateCreatorForModUnsafe, bind at 1. now rewrite Hout.
Qed.

(** A run whose match query throws. *)
Lemma unsafe_query_fails (a : ModCreatorAuthorization) (w : World)
  (effective : Effective) (e : Error) (w' : World) :
  outcome (resolveProvider services a w) = Returned effective ->
  isValidCreatorId (effId effective) = true ->
  findMany services (searchWhere (contextOf a effective))
    (final (resolveProvider services a w)) = (Thrown e, w') ->
  authenticateCreatorForModUnsafe services a w
  = {| outcome := Thrown e; final := w';
       trace := trace (resolveProvider services a w)
                ++ [FindManyCalled (searchWhere (contextOf a effective))
                      (Thrown e)] |}.
Proof.
  intros Hout Hvalid Hfind.
  unfold authenticateCreatorForModUnsafe, bind at 1.
  rewrite Hout. unfold ensureValidCreatorId. rewrite Hvalid.
  cbn [negb liftOutcome]. unfold bind, ret, prismaFindMany.
  cbn [outcome final trace]. rewrite Hfind.
  cbn [outcome final trace app]. reflexivity.
Qed.

Lemma disambiguate_after (context : CreatorContext)
  (creators : list Creator) (w : World) :
  AfterQuery creators (trace (disambiguate services context creators w)).
Proof.
  destruct creators as [|creator [|second more]].
  - change (disambiguate services context [] w)
      with (createCreator services context w).
    destruct (validateCreatorName (effectiveCreatorName context))
      as [validName|e] eqn:Hname.
    + pose proof (createCreator_writes services context w Hname) as H.
      cbv zeta in H.
      destruct (create services _ w) as [out w'].
      rewrite H. cbn [trace].
      now apply (Inserted (creators := [])).
    + destruct (createCreator_invalid services context w Hname) as [-> _].
      constructor.
  - change (disambiguate services context [creator] w)
      with (updateCreator services creator context w).
    destruct (creatorIdMismatch context creator) eqn:Hmis.
    { rewrite (updateCreator_rejects services creator context w Hmis).
      constructor. }
    destruct (modified context creator) eqn:Hmod.
    2:{ rewrite (updateCreator_unchanged services creator context w Hmod).
        constructor. }
    destruct (nameToWrite context creator) as [validName|e] eqn:Hname.
    2:{ rewrite (updateCreator_invalid services creator context w
                   Hmis Hmod Hname). constructor. }
    pose proof (updateCreator_writes services creator context w
                  Hmis Hmod Hname) as H.
    cbv zeta in H.
    destruct (update services (id creator) _ w) as [out w'].
    rewrite H. cbn [trace].
    destruct out as [updated|e].
    + destruct (opt_eqb (creatorName updated) (creatorName creator)) eqn:E;
        cbn [negb].
      * apply opt_eqb_eq in E.
        apply Rewritten; [reflexivity|]. now intros u [= <-].
      * apply Renamed; [reflexivity|]. intros Heq.
        apply opt_eqb_eq in Heq. congruence.
    + apply Rewritten; [reflexivity|]. discriminate.
  - assert (Hge : 2 <= List.length (creator :: second :: more))
      by (simpl; lia).
    destruct (disambiguate_several services context
                (creator :: second :: more) w Hge) as (e & -> & _).
    constructor.
Qed.

Lemma unsafe_attempt (a : ModCreatorAuthorization) (w : World) :
  AttemptTrace (trace (authenticateCreatorForModUnsafe services a w)).
Proof.
  pose proof (unsafe_stops_early a w) as Hearly.
  pose proof (resolveProvider_trace a w) as Hpre.
  destruct (outcome (resolveProvider services a w)) as [effective|e] eqn:Hout.
  2:{ rewrite Hearly. cbn [trace].
      rewrite <- (app_nil_r (trace _)). constructor; [exact Hpre|now left]. }
  destruct (isValidCreatorId (effId effective)) eqn:Hvalid.
  2:{ rewrite (Hearly eq_refl). cbn [trace].
      rewrite <- (app_nil_r (trace _)). constructor; [exact Hpre|now left]. }
  destruct (findMany services (searchWhere (contextOf a effective))
              (final (resolveProvider services a w))) as [[creators|e] w']
    eqn:Hfind.
  - assert (Hquery : QueryReturns services a w (contextOf a effective)
                       creators w') by (now exists effective).
    rewrite (unsafe_run Hquery). cbv zeta. cbn [trace].
    constructor; [exact Hpre|]. right. right.
    eexists _, _, _. split; [reflexivity|]. apply disambiguate_after.
  - rewrite (unsafe_query_fails a w Hout Hvalid Hfind). cbn [trace].
    constructor; [exact Hpre|]. right. left. eexists _, _. reflexivity.
Qed.

End Attempts.

Lemma attempt_counts (t : list Event) :
  AttemptTrace t ->
  List.length (filter isVerification t) <= 1
  /\ List.length (queries t) <= 1
  /\ List.length (writes t) <= 1.
Proof.
  intros [verified rest Hv Hr]. unfold queries, writes.
  rewrite !filter_app, !length_app.
  assert (Hverified :
    List.length (filter isVerification verified) <= 1
    /\ List.length (filter isQuery verified) = 0
    /\ List.length (filter isWrite verified) = 0).
  { destruct Hv as [->|(token & out & ->)]; simpl; lia. }
  assert (Hrest :
    List.length (filter isVerification rest) = 0
    /\ List.length (filter isQuery rest) <= 1
    /\ List.length (filter isWrite rest) <= 1).
  { destruct Hr as [->|[(wh & e & ->)|(wh & cs & after & -> & Hafter)]];
      [simpl; lia | simpl; lia |].
    destruct Hafter as [|data out _|c data out _ _|c data updated _ _];
      try (simpl; lia).
    destruct out; simpl; lia. }
  lia.
Qed.

(** X3. The calls of a request. One run of the resolution procedure makes
    at most one call to the verifier, then at most one match query, then
    at most one write, in this order: an insert only when the query
    returned no account, an update only of the single account it
    returned, nothing when it returned several; a translation is started
    only after a successful insert, or after an update that changed the
    name. [authenticateCreatorForMod] makes these calls once, and a second
    time only when the first run threw the uniqueness violation; so it
    queries and writes at most twice. *)
Theorem calls_of_a_request :
  forall (World : Type) (services : Services World)
         (a : ModCreatorAuthorization) (w : World),
    let first := authenticateCreatorForModUnsafe services a w in
    let r := authenticateCreatorForMod services a w in
    AttemptTrace (trace first)
    /\ (trace r = trace first
        \/ (exists e, outcome first = Thrown e
                      /\ isUniqueConstraintViolation e = true)
           /\ exists again, trace r = trace first ++ again
                            /\ AttemptTrace again)
    /\ List.length (queries (trace r)) <= 2
    /\ List.length (writes (trace r)) <= 2.
Proof.
  intros World services a w first r.
  pose proof (unsafe_attempt services a w) as Hfirst. fold first in Hfirst.
  assert (Hshape :
    trace r = trace first
    \/ (exists e, outcome first = Thrown e
                  /\ isUniqueConstraintViolation e = true)
       /\ exists again, trace r = trace first ++ again
                        /\ AttemptTrace again).
  { subst r. unfold authenticateCreatorForMod, tryCatch. fold first.
    destruct (outcome first) as [c|e] eqn:Hout; [now left|].
    destruct (isUniqueConstraintViolation e) eqn:Hu.
    - right. split; [now exists e|]. eexists. split; [reflexivity|].
      apply unsafe_attempt.
    - left. cbn [throw trace]. apply app_nil_r. }
  split; [exact Hfirst|]. split; [exact Hshape|].
  destruct (attempt_counts Hfirst) as (_ & Hq & Hw).
  destruct Hshape as [->|(_ & again & -> & Hagain)]; [lia|].
  destruct (attempt_counts Hagain) as (_ & Hq' & Hw').
  unfold queries, writes in *. rewrite !filter_app, !length_app. lia.
Qed.

(** ** The errors of a request *)

Section Errors.

Variable World : Type.
Variable services : Services World.

Lemma normalizeUuid_error (input : jsstring) (e : Error) :
  normalizeUuid input = Thrown e ->
  e = MinecraftAuthThrown (MinecraftAuthInvalidUuidError input).
Proof.
  rewrite normalizeUuid_canonical_form.
  destruct (canonical (stripHyphens input)); [discriminate|]. congruence.
Qed.

Lemma resolveProvider_error (a : ModCreatorAuthorization) (w : World)
  (e : Error) :
  outcome (resolveProvider services a w) = Thrown e ->
  isCreatorError e = true
  \/ exists token,
       trace (resolveProvider services a w)
       = [VerifyOfficialAccountCalled token (Thrown e)].
Proof.
  unfold resolveProvider.
  destruct (authCreatorIdProvider a); cbn [ret throw outcome trace];
    try discriminate.
  - destruct (isBlank (minecraftAccessToken a));
      [intros [= <-]; now left|].
    unfold tryCatch, bind, minecraftAuthVerifyOfficialAccount.
    destruct (verifyOfficialAccount services _ w) as [[p|x] w1];
      cbn [outcome final trace ret]; [discriminate|].
    destruct x; cbn [throw outcome trace app]; intros [= <-];
      try (right; eexists; reflexivity).
    now left.
  - destruct (isBlank (authMinecraftPlayerUuid a));
      [intros [= <-]; now left|].
    destruct (normalizeUuid _) as [u|x] eqn:Hn; [discriminate|].
    rewrite (normalizeUuid_error _ Hn). intros [= <-]. now left.
  - intros [= <-]. now left.
Qed.

Lemma disambiguate_error (context : CreatorContext)
  (creators : list Creator) (w : World) (e : Error) :
  outcome (disambiguate services context creators w) = Thrown e ->
  isCreatorError e = true
  \/ (exists message, e = AssertionError message)
  \/ exists ev, In ev (trace (disambiguate services context creators w))
                /\ isWrite ev = true /\ thrownBy ev = Some e.
Proof.
  destruct creators as [|creator [|second more]].
  - change (disambiguate services context [] w)
      with (createCreator services context w).
    destruct (validateCreatorName (effectiveCreatorName context))
      as [validName|x] eqn:Hname.
    + pose proof (createCreator_writes services context w Hname) as H.
      cbv zeta in H. destruct (create services _ w) as [out w'].
      rewrite H. cbn [outcome trace]. intros ->. right. right.
      eexists. split; [now left|]. split; reflexivity.
    + destruct (createCreator_invalid services context w Hname) as [-> _].
      cbn [outcome]. intros [= <-]. left.
      pose proof (validateCreatorName_bound (effectiveCreatorName context))
        as Hb.
      rewrite Hname in Hb. destruct Hb as (n & _ & -> & _). reflexivity.
  - change (disambiguate services context [creator] w)
      with (updateCreator services creator context w).
    destruct (creatorIdMismatch context creator) eqn:Hmis.
    { rewrite (updateCreator_rejects services creator context w Hmis).
      cbn [outcome]. intros [= <-]. unfold ownershipError.
      destruct (creatorName creator) as [[|c n]|];
        [right; left; eexists; reflexivity | now left
        | right; left; eexists; reflexivity]. }
    destruct (modified context creator) eqn:Hmod.
    2:{ rewrite (updateCreator_unchanged services creator context w Hmod).
        discriminate. }
    destruct (nameToWrite context creator) as [validName|x] eqn:Hname.
    2:{ rewrite (updateCreator_invalid services creator context w
                   Hmis Hmod Hname).
        cbn [outcome]. intros [= <-]. left.
        unfold nameToWrite in Hname.
        destruct (opt_eqb _ _); [discriminate|].
        pose proof (validateCreatorName_bound
                      (effectiveCreatorName context)) as Hb.
        rewrite Hname in Hb. destruct Hb as (n & _ & -> & _). reflexivity. }
    pose proof (updateCreator_writes services creator context w
                  Hmis Hmod Hname) as H.
    cbv zeta in H. destruct (update services (id creator) _ w) as [out w'].
    rewrite H. cbn [outcome trace]. intros ->. right. right.
    eexists. split; [now left|]. split; reflexivity.
  - assert (Hge : 2 <= List.length (creator :: second :: more))
      by (simpl; lia).
    destruct (disambiguate_several services context
                (creator :: second :: more) w Hge)
      as (x & -> & _ & Htwo & Hmore).
    cbn [outcome]. intros [= <-].
    destruct (Nat.eqb (List.length (creator :: second :: more)) 2
              && truthy (effectiveCreatorName context)) eqn:Hcase.
    + apply andb_true_iff in Hcase. destruct Hcase as [Hlen Hname].
      apply Nat.eqb_eq in Hlen. apply truthy_name in Hname.
      destruct Hname as (n & Hname & Hn).
      left. now rewrite (Htwo Hlen n Hname Hn).
    + right. left. apply Hmore. apply andb_false_iff in Hcase.
      destruct Hcase as [Hlen|Hname]; [|now right].
      apply Nat.eqb_neq in Hlen. left. simpl in *. lia.
Qed.

Lemma unsafe_error (a : ModCreatorAuthorization) (w : World) (e : Error) :
  outcome (authenticateCreatorForModUnsafe services a w) = Thrown e ->
  isCreatorError e = true
  \/ (exists message, e = AssertionError message)
  \/ exists ev, In ev (trace (authenticateCreatorForModUnsafe services a w))
                /\ thrownBy ev = Some e.
Proof.
  pose proof (unsafe_stops_early services a w) as Hearly.
  destruct (outcome (resolveProvider services a w)) as [effective|x] eqn:Hout.
  2:{ rewrite Hearly. cbn [outcome trace]. intros [= <-].
      destruct (resolveProvider_error a w Hout) as [Hc|(token & Ht)];
        [now left|].
      right. right. rewrite Ht. eexists. split; [now left|reflexivity]. }
  destruct (isValidCreatorId (effId effective)) eqn:Hvalid.
  2:{ rewrite (Hearly eq_refl). cbn [outcome]. intros [= <-]. now left. }
  destruct (findMany services (searchWhere (contextOf a effective))
              (final (resolveProvider services a w))) as [[creators|x] w']
    eqn:Hfind.
  - assert (Hquery : QueryReturns services a w (contextOf a effective)
                       creators w') by (now exists effective).
    rewrite (unsafe_run Hquery). cbv zeta. cbn [outcome trace].
    intros He.
    destruct (disambiguate_error _ _ _ He) as [Hc|[Ha|(ev & Hin & _ & Hev)]];
      [now left | now right; left |].
    right. right. exists ev. split; [|exact Hev].
    apply in_or_app. right. now right.
  - rewrite (unsafe_query_fails services a w Hout Hvalid Hfind).
    cbn [outcome trace]. intros [= <-]. right. right.
    eexists. split; [apply in_or_app; right; now left|reflexivity].
Qed.

Lemma afterQuery_no_verification (creators : list Creator)
  (t : list Event) :
  AfterQuery creators t -> filter isVerification t = [].
Proof.
  intros [|data out _|c data out _ _|c data updated _ _]; try reflexivity.
  now destruct out.
Qed.

Lemma unsafe_trace_split (a : ModCreatorAuthorization) (w : World) :
  exists rest,
    trace (authenticateCreatorForModUnsafe services a w)
    = trace (resolveProvider services a w) ++ rest
    /\ filter isVerification rest = [].
Proof.
  pose proof (unsafe_stops_early services a w) as Hearly.
  destruct (outcome (resolveProvider services a w)) as [effective|x] eqn:Hout.
  2:{ exists []. rewrite Hearly. cbn [trace]. now rewrite app_nil_r. }
  destruct (isValidCreatorId (effId effective)) eqn:Hvalid.
  2:{ exists []. rewrite (Hearly eq_refl). cbn [trace].
      now rewrite app_nil_r. }
  destruct (findMany services (searchWhere (contextOf a effective))
              (final (resolveProvider services a w))) as [[creators|x] w']
    eqn:Hfind.
  - assert (Hquery : QueryReturns services a w (contextOf a effective)
                       creators w') by (now exists effective).
    rewrite (unsafe_run Hquery). cbv zeta. cbn [trace].
    eexists. split; [reflexivity|]. cbn [filter isVerification].
    eapply afterQuery_no_verification. apply disambiguate_after.
  - rewrite (unsafe_query_fails services a w Hout Hvalid Hfind).
    cbn [trace]. eexists. split; reflexivity.
Qed.

Lemma verifier_error_wrapped (a : ModCreatorAuthorization) (w : World)
  (token : jsstring) (m : MinecraftAuthError) :
  In (VerifyOfficialAccountCalled token (Thrown (MinecraftAuthThrown m)))
     (trace (resolveProvider services a w)) ->
  outcome (resolveProvider services a w)
  = Thrown (MinecraftOfficialAuthenticationError m).
Proof.
  unfold resolveProvider.
  destruct (authCreatorIdProvider a); cbn [ret throw outcome trace];
    try contradiction.
  - destruct (isBlank (minecraftAccessToken a)); [contradiction|].
    unfold tryCatch, bind, minecraftAuthVerifyOfficialAccount.
    destruct (verifyOfficialAccount services _ w) as [[p|x] w1];
      cbn [outcome final trace ret app].
    + intros [H|[]]. discriminate.
    + destruct x; cbn [throw outcome trace app]; intros [H|[]];
        try discriminate.
      now injection H as _ <-.
  - destruct (isBlank (authMinecraftPlayerUuid a)); [contradiction|].
    destruct (normalizeUuid _) as [u|x]; [contradiction|].
    destruct x as [| | | | | | | | |x| | |]; try contradiction.
    destruct x; contradiction.
Qed.

End Errors.

(** X4. The errors of a request. Whatever [authenticateCreatorForMod]
    throws is a [CreatorError], or the [AssertionError] of one of its
    three assertions, or an error that the store or the verifier threw
    and that one of the calls of the request records. A
    [MinecraftAuthError] of the verifier never comes out as it is: the
    run of the resolution procedure in which the verifier threw it ends
    with [MinecraftOfficialAuthenticationError] around it. *)
Theorem errors_of_a_request :
  forall (World : Type) (services : Services World)
         (a : ModCreatorAuthorization) (w : World),
    (forall e,
        outcome (authenticateCreatorForMod services a w) = Thrown e ->
        isCreatorError e = true
        \/ (exists message, e = AssertionError message)
        \/ exists ev,
             In ev (trace (authenticateCreatorForMod services a w))
             /\ thrownBy ev = Some e)
    /\ (forall token m,
          In (VerifyOfficialAccountCalled token
                (Thrown (MinecraftAuthThrown m)))
             (trace (authenticateCreatorForModUnsafe services a w)) ->
          outcome (authenticateCreatorForModUnsafe services a w)
          = Thrown (MinecraftOfficialAuthenticationError m)).
Proof.
  intros World services a w. split.
  - intros e. unfold authenticateCreatorForMod, tryCatch.
    destruct (outcome (authenticateCreatorForModUnsafe services a w))
      as [c|x] eqn:Hout; [now rewrite Hout|].
    destruct (isUniqueConstraintViolation x) eqn:Hu.
    + cbn [outcome trace]. intros He.
      destruct (unsafe_error services a _ He) as [Hc|[Ha|(ev & Hin & Hev)]];
        [now left | now right; left |].
      right. right. exists ev. split; [|exact Hev].
      apply in_or_app. now right.
    + cbn [throw outcome trace]. intros [= <-]. rewrite app_nil_r.
      now apply unsafe_error.
  - intros token m Hin.
    destruct (unsafe_trace_split services a w) as (rest & Hsplit & Hrest).
    rewrite Hsplit in Hin. apply in_app_or in Hin.
    destruct Hin as [Hin|Hin].
    + pose proof (verifier_error_wrapped services a w _ _ Hin) as Hout.
      pose proof (unsafe_stops_early services a w) as Hearly.
      rewrite Hout in Hearly. now rewrite Hearly.
    + exfalso.
      assert (Hf : In (VerifyOfficialAccountCalled token
                         (Thrown (MinecraftAuthThrown m)))
                      (filter isVerification rest))
        by (apply filter_In; split; [exact Hin|reflexivity]).
      rewrite Hrest in Hf. contradiction.
Qed.

(** The holder of [idA] claims the name of [bob]: the error thrown is a
    [CreatorError]. *)
Lemma errors_of_a_request_witness :
  isCreatorError (IncorrectCreatorIdError (lit "Bob")) = true
  \/ (exists message,
        IncorrectCreatorIdError (lit "Bob") = AssertionError message)
  \/ exists ev,
       In ev (trace (Examples.run Examples.claimBob
                       (Store.quiet [Examples.alice; Examples.bob])))
       /\ thrownBy ev = Some (IncorrectCreatorIdError (lit "Bob")).
Proof.
  apply (proj1 (errors_of_a_request (Store.dbServices Store.noProfiles)
                  Examples.claimBob
                  (Store.quiet [Examples.alice; Examples.bob]))).
  vm_compute. reflexivity.
Defined.

(** ** No match: the insert *)

(** X5. When the match query returns no account: a display name that
    fails validation ends the request with [InvalidCreatorNameError]
    and nothing is written; otherwise exactly one insert goes to the
    store, carrying the effective Creator ID, provider and Minecraft
    player, the validated name, the slug of the name as claimed, and
    histories made of the claimed device and of the claimed IP alone; the
    request ends as the insert does, and a successful insert is the
    whole call and starts the translation of the new account. *)
Theorem new_account_is_inserted :
  forall (World : Type) (services : Services World)
         (a : ModCreatorAuthorization) (w : World)
         (context : CreatorContext) (w' : World),
    QueryReturns services a w context [] w' ->
    let r := authenticateCreatorForModUnsafe services a w in
    match validateCreatorName (effectiveCreatorName context) with
    | Thrown e =>
        authenticateCreatorForMod services a w = r
        /\ outcome r = Thrown e /\ writes (trace r) = [] /\ final r = w'
        /\ exists n, e = InvalidCreatorNameError n
    | Returned validName =>
        let data := createOf context validName in
        let (out, w'') := create services data w' in
        writes (trace r) = [CreateCalled data out]
        /\ outcome r = out /\ final r = w''
        /\ newHwids data = [authHwid a] /\ newIps data = [authIp a]
        /\ newCreatorIdProvider data = authCreatorIdProvider a
        /\ newCreatorNameSlug data
           = getCreatorNameSlug (effectiveCreatorName context)
        /\ (forall c, out = Returned c ->
                      authenticateCreatorForMod services a w = r
                      /\ In (TranslationSpawned c) (trace r))
    end.
Proof.
  intros World services a w context w' Hquery. cbv zeta.
  pose proof (unsafe_run Hquery) as Hrun. cbv zeta in Hrun.
  change (disambiguate services context [] w')
    with (createCreator services context w') in Hrun.
  destruct Hquery as (effective & _ & _ & Hctx & _).
  destruct (validateCreatorName (effectiveCreatorName context))
    as [validName|e] eqn:Hname.
  - pose proof (createCreator_writes services context w' Hname) as Hcreate.
    cbv zeta in Hcreate. fold (createOf context validName) in Hcreate.
    destruct (create services (createOf context validName) w')
      as [out w''].
    rewrite Hcreate in Hrun. cbn [outcome final trace] in Hrun.
    rewrite Hrun. cbn [outcome final trace].
    split.
    { rewrite writes_app, resolveProvider_reads_only.
      destruct out; reflexivity. }
    split; [reflexivity|]. split; [reflexivity|].
    split; [now subst context|]. split; [now subst context|].
    split; [now subst context|]. split; [now subst context|].
    intros c ->. split.
    + rewrite <- Hrun. apply forMod_single_attempt. rewrite Hrun.
      discriminate.
    + apply in_or_app. right. right. right. now left.
  - destruct (createCreator_invalid services context w' Hname)
      as [Hcreate He].
    rewrite Hcreate in Hrun. cbn [outcome final trace] in Hrun.
    split.
    { apply forMod_single_attempt. rewrite Hrun. cbn [outcome].
      now intros x [= <-]. }
    rewrite Hrun. cbn [outcome final trace].
    split; [reflexivity|]. split.
    { rewrite writes_app, resolveProvider_reads_only. reflexivity. }
    split; [reflexivity|].
    pose proof (validateCreatorName_bound (effectiveCreatorName context))
      as Hb.
    rewrite Hname in Hb. destruct Hb as (n & _ & -> & _). now exists n.
Qed.

(** [claimDave] on the empty reference store. *)
Lemma new_account_is_inserted_witness :
  exists c,
    outcome (Examples.run Examples.claimDave (Store.quiet []))
    = Returned c
    /\ creatorName c = Some (lit "Dave Smith")
    /\ creatorNameSlug c = Some (lit "dave-smith")
    /\ hwids c = [lit "hw-1"] /\ ips c = [lit "10.0.0.1"].
Proof.
  assert (Hquery :
    QueryReturns (Store.dbServices Store.noProfiles) Examples.claimDave
      (Store.quiet [])
      (contextOf Examples.claimDave
         {| effId := Examples.idA; effName := Some (lit "Dave  Smith");
            effUuid := None |})
      [] (Store.quiet [])).
  { eexists. repeat split; vm_compute; reflexivity. }
  pose proof (new_account_is_inserted Hquery) as H. cbv zeta in H.
  assert (Hname :
    validateCreatorName
      (effectiveCreatorName
         (contextOf Examples.claimDave
            {| effId := Examples.idA; effName := Some (lit "Dave  Smith");
               effUuid := None |}))
    = Returned (Some (lit "Dave Smith"))) by (vm_compute; reflexivity).
  rewrite Hname in H.
  destruct (create (Store.dbServices Store.noProfiles) _ (Store.quiet []))
    as [out w''] eqn:Hcreate.
  vm_compute in Hcreate. injection Hcreate as <- <-.
  destruct H as (_ & Hout & _ & _ & _ & _ & _ & Hall).
  destruct (Hall _ eq_refl) as [Hsame _].
  eexists. unfold Examples.run. rewrite Hsame, Hout.
  split; [reflexivity|]. repeat split.
Defined.

(** ** A stored name that the claim repeats *)



(** ** Names and slugs *)

Lemma dropWhile_nil (p : N -> bool) (s : jsstring) :
  dropWhile p s = [] <-> forallb p s = true.
Proof.
  induction s as [|c s IH]; simpl; [tauto|].
  destruct (p c); simpl; [exact IH|]. split; discriminate.
Qed.

Lemma dropWhile_head (p : N -> bool) (s : jsstring) (c : N) (r : jsstring) :
  dropWhile p s = c :: r -> p c = false.
Proof.
  induction s as [|d s IH]; simpl; [discriminate|].
  destruct (p d) eqn:E; [exact IH|]. now intros [= <- _].
Qed.

Lemma dropWhile_suffix (p : N -> bool) (s : jsstring) :
  exists dropped, s = dropped ++ dropWhile p s.
Proof.
  induction s as [|c s [dropped IH]]; simpl; [now exists []|].
  destruct (p c); [|now exists []].
  exists (c :: dropped). simpl. now f_equal.
Qed.

Lemma dropWhileEnd_prefix (p : N -> bool) (s : jsstring) :
  exists dropped, s = dropWhileEnd p s ++ dropped.
Proof.
  unfold dropWhileEnd.
  destruct (dropWhile_suffix p (rev s)) as [dropped H].
  exists (rev dropped).
  rewrite <- (rev_involutive s), H, rev_app_distr at 1. reflexivity.
Qed.

Lemma dropWhileEnd_last (p : N -> bool) (s t : jsstring) (c : N) :
  dropWhileEnd p s = t ++ [c] -> p c = false.
Proof.
  unfold dropWhileEnd. intros H.
  apply (f_equal (@rev N)) in H.
  rewrite rev_involutive, rev_app_distr in H. simpl in H.
  exact (dropWhile_head _ _ H).
Qed.

Lemma dropWhileEnd_nil (p : N -> bool) (s : jsstring) :
  dropWhileEnd p s = [] <-> forallb p s = true.
Proof.
  unfold dropWhileEnd. split.
  - intros H. apply (f_equal (@rev N)) in H.
    rewrite rev_involutive in H. simpl in H.
    apply dropWhile_nil in H.
    apply forallb_forall. intros x Hx.
    apply (proj1 (forallb_forall _ _) H), in_rev.
    now rewrite rev_involutive.
  - intros H.
    assert (Hr : forallb p (rev s) = true).
    { apply forallb_forall. intros x Hx. apply in_rev in Hx.
      exact (proj1 (forallb_forall _ _) H x Hx). }
    apply dropWhile_nil in Hr. now rewrite Hr.
Qed.

Lemma trim_nil (s : jsstring) :
  trim s = [] <-> forallb isWhiteSpace s = true.
Proof.
  unfold trim. rewrite dropWhileEnd_nil. split.
  - intros H.
    destruct (dropWhile isWhiteSpace s) as [|c r] eqn:E.
    + now apply dropWhile_nil.
    + apply dropWhile_head in E. simpl in H. now rewrite E in H.
  - intros H. apply dropWhile_nil in H. now rewrite H.
Qed.

Lemma visible_nil (s : jsstring) :
  visible s = [] <-> forallb isWhiteSpace s = true.
Proof.
  unfold visible. induction s as [|c s IH]; simpl; [tauto|].
  destruct (isWhiteSpace c); simpl; [exact IH|]. split; discriminate.
Qed.

(** [!name?.trim()] holds of the names without a visible code unit. *)
Lemma isBlank_visible (n : jsstring) :
  isBlank (Some n) = true <-> visible n = [].
Proof.
  rewrite visible_nil, <- trim_nil. unfold isBlank.
  destruct (trim n); split; congruence.
Qed.

Lemma collapse_visible (prev : option nat) (s : jsstring) :
  visible (replaceRuns_from [isWhiteSpace] (lit " ") prev s) = visible s.
Proof.
  revert prev. induction s as [|c s IH]; intros prev; [reflexivity|].
  cbn [replaceRuns_from classify].
  destruct (isWhiteSpace c) eqn:E.
  - unfold visible at 2. cbn [filter]. rewrite E. cbn [negb].
    fold (visible s).
    destruct (same_class prev (Some 0)); [apply IH|].
    change (lit " " ++ ?x) with (32%N :: x).
    unfold visible at 1. cbn [filter].
    change (negb (isWhiteSpace 32)) with false. cbn iota. apply IH.
  - cbn [classify]. unfold visible. cbn [filter]. rewrite E. cbn [negb].
    f_equal. apply IH.
Qed.

Lemma collapse_collapsed (prev : option nat) (s : jsstring) :
  spacesCollapsed (same_class prev (Some 0))
    (replaceRuns_from [isWhiteSpace] (lit " ") prev s) = true.
Proof.
  revert prev. induction s as [|c s IH]; intros prev; [reflexivity|].
  cbn [replaceRuns_from classify].
  destruct (isWhiteSpace c) eqn:E.
  - destruct (same_class prev (Some 0)) eqn:Hp.
    + specialize (IH (Some 0)). exact IH.
    + change (lit " " ++ ?x) with (32%N :: x).
      cbn [spacesCollapsed].
      change (isWhiteSpace 32) with true. cbn iota.
      change (N.eqb 32 32) with true. cbn [andb negb].
      exact (IH (Some 0)).
  - cbn [classify spacesCollapsed]. rewrite E. exact (IH None).
Qed.

Lemma collapsed_fixed (prev : option nat) (s : jsstring) :
  spacesCollapsed (same_class prev (Some 0)) s = true ->
  replaceRuns_from [isWhiteSpace] (lit " ") prev s = s.
Proof.
  revert prev. induction s as [|c s IH]; intros prev H; [reflexivity|].
  cbn [replaceRuns_from classify]. cbn [spacesCollapsed] in H.
  destruct (isWhiteSpace c) eqn:E.
  - apply andb_true_iff in H. destruct H as [H Hrest].
    apply andb_true_iff in H. destruct H as [Hc Hp].
    apply N.eqb_eq in Hc. subst c.
    apply negb_true_iff in Hp. rewrite Hp.
    change (lit " " ++ ?x) with (32%N :: x). f_equal.
    now apply IH.
  - cbn [classify]. f_equal. now apply IH.
Qed.

(** X7. What [validateCreatorName] returns is in its own normal form:
    a name that it returns has the visible code units of the name it was
    given, in the same order, and at least one of them; every whitespace
    code unit in it is a single U+0020 between two others or at an end;
    it has at most 25 code units and is no longer than the input; and
    validating it again returns it unchanged. *)
Theorem validated_name_is_normal :
  forall (name : option jsstring) (v : jsstring),
    validateCreatorName name = Returned (Some v) ->
    (exists n, name = Some n
               /\ visible v = visible n
               /\ List.length v <= List.length n)
    /\ visible v <> []
    /\ spacesCollapsed false v = true
    /\ List.length v <= 25
    /\ validateCreatorName (Some v) = Returned (Some v).
Proof.
  intros name v H. unfold validateCreatorName in H.
  destruct name as [n|]; [|discriminate].
  destruct (isBlank (Some n)) eqn:Hblank; [discriminate|].
  destruct (Nat.ltb 25 (List.length n)) eqn:Hlen; [discriminate|].
  injection H as <-. apply Nat.ltb_ge in Hlen.
  unfold replaceRuns.
  pose proof (collapse_visible None n) as Hvis.
  pose proof (collapse_collapsed None n) as Hcol.
  pose proof (replaceRuns_length [isWhiteSpace] 32 None n) as Hle.
  change [32%N] with (lit " ") in Hle.
  cbn [same_class] in Hcol.
  set (v := replaceRuns_from [isWhiteSpace] (lit " ") None n) in *.
  assert (Hvisible : visible v <> []).
  { rewrite Hvis. intros Hnil. apply isBlank_visible in Hnil. congruence. }
  split; [now exists n|]. split; [exact Hvisible|].
  split; [exact Hcol|]. split; [lia|].
  unfold validateCreatorName.
  destruct (isBlank (Some v)) eqn:Hb.
  { apply isBlank_visible in Hb. contradiction. }
  assert (Hlt : Nat.ltb 25 (List.length v) = false)
    by (apply Nat.ltb_ge; lia).
  rewrite Hlt. unfold replaceRuns.
  now rewrite (collapsed_fixed None v Hcol).
Qed.

(** A name with a tab and a space between its two words. *)
Lemma validated_name_is_normal_witness :
  validateCreatorName (Some (lit "Ann Lee")) = Returned (Some (lit "Ann Lee"))
  /\ validateCreatorName (Some (lit "Ann" ++ [9; 32]%N ++ lit "Lee"))
     = Returned (Some (lit "Ann Lee")).
Proof.
  assert (H : validateCreatorName (Some (lit "Ann" ++ [9; 32]%N ++ lit "Lee"))
              = Returned (Some (lit "Ann Lee"))) by (vm_compute; reflexivity).
  split; [|exact H].
  exact (proj2 (proj2 (proj2 (proj2 (validated_name_is_normal _ H))))).
Defined.

Ltac units :=
  unfold isWhiteSpace, isUpperAscii, apostrophe, isHyphen, hyphen,
    lowerAscii, in_range in *;
  bools; lia.

Lemma lowerAscii_fixed (c d : N) :
  lowerAscii c = d -> isUpperAscii d = false /\ (d = c \/ (97 <= d <= 122)%N).
Proof.
  intros <-. unfold lowerAscii, isUpperAscii.
  destruct (in_range 65 90 c) eqn:E; unfold in_range in *; bools; lia.
Qed.

Lemma toLowerCase_shape (s : jsstring) :
  Forall (fun c => isWhiteSpace c = false /\ c <> apostrophe) s ->
  Forall (fun d => isWhiteSpace d = false /\ d <> apostrophe
                   /\ isUpperAscii d = false) (toLowerCase s).
Proof.
  intros H. apply Forall_forall. intros u Hu.
  destruct (@toLowerCase_unit s u Hu) as [Hlow Hws].
  assert (Hs : forall c, In c s ->
                         isWhiteSpace c = false /\ c <> apostrophe)
    by exact (proj1 (Forall_forall _ _) H).
  split; [|split].
  - destruct (isWhiteSpace u) eqn:E; [|reflexivity].
    destruct (Hs u (Hws eq_refl)) as [Hw _]. congruence.
  - intros ->.
    destruct Hlow as [(c & Hc & _ & Heq)|[Hi|Hk]];
      [reflexivity| |discriminate Hi|discriminate Hk].
    symmetry in Heq. apply lowerAscii_fixed in Heq.
    destruct Heq as [_ [Heq|Heq]]; [|unfold apostrophe in Heq; lia].
    subst c. now destruct (Hs _ Hc).
  - destruct (isUpperAscii u) eqn:E; [|reflexivity]. exfalso.
    assert (Hu128 : (u < 128)%N) by units.
    destruct (Hlow Hu128) as [(c & _ & _ & Heq)|[Hi|Hk]].
    + symmetry in Heq. apply lowerAscii_fixed in Heq.
      destruct Heq as [Heq _]. congruence.
    + subst u. discriminate E.
    + subst u. discriminate E.
Qed.

Lemma lowerAscii_hyphen (c : N) : hyphen = lowerAscii c -> c = hyphen.
Proof.
  intros H. symmetry in H. apply lowerAscii_fixed in H.
  destruct H as [_ [H|H]]; [now symmetry | unfold hyphen in H; lia].
Qed.

Lemma replaceAll_removes (P : N -> Prop) (pat : jsstring) (skip : nat)
  (s : jsstring) :
  Forall P s -> Forall P (replaceAll_from pat [] skip s).
Proof.
  intros H. revert skip.
  induction H as [|c s Hc Hs IH]; intros skip; [constructor|].
  cbn [replaceAll_from]. destruct skip as [|k]; [|apply IH].
  destruct (prefixb pat (c :: s)); [apply IH|].
  constructor; [exact Hc | apply IH].
Qed.

Lemma replaceAll_apostrophe (s : jsstring) :
  Forall (fun c => c <> apostrophe) (replaceAll s (lit "'") []).
Proof.
  unfold replaceAll. change (lit "'") with [apostrophe].
  induction s as [|c s IH]; [constructor|].
  cbn [replaceAll_from prefixb List.length pred].
  destruct (N.eqb apostrophe c) eqn:E; cbn [andb app]; [exact IH|].
  constructor; [|exact IH]. apply N.eqb_neq in E. congruence.
Qed.

Lemma replaceAll_punctuation (s : jsstring) :
  forallb isPunctuation s = true ->
  Forall (fun c => isHyphen c || isWhiteSpace c = true)
    (replaceAll s (lit "'") []).
Proof.
  unfold replaceAll. change (lit "'") with [apostrophe].
  induction s as [|c s IH]; intros H; [constructor|].
  cbn [forallb] in H. apply andb_true_iff in H. destruct H as [Hc Hs].
  cbn [replaceAll_from prefixb List.length pred].
  destruct (N.eqb apostrophe c) eqn:E; cbn [andb app]; [now apply IH|].
  constructor; [|now apply IH].
  unfold isPunctuation in Hc. rewrite N.eqb_sym, E in Hc. exact Hc.
Qed.

Lemma runs_shape (prev : option nat) (s : jsstring) :
  Forall (fun c => c <> apostrophe) s ->
  Forall (fun c => isWhiteSpace c = false /\ c <> apostrophe)
    (replaceRuns_from [isWhiteSpace; isHyphen] [hyphen] prev s).
Proof.
  intros H. revert prev.
  induction H as [|c s Hc Hs IH]; intros prev; [constructor|].
  assert (Hh : isWhiteSpace hyphen = false /\ hyphen <> apostrophe)
    by (split; [reflexivity | discriminate]).
  cbn [replaceRuns_from classify].
  destruct (isWhiteSpace c) eqn:Ew.
  - destruct (same_class prev (Some 0)); [apply IH|].
    cbn [app]. constructor; [exact Hh | apply IH].
  - destruct (isHyphen c) eqn:Eh.
    + destruct (same_class prev (Some 1)); [apply IH|].
      cbn [app]. constructor; [exact Hh | apply IH].
    + constructor; [now split | apply IH].
Qed.

Lemma runs_hyphens (prev : option nat) (s : jsstring) :
  Forall (fun c => isHyphen c || isWhiteSpace c = true) s ->
  forallb isHyphen
    (replaceRuns_from [isWhiteSpace; isHyphen] [hyphen] prev s) = true.
Proof.
  intros H. revert prev.
  induction H as [|c s Hc Hs IH]; intros prev; [reflexivity|].
  cbn [replaceRuns_from classify].
  destruct (isWhiteSpace c) eqn:Ew.
  - destruct (same_class prev (Some 0)); [apply IH|].
    cbn [app forallb]. now rewrite IH.
  - destruct (isHyphen c) eqn:Eh; [|discriminate Hc].
    destruct (same_class prev (Some 1)); [apply IH|].
    cbn [app forallb]. now rewrite IH.
Qed.

Lemma dropWhile_Forall (P : N -> Prop) (p : N -> bool) (s : jsstring) :
  Forall P s -> Forall P (dropWhile p s).
Proof.
  intros H. destruct (dropWhile_suffix p s) as [dropped Hs].
  rewrite Hs in H. now apply Forall_app in H.
Qed.

Lemma dropWhileEnd_Forall (P : N -> Prop) (p : N -> bool) (s : jsstring) :
  Forall P s -> Forall P (dropWhileEnd p s).
Proof.
  intros H. destruct (dropWhileEnd_prefix p s) as [dropped Hs].
  rewrite Hs in H. now apply Forall_app in H.
Qed.

(** The slug before it is lower-cased. *)
Lemma slug_steps (n : jsstring) :
  isBlank (Some n) = false ->
  getCreatorNameSlug (Some n)
  = Some (toLowerCase
            (dropWhileEnd isHyphen
               (dropWhile isHyphen
                  (replaceRuns [isWhiteSpace; isHyphen] [hyphen]
                     (replaceAll (replaceAll n (lit "'") [])
                        apostropheVariant []))))).
Proof. intros H. unfold getCreatorNameSlug. now rewrite H. Qed.

(** X8. The shape of a slug. A slug that [getCreatorNameSlug] returns
    holds no whitespace code unit, no ASCII apostrophe and no upper-case
    ASCII letter, and it neither begins nor ends with a hyphen. *)
Theorem slug_shape :
  forall (name : option jsstring) (slug : jsstring),
    getCreatorNameSlug name = Some slug ->
    Forall (fun c => isWhiteSpace c = false /\ c <> apostrophe
                     /\ isUpperAscii c = false) slug
    /\ (forall t, slug <> hyphen :: t)
    /\ (forall t, slug <> t ++ [hyphen]).
Proof.
  intros name slug H.
  destruct name as [n|]; [|discriminate].
  destruct (isBlank (Some n)) eqn:Hb.
  { now rewrite (getCreatorNameSlug_blank _ Hb) in H. }
  rewrite (slug_steps _ Hb) in H. injection H as <-.
  set (s2 := replaceAll (replaceAll n (lit "'") []) apostropheVariant []).
  set (s3 := replaceRuns [isWhiteSpace; isHyphen] [hyphen] s2).
  set (s4 := dropWhileEnd isHyphen (dropWhile isHyphen s3)).
  assert (H2 : Forall (fun c => c <> apostrophe) s2)
    by apply replaceAll_removes, replaceAll_apostrophe.
  assert (H4 : Forall (fun c => isWhiteSpace c = false /\ c <> apostrophe)
                 s4)
    by apply dropWhileEnd_Forall, dropWhile_Forall, runs_shape, H2.
  split; [now apply toLowerCase_shape|]. split.
  - intros t Ht.
    destruct (@toLowerCase_first s4 hyphen t Ht eq_refl)
      as [Hi|[Hk|(c & r & E4 & _ & Hc)]];
      [discriminate Hi | discriminate Hk |].
    apply lowerAscii_hyphen in Hc. subst c.
    destruct (dropWhileEnd_prefix isHyphen (dropWhile isHyphen s3))
      as [dropped Hd].
    fold s4 in Hd. rewrite E4 in Hd. cbn [app] in Hd.
    now apply dropWhile_head in Hd.
  - intros t Ht.
    destruct (@toLowerCase_last s4 t hyphen Ht eq_refl)
      as [Hi|[Hk|(r & c & E5 & _ & Hc)]];
      [discriminate Hi | discriminate Hk |].
    apply lowerAscii_hyphen in Hc. subst c.
    now apply dropWhileEnd_last in E5.
Qed.

(** A name in Cyrillic between hyphens, and a Greek word that ends in a
    sigma. *)
Lemma slug_shape_witness :
  getCreatorNameSlug
    (Some (lit "- " ++ [1055; 1056; 1048; 1042; 1045; 1058]%N ++ lit "  "
           ++ [927; 916; 927; 931]%N ++ lit " -"))
  = Some ([1087; 1088; 1080; 1074; 1077; 1090]%N ++ lit "-"
          ++ [959; 948; 959; 962]%N)
  /\ forall t,
       [1087; 1088; 1080; 1074; 1077; 1090]%N ++ lit "-"
       ++ [959; 948; 959; 962]%N <> t ++ [hyphen].
Proof.
  assert (H : getCreatorNameSlug
                (Some (lit "- " ++ [1055; 1056; 1048; 1042; 1045; 1058]%N
                       ++ lit "  " ++ [927; 916; 927; 931]%N ++ lit " -"))
              = Some ([1087; 1088; 1080; 1074; 1077; 1090]%N ++ lit "-"
                      ++ [959; 948; 959; 962]%N))
    by (vm_compute; reflexivity).
  split; [exact H|].
  exact (proj2 (proj2 (slug_shape _ H))).
Defined.

Lemma punctuation_slug (n : jsstring) :
  forallb isPunctuation n = true ->
  getCreatorNameSlug (Some n)
  = if isBlank (Some n) then None else Some [].
Proof.
  intros H. destruct (isBlank (Some n)) eqn:Hb.
  { now apply getCreatorNameSlug_blank. }
  rewrite (slug_steps _ Hb).
  assert (H3 : forallb isHyphen
                 (replaceRuns [isWhiteSpace; isHyphen] [hyphen]
                    (replaceAll (replaceAll n (lit "'") [])
                       apostropheVariant [])) = true)
    by apply runs_hyphens, replaceAll_removes, replaceAll_punctuation, H.
  apply dropWhile_nil in H3. now rewrite H3.
Qed.

(** X9. Names without a letter or a digit. A non-empty name made of ASCII
    apostrophes, hyphens and whitespace only has the empty string as its
    slug, or null when it is blank; and a request that claims such a name
    under [paradox] or [local] asks the store for the accounts with this
    Creator ID, or this very name, or this slug: the accounts whose slug
    is empty, or is null. *)
Theorem names_without_letters :
  forall (n : jsstring),
    n <> [] ->
    forallb isPunctuation n = true ->
    let slug := if isBlank (Some n) then None else Some [] in
    getCreatorNameSlug (Some n) = slug
    /\ forall (World : Type) (services : Services World)
              (a : ModCreatorAuthorization) (w : World),
         authCreatorIdProvider a = Paradox
         \/ authCreatorIdProvider a = LocalProvider ->
         authCreatorName a = Some n ->
         isValidCreatorId (authCreatorId a) = true ->
         exists out rest,
           trace (authenticateCreatorForModUnsafe services a w)
           = FindManyCalled
               (WhereOr [ByCreatorId (authCreatorId a); ByCreatorName n;
                         ByCreatorNameSlug slug]) out :: rest.
Proof.
  intros n Hn Hp slug.
  pose proof (punctuation_slug n Hp) as Hslug. fold slug in Hslug.
  split; [exact Hslug|].
  intros World services a w Hprovider Hname Hvalid.
  pose proof (resolveProvider_plain services a w Hprovider) as Hplain.
  set (effective := {| effId := authCreatorId a;
                       effName := authCreatorName a; effUuid := None |})
    in Hplain.
  assert (Hwhere : searchWhere (contextOf a effective)
                   = WhereOr [ByCreatorId (authCreatorId a); ByCreatorName n;
                              ByCreatorNameSlug slug]).
  { unfold searchWhere, searchConditions, contextOf, effective.
    cbn [effectiveCreatorId effectiveCreatorName
         effectiveMinecraftPlayerUuid ctxCreatorNameSlug effId effName
         effUuid].
    rewrite Hname, Hslug. destruct n as [|c n]; [contradiction|].
    reflexivity. }
  assert (Hout : outcome (resolveProvider services a w) = Returned effective)
    by (now rewrite Hplain).
  destruct (findMany services (searchWhere (contextOf a effective))
              (final (resolveProvider services a w))) as [[creators|e] w']
    eqn:Hfind.
  - assert (Hquery : QueryReturns services a w (contextOf a effective)
                       creators w') by (now exists effective).
    rewrite (unsafe_run Hquery). cbv zeta. cbn [trace].
    rewrite Hplain. cbn [trace app]. rewrite Hwhere.
    eexists _, _. reflexivity.
  - rewrite (unsafe_query_fails services a w Hout Hvalid Hfind).
    cbn [trace]. rewrite Hplain. cbn [trace app]. rewrite Hwhere.
    eexists _, _. reflexivity.
Qed.

(** The holder of [idB] registers the name of one hyphen; the holder of
    [idA] then claims the name of one apostrophe and is told that the
    name of the first is taken. *)
Lemma names_without_letters_witness :
  getCreatorNameSlug (Some (lit "'")) = Some []
  /\ (let db := final (Examples.run claimDash (Store.quiet [])) in
      outcome (Examples.run claimTick db)
      = Thrown (IncorrectCreatorIdError (lit "-"))).
Proof.
  split.
  - apply (names_without_letters (n := lit "'")); [discriminate|].
    vm_compute. reflexivity.
  - vm_compute. reflexivity.
Defined.

(** ** [normalizeUuid] on its own results *)

Lemma lowerHex_fixed (s : jsstring) :
  forallb Uuid.isLowerHex s = true -> map lowerHex s = s.
Proof.
  induction s as [|c s IH]; simpl; [reflexivity|].
  intros H. apply andb_true_iff in H. destruct H as [Hc Hs].
  rewrite (IH Hs). f_equal. unfold lowerHex.
  destruct (in_range 65 70 c) eqn:E; [|reflexivity].
  exfalso. classes. bools. lia.
Qed.

Lemma lowerHex_isHex (s : jsstring) :
  forallb Uuid.isLowerHex s = true -> forallb Uuid.isHex s = true.
Proof.
  intros H. apply forallb_forall. intros c Hc.
  apply (proj1 (forallb_forall _ _) H) in Hc.
  unfold Uuid.isHex. now rewrite Hc.
Qed.

Lemma normalizeUuid_valid (u : jsstring) :
  Uuid.validate u = true ->
  canonical (stripHyphens u) = Some (toLowerCase u).
Proof.
  intros H.
  pose proof (validate_rebuild _ H) as Hre.
  assert (Hbare : Uuid.validate (hyphenate (stripHyphens u)) = true)
    by (now rewrite Hre).
  destruct (canonical_wellformed _ Hbare) as [_ Hcan].
  now rewrite Hcan, (validate_lowercase _ H).
Qed.

(** A result of [normalizeUuid] is well-formed, in lower case, and its
    own normal form, with or without its hyphens. *)
Lemma normalizeUuid_fixed (input u : jsstring) :
  normalizeUuid input = Returned u ->
  Uuid.validate u = true
  /\ toLowerCase u = u
  /\ normalizeUuid u = Returned u
  /\ normalizeUuid (stripHyphens u) = Returned u.
Proof.
  intros H. rewrite normalizeUuid_canonical_form in H.
  destruct (canonical (stripHyphens input)) as [v|] eqn:Hcan;
    [|discriminate].
  injection H as ->.
  destruct (canonical_inv _ Hcan) as (Hu & Hv & Hlen & Hhex & Hlow).
  assert (Hfix : toLowerCase u = u).
  { rewrite (validate_lowercase _ Hv).
    rewrite Hu at 1. rewrite stripHyphens_hyphenate.
    rewrite (stripHyphens_hex _ (lowerHex_isHex _ Hlow)).
    rewrite (toLowerCase_hex _ (lowerHex_isHex _ Hlow)).
    rewrite (lowerHex_fixed _ Hlow). now symmetry. }
  assert (Hstrip : stripHyphens (stripHyphens u) = stripHyphens u).
  { rewrite Hu, stripHyphens_hyphenate.
    rewrite (stripHyphens_hex _ (lowerHex_isHex _ Hlow)).
    now rewrite (stripHyphens_hex _ (lowerHex_isHex _ Hlow)). }
  rewrite !normalizeUuid_canonical_form, Hstrip, (normalizeUuid_valid u Hv),
    Hfix.
  now repeat split.
Qed.

(** X10. [normalizeUuid] reads its input through its hexadecimal digits
    alone: two inputs that differ in the number or the place of their
    hyphens have the same result, so that every spelling of a well-formed
    UUID with hyphens added or left out is accepted; and a result is its
    own normal form, so normalizing a stored UUID again changes
    nothing. *)
Theorem normalizeUuid_hyphens_and_results :
  (forall input u,
      Uuid.validate u = true ->
      stripHyphens input = stripHyphens u ->
      normalizeUuid input = Returned (toLowerCase u))
  /\ (forall input u,
         normalizeUuid input = Returned u ->
         normalizeUuid u = Returned u
         /\ toLowerCase u = u
         /\ normalizeUuid (stripHyphens u) = Returned u).
Proof.
  split.
  - intros input u H Hsame.
    rewrite normalizeUuid_canonical_form, Hsame.
    now rewrite (normalizeUuid_valid u H).
  - intros input u H.
    destruct (normalizeUuid_fixed input H) as (_ & Hlow & Hu & Hbare).
    now repeat split.
Qed.

(** A UUID with its hyphens in other places. *)
Lemma normalizeUuid_hyphens_and_results_witness :
  normalizeUuid (lit "069A-79F4-44E9-4726-A5BE-FCA9-0E38-AAF5")
  = Returned (lit "069a79f4-44e9-4726-a5be-fca90e38aaf5").
Proof.
  apply (proj1 normalizeUuid_hyphens_and_results
           (lit "069A-79F4-44E9-4726-A5BE-FCA9-0E38-AAF5")
           (lit "069A79F4-44E9-4726-A5BE-FCA90E38AAF5"));
    vm_compute; reflexivity.
Defined.

(** ** The provider [minecraft_offline] *)

Lemma hex_not_space (c : N) : Uuid.isHex c = true -> isWhiteSpace c = false.
Proof. intros H. unfold isWhiteSpace. classes. bools. lia. Qed.

Lemma normalized_not_blank (u x : jsstring) :
  normalizeUuid u = Returned x -> isBlank (Some u) = false.
Proof.
  rewrite normalizeUuid_canonical_form.
  destruct (canonical (stripHyphens u)) as [v|] eqn:Hcan; [|discriminate].
  intros _. destruct (canonical_inv _ Hcan) as (_ & _ & Hlen & Hhex & _).
  destruct (isBlank (Some u)) eqn:Hb; [|reflexivity].
  apply isBlank_visible, visible_nil in Hb.
  destruct (stripHyphens u) as [|c r] eqn:Hs; [discriminate Hlen|].
  assert (Hin : In c (stripHyphens u)) by (rewrite Hs; now left).
  apply filter_In in Hin. destruct Hin as [Hin _].
  apply (proj1 (forallb_forall _ _) Hb) in Hin.
  cbn [forallb] in Hhex. apply andb_true_iff in Hhex.
  destruct Hhex as [Hc _]. apply hex_not_space in Hc. congruence.
Qed.

Section Offline.

Variable World : Type.
Variable services : Services World.

Lemma resolveProvider_offline (a : ModCreatorAuthorization) (w : World) :
  authCreatorIdProvider a = MinecraftOffline ->
  resolveProvider services a w
  = {| outcome :=
         match authMinecraftPlayerUuid a with
         | None => Thrown MissingMinecraftOfflinePlayerUuidError
         | Some u =>
             match normalizeUuid u with
             | Returned x =>
                 Returned {| effId := authCreatorId a;
                             effName := authCreatorName a;
                             effUuid := Some x |}
             | Thrown _ =>
                 Thrown (if isBlank (Some u)
                         then MissingMinecraftOfflinePlayerUuidError
                         else InvalidMinecraftPlayerUuidError u)
             end
         end;
       final := w; trace := [] |}.
Proof.
  intros Hp. unfold resolveProvider. rewrite Hp.
  destruct (authMinecraftPlayerUuid a) as [u|]; [|reflexivity].
  destruct (isBlank (Some u)) eqn:Hb.
  - destruct (normalizeUuid u) as [x|e] eqn:Hn; [|reflexivity].
    apply normalized_not_blank in Hn. congruence.
  - destruct (normalizeUuid u) as [x|e] eqn:Hn; [reflexivity|].
    now rewrite (normalizeUuid_error u Hn).
Qed.

Lemma unsafe_same_resolution (a b : ModCreatorAuthorization) (w : World) :
  resolveProvider services a w = resolveProvider services b w ->
  authHwid a = authHwid b -> authIp a = authIp b ->
  authCreatorIdProvider a = authCreatorIdProvider b ->
  authenticateCreatorForModUnsafe services a w
  = authenticateCreatorForModUnsafe services b w.
Proof.
  intros Hr Hh Hi Hp. unfold authenticateCreatorForModUnsafe, bind at 1 3.
  rewrite Hr. unfold contextOf. now rewrite Hh, Hi, Hp.
Qed.

End Offline.

(** X11. Under [minecraft_offline] the service calls neither the verifier
    nor, for a bad UUID, the store: a missing or blank player UUID ends
    the request with [MissingMinecraftOfflinePlayerUuidError], any other
    value that [normalizeUuid] rejects with
    [InvalidMinecraftPlayerUuidError] carrying the value as it was
    sent, both before any call. A value that it accepts becomes the
    effective player UUID in its normal form, the Creator ID stays the
    claimed one, and two requests that differ only in the spelling of the
    same player UUID run alike. *)
Theorem offline_player_uuid :
  forall (World : Type) (services : Services World)
         (a : ModCreatorAuthorization) (w : World),
    authCreatorIdProvider a = MinecraftOffline ->
    let r := authenticateCreatorForModUnsafe services a w in
    filter isVerification (trace r) = []
    /\ (isBlank (authMinecraftPlayerUuid a) = true ->
        r = {| outcome := Thrown MissingMinecraftOfflinePlayerUuidError;
               final := w; trace := [] |})
    /\ (forall u e,
          authMinecraftPlayerUuid a = Some u ->
          isBlank (Some u) = false ->
          normalizeUuid u = Thrown e ->
          r = {| outcome := Thrown (InvalidMinecraftPlayerUuidError u);
                 final := w; trace := [] |})
    /\ (forall u x,
          authMinecraftPlayerUuid a = Some u ->
          normalizeUuid u = Returned x ->
          resolveProvider services a w
          = {| outcome := Returned {| effId := authCreatorId a;
                                      effName := authCreatorName a;
                                      effUuid := Some x |};
               final := w; trace := [] |}
          /\ Uuid.validate x = true
          /\ forall u',
               normalizeUuid u' = Returned x ->
               authenticateCreatorForModUnsafe services
                 (withPlayerUuid a (Some u')) w = r).
Proof.
  intros World services a w Hp r.
  pose proof (resolveProvider_offline services a w Hp) as Hres.
  pose proof (unsafe_stops_early services a w) as Hearly.
  split; [|split; [|split]].
  - destruct (unsafe_trace_split services a w) as (rest & Ht & Hrest).
    subst r. rewrite Ht, Hres. exact Hrest.
  - intros Hb. subst r. rewrite Hres in Hearly. cbn [outcome] in Hearly.
    destruct (authMinecraftPlayerUuid a) as [u|].
    + destruct (normalizeUuid u) as [x|e] eqn:Hn.
      * apply normalized_not_blank in Hn. congruence.
      * rewrite Hb in Hearly. rewrite Hearly. reflexivity.
    + rewrite Hearly. reflexivity.
  - intros u e Hu Hb Hn. subst r.
    rewrite Hres in Hearly. cbn [outcome] in Hearly.
    rewrite Hu, Hn, Hb in Hearly. rewrite Hearly. reflexivity.
  - intros u x Hu Hn. rewrite Hu, Hn in Hres.
    split; [exact Hres|]. split.
    + rewrite normalizeUuid_canonical_form in Hn.
      destruct (canonical (stripHyphens u)) as [v|] eqn:Hcan;
        [|discriminate].
      injection Hn as ->. now destruct (canonical_inv _ Hcan) as (_ & Hv & _).
    + intros u' Hn'. subst r. apply unsafe_same_resolution; try reflexivity.
      rewrite Hres.
      rewrite (resolveProvider_offline services
                 (withPlayerUuid a (Some u')) w Hp).
      cbn [withPlayerUuid authMinecraftPlayerUuid authCreatorId
           authCreatorName]. now rewrite Hn'.
Qed.

(** The same player, once with the UUID as the launcher prints it and
    once bare and in upper case, on the empty reference store. *)
Lemma offline_player_uuid_witness :
  Examples.run (claimOffline (Some (lit "069A79F444E94726A5BEFCA90E38AAF5")))
    (Store.quiet [])
  = Examples.run
      (claimOffline (Some (lit "069a79f4-44e9-4726-a5be-fca90e38aaf5")))
      (Store.quiet []).
Proof.
  pose proof (offline_player_uuid (Store.dbServices Store.noProfiles)
                (claimOffline
                   (Some (lit "069a79f4-44e9-4726-a5be-fca90e38aaf5")))
                (Store.quiet []) eq_refl) as H.
  cbv zeta in H. destruct H as (_ & _ & _ & H).
  destruct (H (lit "069a79f4-44e9-4726-a5be-fca90e38aaf5")
              (lit "069a79f4-44e9-4726-a5be-fca90e38aaf5")
              eq_refl ltac:(vm_compute; reflexivity)) as (_ & _ & Hsame).
  specialize (Hsame (lit "069A79F444E94726A5BEFCA90E38AAF5")
                ltac:(vm_compute; reflexivity)).
  unfold Examples.run, authenticateCreatorForMod.
  change (claimOffline (Some (lit "069A79F444E94726A5BEFCA90E38AAF5")))
    with (withPlayerUuid
            (claimOffline
               (Some (lit "069a79f4-44e9-4726-a5be-fca90e38aaf5")))
            (Some (lit "069A79F444E94726A5BEFCA90E38AAF5"))).
  unfold tryCatch. rewrite Hsame. reflexivity.
Defined.

(** ** [verifyOfficialAccount] *)

Lemma dropWhile_fixed (p : N -> bool) (s : jsstring) :
  dropWhile p (dropWhile p s) = dropWhile p s.
Proof.
  destruct (dropWhile p s) as [|c r] eqn:E; [reflexivity|].
  apply dropWhile_head in E. simpl. now rewrite E.
Qed.

(** [trim] leaves a trimmed string as it is. *)
Lemma trim_trimmed (s : jsstring) : trim (trim s) = trim s.
Proof.
  unfold trim, dropWhileEnd.
  set (d := dropWhile isWhiteSpace s).
  set (e := dropWhile isWhiteSpace (rev d)).
  assert (He : dropWhile isWhiteSpace (rev e) = rev e).
  { destruct (rev e) as [|c r] eqn:Er; [reflexivity|].
    destruct (dropWhileEnd_prefix isWhiteSpace d) as [dropped Hd].
    unfold dropWhileEnd in Hd. fold e in Hd. rewrite Er in Hd.
    cbn [app] in Hd. apply dropWhile_head in Hd.
    simpl. now rewrite Hd. }
  rewrite He, rev_involutive. unfold e. now rewrite dropWhile_fixed.
Qed.

Section Profile.

Variable Num : Type.

Lemma profileOf_error (result : MinecraftAuth.FetchResult Num) (e : Error) :
  MinecraftAuth.profileOf result = Thrown e ->
  exists m, e = MinecraftAuthThrown m.
Proof.
  unfold MinecraftAuth.profileOf.
  destruct result as [|status body]; [intros [= <-]; eauto|].
  destruct (N.eqb status 401 || N.eqb status 403); [intros [= <-]; eauto|].
  destruct (negb (MinecraftAuth.ok status)); [intros [= <-]; eauto|].
  destruct body as [payload|]; [|intros [= <-]; eauto].
  destruct payload as [|b|n|s|items|members];
    try (intros [= <-]; eauto; fail).
  destruct (MinecraftAuth.member (lit "id") (MinecraftAuth.JObject members))
    as [[|b|n|[|c rest]|items|members']|];
    try (intros [= <-]; eauto; fail).
  destruct (normalizeUuid (c :: rest)) as [x|err] eqn:Hn; [discriminate|].
  rewrite (normalizeUuid_error (c :: rest) Hn). intros [= <-]. eauto.
Qed.

Lemma profileOf_returned (result : MinecraftAuth.FetchResult Num)
  (p : MinecraftOfficialProfile) :
  MinecraftAuth.profileOf result = Returned p ->
  exists status payload id,
    result = MinecraftAuth.Fetched status (Some payload)
    /\ MinecraftAuth.ok status = true
    /\ MinecraftAuth.member (lit "id") payload
       = Some (MinecraftAuth.JString id)
    /\ normalizeUuid id = Returned (profileUuid p)
    /\ profileUsername p
       = match MinecraftAuth.member (lit "name") payload with
         | Some (MinecraftAuth.JString name) =>
             match trim name with
             | [] => None
             | trimmed => Some trimmed
             end
         | _ => None
         end.
Proof.
  unfold MinecraftAuth.profileOf.
  destruct result as [|status body]; [discriminate|].
  destruct (N.eqb status 401 || N.eqb status 403); [discriminate|].
  destruct (MinecraftAuth.ok status) eqn:Hok; cbn [negb]; [|discriminate].
  destruct body as [payload|]; [|discriminate].
  destruct payload as [|b|n|s|items|members]; try discriminate.
  destruct (MinecraftAuth.member (lit "id") (MinecraftAuth.JObject members))
    as [[|b|n|[|c rest]|items|members']|] eqn:Hid; try discriminate.
  destruct (normalizeUuid (c :: rest)) as [x|err] eqn:Hn; [|discriminate].
  intros [= <-]. exists status, (MinecraftAuth.JObject members), (c :: rest).
  cbn [profileUuid profileUsername]. now repeat split.
Qed.

End Profile.

(** X12. What [verifyOfficialAccount] makes of the answer of the profile
    service. Every failure is a [MinecraftAuthError]: the status 401 or
    403 is an invalid access token whatever the body says, any other
    status outside 200 to 299 is a request error that carries the status.
    A profile comes only from a response with a status from 200 to 299
    whose body is an object with a string [id] that [normalizeUuid]
    accepts; its UUID is well-formed and in normal form, and its
    username is null or a non-empty string without whitespace at either
    end. *)
Theorem profile_of_a_response :
  forall (Num : Type),
    (forall (result : MinecraftAuth.FetchResult Num) e,
        MinecraftAuth.profileOf result = Thrown e ->
        exists m, e = MinecraftAuthThrown m)
    /\ (forall status (body : option (MinecraftAuth.Json Num)),
          status = 401%N \/ status = 403%N ->
          MinecraftAuth.profileOf (MinecraftAuth.Fetched status body)
          = Thrown (MinecraftAuthThrown MinecraftAuthInvalidAccessTokenError))
    /\ (forall status (body : option (MinecraftAuth.Json Num)),
          (status < 200 \/ 299 < status)%N ->
          status <> 401%N -> status <> 403%N ->
          MinecraftAuth.profileOf (MinecraftAuth.Fetched status body)
          = Thrown (MinecraftAuthThrown (MinecraftAuth.unexpectedStatus status))
          /\ exists message,
               MinecraftAuth.unexpectedStatus status
               = MinecraftAuthRequestError message (Some status))
    /\ (forall (result : MinecraftAuth.FetchResult Num) p,
          MinecraftAuth.profileOf result = Returned p ->
          (exists status payload id,
              result = MinecraftAuth.Fetched status (Some payload)
              /\ (200 <= status <= 299)%N
              /\ MinecraftAuth.member (lit "id") payload
                 = Some (MinecraftAuth.JString id)
              /\ normalizeUuid id = Returned (profileUuid p))
          /\ Uuid.validate (profileUuid p) = true
          /\ normalizeUuid (profileUuid p) = Returned (profileUuid p)
          /\ match profileUsername p with
             | None => True
             | Some username => username <> [] /\ trim username = username
             end).
Proof.
  intros Num. split; [|split; [|split]].
  - intros result e. apply profileOf_error.
  - intros status body [-> | ->]; reflexivity.
  - intros status body Hrange H401 H403.
    unfold MinecraftAuth.profileOf.
    apply N.eqb_neq in H401, H403. rewrite H401, H403. cbn [orb].
    assert (Hok : MinecraftAuth.ok status = false).
    { unfold MinecraftAuth.ok, in_range. bools. lia. }
    rewrite Hok. cbn [negb]. split; [reflexivity|]. eexists. reflexivity.
  - intros result p H.
    destruct (profileOf_returned result H)
      as (status & payload & id & -> & Hok & Hid & Hn & Hname).
    split.
    { exists status, payload, id. repeat split; try assumption;
        unfold MinecraftAuth.ok, in_range in Hok; bools; lia. }
    destruct (normalizeUuid_fixed id Hn) as (Hvalid & _ & Hfix & _).
    split; [exact Hvalid|]. split; [exact Hfix|].
    rewrite Hname.
    destruct (MinecraftAuth.member (lit "name") payload)
      as [[|b|n|name|items|members']|]; try exact I.
    destruct (trim name) as [|c r] eqn:Ht; [exact I|].
    split; [discriminate|]. rewrite <- Ht. apply trim_trimmed.
Qed.

(** The profile service answers with an upper-case bare UUID and a name
    between two spaces. *)
Lemma profile_of_a_response_witness :
  MinecraftAuth.profileOf notchResponse
  = Returned {| profileUuid := lit "069a79f4-44e9-4726-a5be-fca90e38aaf5";
                profileUsername := Some (lit "Notch") |}
  /\ Uuid.validate (lit "069a79f4-44e9-4726-a5be-fca90e38aaf5") = true.
Proof.
  assert (H : MinecraftAuth.profileOf notchResponse
              = Returned
                  {| profileUuid := lit "069a79f4-44e9-4726-a5be-fca90e38aaf5";
                     profileUsername := Some (lit "Notch") |})
    by (vm_compute; reflexivity).
  split; [exact H|].
  exact (proj1 (proj2 (proj2 (proj2 (proj2 (profile_of_a_response unit)))
                         _ _ H))).
Defined.

(** ** The provider [minecraft_official] *)

Section Official.

Variables World Num : Type.
Variable http : MinecraftAuth.Http World Num.
Variable services : Services World.

#[local] Abbreviation verified := (MinecraftAuth.withVerifier http services).

Lemma resolveProvider_official (a : ModCreatorAuthorization) (w : World)
  (token : jsstring) :
  authCreatorIdProvider a = MinecraftOfficial ->
  minecraftAccessToken a = Some token ->
  isBlank (Some token) = false ->
  resolveProvider verified a w
  = let (result, w1) := MinecraftAuth.fetchProfile http token w in
    let out := MinecraftAuth.profileOf result in
    {| outcome :=
         match out with
         | Returned profile =>
             Returned
               {| effId := profileUuid profile;
                  effName := if negb (truthy (authCreatorName a))
                                && truthy (profileUsername profile)
                             then profileUsername profile
                             else authCreatorName a;
                  effUuid := Some (profileUuid profile) |}
         | Thrown (MinecraftAuthThrown cause) =>
             Thrown (MinecraftOfficialAuthenticationError cause)
         | Thrown error => Thrown error
         end;
       final := w1;
       trace := [VerifyOfficialAccountCalled token out] |}.
Proof.
  intros Hp Ht Hb. unfold resolveProvider. rewrite Hp, Ht, Hb.
  unfold tryCatch, bind, minecraftAuthVerifyOfficialAccount.
  cbn [verifyOfficialAccount MinecraftAuth.withVerifier].
  unfold MinecraftAuth.verifyOfficialAccount.
  destruct (MinecraftAuth.fetchProfile http token w) as [result w1].
  cbv zeta.
  destruct (MinecraftAuth.profileOf result) as [profile|e];
    cbn [outcome final trace ret app]; [reflexivity|].
  destruct e; reflexivity.
Qed.

Lemma resolveProvider_ignores_id (a : ModCreatorAuthorization) (w : World)
  (value : jsstring) :
  authCreatorIdProvider a = MinecraftOfficial ->
  resolveProvider services (withCreatorId a value) w
  = resolveProvider services a w.
Proof.
  intros Hp. unfold resolveProvider.
  cbn [withCreatorId authCreatorIdProvider minecraftAccessToken
       authCreatorName]. now rewrite Hp.
Qed.

End Official.

(** X13. Under [minecraft_official], with [verifyOfficialAccount] as the
    verifier. A missing or blank access token ends the request with
    [MissingMinecraftOfficialAccessTokenError] before any call. Any other
    token goes to the profile service once, as it was sent; whatever goes
    wrong there ends the request with
    [MinecraftOfficialAuthenticationError] around the cause, and the
    store is not called. From a profile, the player's UUID in normal form
    is both the effective Creator ID and the effective player UUID, and
    the profile's username is the effective name when the request has
    none or an empty one and the profile has one; a UUID that is not of version 4 ends the request with
    [InvalidCreatorIdError] before the store is called. The Creator ID of
    the request plays no part. *)
Theorem official_account :
  forall (World Num : Type) (http : MinecraftAuth.Http World Num)
         (services : Services World)
         (a : ModCreatorAuthorization) (w : World),
    authCreatorIdProvider a = MinecraftOfficial ->
    let verified := MinecraftAuth.withVerifier http services in
    let r := authenticateCreatorForModUnsafe verified a w in
    (isBlank (minecraftAccessToken a) = true ->
     r = {| outcome := Thrown MissingMinecraftOfficialAccessTokenError;
            final := w; trace := [] |})
    /\ (forall token,
          minecraftAccessToken a = Some token ->
          isBlank (Some token) = false ->
          let (result, w1) := MinecraftAuth.fetchProfile http token w in
          match MinecraftAuth.profileOf result with
          | Thrown e =>
              exists cause,
                e = MinecraftAuthThrown cause
                /\ r = {| outcome :=
                            Thrown (MinecraftOfficialAuthenticationError cause);
                          final := w1;
                          trace := [VerifyOfficialAccountCalled token
                                      (Thrown e)] |}
          | Returned profile =>
              let effective :=
                {| effId := profileUuid profile;
                   effName := if negb (truthy (authCreatorName a))
                                 && truthy (profileUsername profile)
                              then profileUsername profile
                              else authCreatorName a;
                   effUuid := Some (profileUuid profile) |} in
              resolveProvider verified a w
              = {| outcome := Returned effective; final := w1;
                   trace := [VerifyOfficialAccountCalled token
                               (Returned profile)] |}
              /\ normalizeUuid (profileUuid profile)
                 = Returned (profileUuid profile)
              /\ (isValidCreatorId (profileUuid profile) = false ->
                  r = {| outcome :=
                           Thrown (InvalidCreatorIdError (profileUuid profile));
                         final := w1;
                         trace := [VerifyOfficialAccountCalled token
                                     (Returned profile)] |})
          end)
    /\ (forall value,
          authenticateCreatorForModUnsafe verified (withCreatorId a value) w
          = r).
Proof.
  intros World Num http services a w Hp verified r. subst verified.
  pose proof (unsafe_stops_early (MinecraftAuth.withVerifier http services)
                a w) as Hearly.
  split; [|split].
  - intros Hb. subst r.
    assert (Hres : resolveProvider (MinecraftAuth.withVerifier http services)
                     a w
                   = {| outcome :=
                          Thrown MissingMinecraftOfficialAccessTokenError;
                        final := w; trace := [] |}).
    { unfold resolveProvider. now rewrite Hp, Hb. }
    rewrite Hres in Hearly. exact Hearly.
  - intros token Ht Hb.
    pose proof (resolveProvider_official http services a w Hp Ht Hb) as Hres.
    destruct (MinecraftAuth.fetchProfile http token w) as [result w1].
    cbv zeta in Hres.
    destruct (MinecraftAuth.profileOf result) as [profile|e] eqn:Hprofile.
    + cbv zeta.
      split; [exact Hres|]. split.
      { destruct (profileOf_returned result Hprofile)
          as (status & payload & id & _ & _ & _ & Hn & _).
        now destruct (normalizeUuid_fixed id Hn) as (_ & _ & Hfix & _). }
      intros Hvalid. subst r. rewrite Hres in Hearly.
      cbn [outcome final trace effId] in Hearly. exact (Hearly Hvalid).
    + destruct (profileOf_error result Hprofile) as [cause ->].
      exists cause. split; [reflexivity|].
      subst r. rewrite Hres in Hearly. exact Hearly.
  - intros value. subst r. apply unsafe_same_resolution; try reflexivity.
    now apply resolveProvider_ignores_id.
Qed.

(** A token that the profile service does not know. *)
Lemma official_account_witness :
  outcome (authenticateCreatorForModUnsafe
             (MinecraftAuth.withVerifier oneToken
                (Store.dbServices Store.noProfiles))
             (claimOfficial "wrong") (Store.quiet []))
  = Thrown (MinecraftOfficialAuthenticationError
              MinecraftAuthInvalidAccessTokenError).
Proof.
  pose proof (official_account oneToken (Store.dbServices Store.noProfiles)
                (claimOfficial "wrong") (Store.quiet []) eq_refl) as H.
  cbv zeta in H. destruct H as (_ & H & _).
  specialize (H (lit "wrong") eq_refl eq_refl).
  remember (authenticateCreatorForModUnsafe _ _ _) as r eqn:Hr in H |- *.
  vm_compute in H. destruct H as (cause & Hcause & ->).
  injection Hcause as <-. reflexivity.
Defined.

(** ** The fields of an upload *)

Lemma decimalValue_from (acc : Z) (digits : jsstring) :
  (0 <= acc)%Z ->
  (0 <= fold_left (fun acc d => 10 * acc + Z.of_N (d - 48)) digits acc)%Z.
Proof.
  revert acc. induction digits as [|d digits IH]; intros acc H;
    cbn [fold_left]; [exact H|].
  apply IH. pose proof (N2Z.is_nonneg (d - 48)). lia.
Qed.

Lemma decimalValue_nonneg (digits : jsstring) :
  (0 <= Upload.decimalValue digits)%Z.
Proof. apply decimalValue_from. lia. Qed.

Lemma takeWhile_digits (digits rest : jsstring) :
  forallb Upload.isDecimalDigit digits = true ->
  match rest with
  | [] => True
  | c :: _ => Upload.isDecimalDigit c = false
  end ->
  Upload.takeWhile Upload.isDecimalDigit (digits ++ rest) = digits.
Proof.
  intros Hd Hr. induction digits as [|d digits IH]; simpl.
  - destruct rest as [|c rest]; [reflexivity|]. simpl. now rewrite Hr.
  - simpl in Hd. apply andb_true_iff in Hd. destruct Hd as [Hd Hds].
    rewrite Hd. f_equal. now apply IH.
Qed.

Lemma dropWhile_app (p : N -> bool) (blank s : jsstring) :
  forallb p blank = true -> dropWhile p (blank ++ s) = dropWhile p s.
Proof.
  induction blank as [|c blank IH]; simpl; [reflexivity|].
  intros H. apply andb_true_iff in H. destruct H as [Hc Hb].
  rewrite Hc. now apply IH.
Qed.

Lemma digit_plain (d : N) :
  Upload.isDecimalDigit d = true ->
  isWhiteSpace d = false /\ d <> 45%N /\ d <> 43%N.
Proof.
  unfold Upload.isDecimalDigit, isWhiteSpace, in_range. bools. lia.
Qed.

Lemma parseInt_unsigned (d : N) (s : jsstring) :
  isWhiteSpace d = false -> d <> 45%N -> d <> 43%N ->
  Upload.parseInt (d :: s)
  = match Upload.takeWhile Upload.isDecimalDigit (d :: s) with
    | [] => None
    | digits => Some (Upload.decimalValue digits)
    end.
Proof.
  intros Hw Hminus Hplus. unfold Upload.parseInt.
  cbn [dropWhile]. rewrite Hw.
  destruct d as [|p]; [reflexivity|].
  do 6 (destruct p as [p|p|]; try reflexivity); congruence.
Qed.

Lemma parseInt_digits (blank digits rest : jsstring) :
  forallb isWhiteSpace blank = true ->
  digits <> [] ->
  forallb Upload.isDecimalDigit digits = true ->
  match rest with
  | [] => True
  | c :: _ => Upload.isDecimalDigit c = false
  end ->
  Upload.parseInt (blank ++ digits ++ rest)
  = Some (Upload.decimalValue digits)
  /\ Upload.parseInt (blank ++ 43%N :: digits ++ rest)
     = Some (Upload.decimalValue digits)
  /\ Upload.parseInt (blank ++ 45%N :: digits ++ rest)
     = Some (- Upload.decimalValue digits)%Z.
Proof.
  intros Hb Hn Hd Hr.
  pose proof (takeWhile_digits digits rest Hd Hr) as Htake.
  destruct digits as [|d digits]; [contradiction|].
  pose proof Hd as Hd'. cbn [forallb] in Hd'.
  apply andb_true_iff in Hd'. destruct Hd' as [Hd0 _].
  destruct (digit_plain d Hd0) as (Hw & Hminus & Hplus).
  repeat split.
  - unfold Upload.parseInt at 1. rewrite dropWhile_app by exact Hb.
    fold (Upload.parseInt ((d :: digits) ++ rest)).
    cbn [app]. rewrite (parseInt_unsigned _ Hw Hminus Hplus).
    change (d :: digits ++ rest) with ((d :: digits) ++ rest).
    now rewrite Htake.
  - unfold Upload.parseInt. rewrite dropWhile_app by exact Hb.
    cbn [dropWhile]. change (isWhiteSpace 43) with false. cbn iota.
    cbn [fst snd]. now rewrite Htake.
  - unfold Upload.parseInt. rewrite dropWhile_app by exact Hb.
    cbn [dropWhile]. change (isWhiteSpace 45) with false. cbn iota.
    cbn [fst snd]. now rewrite Htake.
Qed.

(** X14. [validateMilestone] and [validatePopulation] read a number as
    [Number.parseInt] does. What they accept lies between 0 and 20, and
    between 0 and 5000000. After optional whitespace and an optional
    [+], the leading decimal digits are the number and whatever follows
    them is ignored, so that a text with digits and then anything else
    is accepted when the digits are in range; with a [-] the text is
    rejected as soon as one of the digits is not a zero. *)
Theorem numbers_are_read_leniently :
  (forall text v,
      Upload.validateMilestone text = Upload.Accepted v -> (0 <= v <= 20)%Z)
  /\ (forall text v,
        Upload.validatePopulation text = Upload.Accepted v ->
        (0 <= v <= 5000000)%Z)
  /\ (forall max message blank digits rest,
        forallb isWhiteSpace blank = true ->
        digits <> [] ->
        forallb Upload.isDecimalDigit digits = true ->
        match rest with
        | [] => True
        | c :: _ => Upload.isDecimalDigit c = false
        end ->
        let value := Upload.decimalValue digits in
        ((value <= max)%Z ->
         Upload.validateBounded max message (blank ++ digits ++ rest)
         = Upload.Accepted value
         /\ Upload.validateBounded max message
              (blank ++ 43%N :: digits ++ rest)
            = Upload.Accepted value)
        /\ ((max < value)%Z ->
            Upload.validateBounded max message (blank ++ digits ++ rest)
            = Upload.Rejected (Upload.InvalidPayloadError (lit message)))
        /\ ((0 < value)%Z ->
            Upload.validateBounded max message
              (blank ++ 45%N :: digits ++ rest)
            = Upload.Rejected (Upload.InvalidPayloadError (lit message)))).
Proof.
  assert (Hrange : forall max message text v,
            Upload.validateBounded max message text = Upload.Accepted v ->
            (0 <= v <= max)%Z).
  { intros max message text v. unfold Upload.validateBounded.
    destruct (Upload.parseInt text) as [parsed|]; [|discriminate].
    destruct (Z.ltb parsed 0) eqn:E0; [discriminate|].
    destruct (Z.ltb max parsed) eqn:E1; [discriminate|].
    cbn [orb]. intros [= <-].
    apply Z.ltb_ge in E0, E1. lia. }
  split; [|split].
  - intros text v. apply Hrange.
  - intros text v. apply Hrange.
  - intros max message blank digits rest Hb Hn Hd Hr value.
    destruct (@parseInt_digits blank digits rest Hb Hn Hd Hr)
      as (Hplain & Hplus & Hminus).
    pose proof (decimalValue_nonneg digits) as Hpos. fold value in Hpos.
    unfold Upload.validateBounded. rewrite Hplain, Hplus, Hminus.
    fold value. split; [|split].
    + intros Hle.
      assert (E0 : Z.ltb value 0 = false) by (apply Z.ltb_ge; lia).
      assert (E1 : Z.ltb max value = false) by (apply Z.ltb_ge; lia).
      rewrite E0, E1. now split.
    + intros Hgt.
      assert (E1 : Z.ltb max value = true) by (apply Z.ltb_lt; lia).
      rewrite E1, orb_true_r. reflexivity.
    + intros Hgt.
      assert (E0 : Z.ltb (- value) 0 = true) by (apply Z.ltb_lt; lia).
      now rewrite E0.
Qed.

(** A milestone followed by a word, and a population with a fraction. *)
Lemma numbers_are_read_leniently_witness :
  Upload.validateMilestone (lit " 12th") = Upload.Accepted 12%Z
  /\ Upload.validatePopulation (lit "2500.75") = Upload.Accepted 2500%Z.
Proof.
  split.
  - refine (proj1 (proj1 (proj2 (proj2 numbers_are_read_leniently)
                            20%Z _ (lit " ") (lit "12") (lit "th")
                            eq_refl _ eq_refl eq_refl) _)).
    + discriminate.
    + vm_compute. discriminate.
  - refine (proj1 (proj1 (proj2 (proj2 numbers_are_read_leniently)
                            5000000%Z _ [] (lit "2500") (lit ".75")
                            eq_refl _ eq_refl eq_refl) _)).
    + discriminate.
    + vm_compute. discriminate.
Defined.

Lemma trim_blank (raw : jsstring) :
  trim raw = [] <-> isBlank (Some raw) = true.
Proof. unfold isBlank. destruct (trim raw); split; congruence. Qed.

(** X15. [getMultipartString] gives a value only for a field that came
    as one value part, and the value is the trimmed text of the part,
    never empty. A field that is absent, a file, or sent several times
    is an error when the field is required and no value when it is
    optional; a field whose text is blank is an error even when it is
    optional. Every error is an [InvalidPayloadError]. *)
Theorem multipart_strings :
  forall (fields : jsstring -> option Upload.Field) (fieldName : jsstring)
         (strict : bool),
    match Upload.getMultipartString fields fieldName strict with
    | Upload.Accepted (Some value) =>
        value <> [] /\ trim value = value
        /\ exists raw, fields fieldName = Some (Upload.ValuePart raw)
                       /\ value = trim raw
    | Upload.Accepted None =>
        strict = false
        /\ forall raw, fields fieldName <> Some (Upload.ValuePart raw)
    | Upload.Rejected e =>
        (exists message, e = Upload.InvalidPayloadError message)
        /\ (strict = true
            \/ exists raw, fields fieldName = Some (Upload.ValuePart raw)
                           /\ isBlank (Some raw) = true)
    end.
Proof.
  intros fields fieldName strict. unfold Upload.getMultipartString.
  destruct (fields fieldName) as [[|raw|]|].
  - destruct strict; cbn [negb].
    + split; [eauto|now left].
    + split; [reflexivity|discriminate].
  - destruct (trim raw) as [|c r] eqn:Ht.
    + split; [eauto|]. right. exists raw. split; [reflexivity|].
      now apply trim_blank.
    + split; [discriminate|]. split.
      * rewrite <- Ht. apply trim_trimmed.
      * exists raw. now split.
  - destruct strict; cbn [negb].
    + split; [eauto|now left].
    + split; [reflexivity|discriminate].
  - destruct strict; cbn [negb].
    + split; [eauto|now left].
    + split; [reflexivity|discriminate].
Qed.

Lemma codePoints_step (hi lo : N) (r : jsstring) :
  Upload.codePoints (hi :: lo :: r)
  = if Upload.isLeadSurrogate hi && Upload.isTrailSurrogate lo
    then (65536 + (hi - 55296) * 1024 + (lo - 56320))%N :: Upload.codePoints r
    else hi :: Upload.codePoints (lo :: r).
Proof. reflexivity. Qed.

Lemma codePoints_bounds (n : nat) (s : jsstring) :
  List.length s <= n ->
  List.length (Upload.codePoints s) <= List.length s
  /\ List.length s <= 2 * List.length (Upload.codePoints s).
Proof.
  revert s. induction n as [|n IH]; intros s Hn.
  - destruct s; [simpl; lia | simpl in Hn; lia].
  - destruct s as [|hi [|lo r]]; [simpl; lia | simpl; lia |].
    rewrite codePoints_step.
    destruct (Upload.isLeadSurrogate hi && Upload.isTrailSurrogate lo).
    + assert (Hr : List.length r <= n) by (simpl in Hn; lia).
      destruct (IH r Hr). cbn [List.length]. lia.
    + assert (Hr : List.length (lo :: r) <= n) by (simpl in *; lia).
      destruct (IH (lo :: r) Hr) as [H1 H2].
      set (points := Upload.codePoints (lo :: r)) in *.
      cbn [List.length] in *. lia.
Qed.

Lemma required_string (fields : jsstring -> option Upload.Field)
  (fieldName value : jsstring) :
  Upload.getRequiredString fields fieldName = Upload.Accepted value ->
  value <> [] /\ trim value = value
  /\ exists raw, fields fieldName = Some (Upload.ValuePart raw)
                 /\ value = trim raw.
Proof.
  unfold Upload.getRequiredString, Upload.andThen,
    Upload.getMultipartString.
  destruct (fields fieldName) as [[|raw|]|]; try discriminate.
  destruct (trim raw) as [|c r] eqn:Ht; [discriminate|].
  intros [= <-]. split; [discriminate|]. split.
  - rewrite <- Ht. apply trim_trimmed.
  - exists raw. now split.
Qed.

Section Fields.

Variable isLetter : N -> bool.
Variable isNumber : N -> bool.

(** X16. The required fields of an upload. When [upload] has read the
    city name, the milestone and the population, the city name is the
    trimmed text of its field; it has from 1 to 35 code points, each a
    letter, a number or one of the seven permitted marks, so at most 70
    code units; the milestone lies between 0 and 20 and the population
    between 0 and 5000000. The city name is read first: when its field
    is missing that is the error, whatever the other fields hold. *)
Theorem required_fields_of_an_upload :
  forall (fields : jsstring -> option Upload.Field),
    (forall r,
        Upload.requiredFields isLetter isNumber fields = Upload.Accepted r ->
        (exists raw, fields (lit "cityName") = Some (Upload.ValuePart raw)
                     /\ Upload.cityName r = trim raw)
        /\ trim (Upload.cityName r) = Upload.cityName r
        /\ 1 <= List.length (Upload.codePoints (Upload.cityName r)) <= 35
        /\ 1 <= List.length (Upload.cityName r) <= 70
        /\ forallb (Upload.cityNameCharacter isLetter isNumber)
             (Upload.codePoints (Upload.cityName r)) = true
        /\ (0 <= Upload.cityMilestone r <= 20)%Z
        /\ (0 <= Upload.cityPopulation r <= 5000000)%Z)
    /\ (fields (lit "cityName") = None ->
        Upload.requiredFields isLetter isNumber fields
        = Upload.Rejected
            (Upload.InvalidPayloadError
               (lit "Expected a multipart field named 'cityName'."))).
Proof.
  intros fields. split.
  - intros r. unfold Upload.requiredFields.
    destruct (Upload.getRequiredString fields (lit "cityName"))
      as [name|e] eqn:Hname; cbn [Upload.andThen]; [|discriminate].
    unfold Upload.validateCityName at 1.
    destruct (Upload.matchesCityName isLetter isNumber name) eqn:Hmatch;
      cbn [negb Upload.andThen]; [|discriminate].
    destruct (Upload.getRequiredString fields (lit "cityMilestone"))
      as [milestone|e] eqn:Hm; cbn [Upload.andThen]; [|discriminate].
    destruct (Upload.validateMilestone milestone) as [m|e] eqn:Hvm;
      cbn [Upload.andThen]; [|discriminate].
    destruct (Upload.getRequiredString fields (lit "cityPopulation"))
      as [population|e] eqn:Hp; cbn [Upload.andThen]; [|discriminate].
    destruct (Upload.validatePopulation population) as [q|e] eqn:Hvp;
      cbn [Upload.andThen]; [|discriminate].
    intros [= <-].
    cbn [Upload.cityName Upload.cityMilestone Upload.cityPopulation].
    destruct (required_string fields (lit "cityName") Hname)
      as (_ & Htrim & Hraw).
    unfold Upload.matchesCityName in Hmatch.
    apply andb_true_iff in Hmatch. destruct Hmatch as [Hlen Hall].
    apply andb_true_iff in Hlen. destruct Hlen as [Hlo Hhi].
    apply Nat.leb_le in Hlo, Hhi.
    destruct (codePoints_bounds (n := List.length name) name (le_n _))
      as [Hle Hge].
    split; [exact Hraw|]. split; [exact Htrim|].
    split; [lia|]. split; [lia|]. split; [exact Hall|].
    split.
    + revert Hvm. unfold Upload.validateMilestone, Upload.validateBounded.
      destruct (Upload.parseInt milestone) as [parsed|]; [|discriminate].
      destruct (Z.ltb parsed 0) eqn:E0; [discriminate|].
      destruct (Z.ltb 20 parsed) eqn:E1; [discriminate|].
      cbn [orb]. intros [= <-]. apply Z.ltb_ge in E0, E1. lia.
    + revert Hvp. unfold Upload.validatePopulation, Upload.validateBounded.
      destruct (Upload.parseInt population) as [parsed|]; [|discriminate].
      destruct (Z.ltb parsed 0) eqn:E0; [discriminate|].
      destruct (Z.ltb 5000000 parsed) eqn:E1; [discriminate|].
      cbn [orb]. intros [= <-]. apply Z.ltb_ge in E0, E1. lia.
  - intros Hnone. unfold Upload.requiredFields, Upload.getRequiredString,
      Upload.getMultipartString.
    rewrite Hnone. reflexivity.
Qed.

End Fields.

(** A form whose city name comes with spaces around it. *)
Lemma required_fields_of_an_upload_witness :
  (exists raw,
      Upload.form [("cityName", " Saint-Malo "); ("cityMilestone", "12");
                   ("cityPopulation", "2500")]%string (lit "cityName")
      = Some (Upload.ValuePart raw)
      /\ lit "Saint-Malo" = trim raw)
  /\ trim (lit "Saint-Malo") = lit "Saint-Malo".
Proof.
  assert (H : Upload.requiredFields Upload.asciiLetter Upload.isDecimalDigit
                (Upload.form [("cityName", " Saint-Malo ");
                              ("cityMilestone", "12");
                              ("cityPopulation", "2500")]%string)
              = Upload.Accepted
                  {| Upload.cityName := lit "Saint-Malo";
                     Upload.cityMilestone := 12;
                     Upload.cityPopulation := 2500 |})
    by (vm_compute; reflexivity).
  destruct (proj1 (required_fields_of_an_upload Upload.asciiLetter
                     Upload.isDecimalDigit _) _ H) as (Hraw & Htrim & _).
  split; [exact Hraw | exact Htrim].
Defined.

(** ** The writes of a request *)

Section Writes.

Variable World : Type.
Variable services : Services World.

Lemma validName_bound (name validName : option jsstring) :
  validateCreatorName name = Returned validName -> withinBound validName.
Proof.
  intros H. pose proof (validateCreatorName_bound name) as Hb.
  rewrite H in Hb. destruct validName as [n|]; [|exact I].
  now destruct Hb.
Qed.

Lemma disambiguate_writes (context : CreatorContext)
  (creators : list Creator) (w : World) (ev : Event) :
  In ev (trace (disambiguate services context creators w)) ->
  isWrite ev = true ->
  Justified context creators ev.
Proof.
  destruct creators as [|creator [|second more]].
  - change (disambiguate services context [] w)
      with (createCreator services context w).
    destruct (validateCreatorName (effectiveCreatorName context))
      as [validName|e] eqn:Hname.
    + pose proof (createCreator_writes services context w Hname) as H.
      cbv zeta in H. fold (createOf context validName) in H.
      destruct (create services (createOf context validName) w)
        as [out w'].
      rewrite H. cbn [trace]. intros [<-|Hin] Hw.
      * split; [reflexivity|]. exists validName.
        split; [exact Hname|]. split; [|reflexivity].
        exact (validName_bound _ Hname).
      * destruct out as [c|e]; [|contradiction].
        destruct Hin as [<-|[]]. discriminate.
    + destruct (createCreator_invalid services context w Hname) as [-> _].
      contradiction.
  - change (disambiguate services context [creator] w)
      with (updateCreator services creator context w).
    destruct (creatorIdMismatch context creator) eqn:Hmis.
    { rewrite (updateCreator_rejects services creator context w Hmis).
      contradiction. }
    destruct (modified context creator) eqn:Hmod.
    2:{ rewrite (updateCreator_unchanged services creator context w Hmod).
        contradiction. }
    destruct (nameToWrite context creator) as [validName|e] eqn:Hname.
    2:{ rewrite (updateCreator_invalid services creator context w
                   Hmis Hmod Hname). contradiction. }
    pose proof (updateCreator_writes services creator context w
                  Hmis Hmod Hname) as H.
    cbv zeta in H.
    destruct (update services (id creator) _ w) as [out w'].
    rewrite H. cbn [trace]. intros [<-|Hin] Hw.
    + exists creator, validName. repeat split; try assumption.
      unfold nameToWrite in Hname.
      destruct (opt_eqb (creatorName creator) (effectiveCreatorName context))
        eqn:E.
      * left. apply opt_eqb_eq in E. congruence.
      * right. exact (validName_bound _ Hname).
    + destruct out as [updated|e]; [|contradiction].
      destruct (negb (opt_eqb (creatorName updated) (creatorName creator)));
        [|contradiction].
      destruct Hin as [<-|[]]. discriminate.
  - assert (Hge : 2 <= List.length (creator :: second :: more))
      by (simpl; lia).
    destruct (disambiguate_several services context
                (creator :: second :: more) w Hge) as (e & -> & _).
    contradiction.
Qed.

Lemma unsafe_writes (a : ModCreatorAuthorization) (w : World) (ev : Event) :
  In ev (trace (authenticateCreatorForModUnsafe services a w)) ->
  isWrite ev = true ->
  exists context creators w',
    QueryReturns services a w context creators w'
    /\ Justified context creators ev.
Proof.
  intros Hin Hw.
  assert (Hpre : ~ In ev (trace (resolveProvider services a w))).
  { intros Hp.
    assert (Hf : In ev (writes (trace (resolveProvider services a w))))
      by (apply filter_In; now split).
    now rewrite resolveProvider_reads_only in Hf. }
  pose proof (unsafe_stops_early services a w) as Hearly.
  destruct (outcome (resolveProvider services a w)) as [effective|x] eqn:Hout.
  2:{ rewrite Hearly in Hin. contradiction. }
  destruct (isValidCreatorId (effId effective)) eqn:Hvalid.
  2:{ rewrite (Hearly eq_refl) in Hin. contradiction. }
  destruct (findMany services (searchWhere (contextOf a effective))
              (final (resolveProvider services a w))) as [[creators|x] w']
    eqn:Hfind.
  - assert (Hquery : QueryReturns services a w (contextOf a effective)
                       creators w') by (now exists effective).
    rewrite (unsafe_run Hquery) in Hin. cbv zeta in Hin. cbn [trace] in Hin.
    apply in_app_or in Hin. destruct Hin as [Hin|[<-|Hin]];
      [contradiction|discriminate|].
    exists (contextOf a effective), creators, w'.
    split; [exact Hquery|]. exact (disambiguate_writes _ _ _ _ Hin Hw).
  - rewrite (unsafe_query_fails services a w Hout Hvalid Hfind) in Hin.
    cbn [trace] in Hin. apply in_app_or in Hin.
    destruct Hin as [Hin|[<-|[]]]; [contradiction|discriminate].
Qed.

End Writes.

(** X17. Every write of a request has its reason. Whatever
    [authenticateCreatorForMod] sends to the store as an insert or an
    update, in its first run or in the run that follows a uniqueness
    violation, comes after a match query of that run. An insert comes
    after a query that returned no account, and inserts the effective
    identity with a name that [validateCreatorName] returned. An update
    comes after a query that returned one account, which passed the
    ownership check and differs from the claim, and it rewrites that
    account: the name it sets is the stored one, unchanged, or one that
    [validateCreatorName] returned. No name longer than 25 code units is
    written unless it was stored already. *)
Theorem writes_are_justified :
  forall (World : Type) (services : Services World)
         (a : ModCreatorAuthorization) (w : World) (ev : Event),
    In ev (trace (authenticateCreatorForMod services a w)) ->
    isWrite ev = true ->
    exists w0 context creators w',
      (w0 = w
       \/ w0 = final (authenticateCreatorForModUnsafe services a w))
      /\ QueryReturns services a w0 context creators w'
      /\ Justified context creators ev.
Proof.
  intros World services a w ev Hin Hw.
  unfold authenticateCreatorForMod, tryCatch in Hin.
  destruct (outcome (authenticateCreatorForModUnsafe services a w))
    as [c|e].
  - destruct (unsafe_writes services a w ev Hin Hw)
      as (context & creators & w' & Hq & Hj).
    exists w, context, creators, w'. split; [now left|]. now split.
  - destruct (isUniqueConstraintViolation e).
    + cbn [trace] in Hin. apply in_app_or in Hin.
      destruct Hin as [Hin|Hin].
      * destruct (unsafe_writes services a w ev Hin Hw)
          as (context & creators & w' & Hq & Hj).
        exists w, context, creators, w'. split; [now left|]. now split.
      * destruct (unsafe_writes services a _ ev Hin Hw)
          as (context & creators & w' & Hq & Hj).
        exists (final (authenticateCreatorForModUnsafe services a w)),
          context, creators, w'.
        split; [now right|]. now split.
    + cbn [throw trace] in Hin. rewrite app_nil_r in Hin.
      destruct (unsafe_writes services a w ev Hin Hw)
        as (context & creators & w' & Hq & Hj).
      exists w, context, creators, w'. split; [now left|]. now split.
Qed.

(** The insert of [claimDave]: the name written has one space where the
    claim has two. *)
Lemma writes_are_justified_witness :
  exists w0 context creators w',
    (w0 = Store.quiet []
     \/ w0 = final (authenticateCreatorForModUnsafe
                      (Store.dbServices Store.noProfiles)
                      Examples.claimDave (Store.quiet [])))
    /\ QueryReturns (Store.dbServices Store.noProfiles) Examples.claimDave
         w0 context creators w'
    /\ Justified context creators daveInsert.
Proof.
  apply (writes_are_justified (Store.dbServices Store.noProfiles)
           Examples.claimDave (Store.quiet []) daveInsert).
  - vm_compute. right. left. reflexivity.
  - vm_compute. reflexivity.
Defined.

(** ** Histories *)

Lemma uniq_fixed (seen values : list jsstring) :
  NoDup values ->
  (forall x, In x values -> ~ In x seen) ->
  uniq seen values = values.
Proof.
  intros Hnd. revert seen.
  induction Hnd as [|v rest Hv Hrest IH]; intros seen Hseen; [reflexivity|].
  cbn [uniq].
  destruct (existsb (str_eqb v) seen) eqn:E.
  { apply seen_In in E. exfalso. apply (Hseen v); [now left | exact E]. }
  f_equal. apply IH. intros x Hx [<-|Hs]; [contradiction|].
  apply (Hseen x); [now right | exact Hs].
Qed.

(** X18. Merging a value into a history that already has it at its head
    changes nothing: the history that one sign-in leaves is what any
    number of sign-ins from the same device or address leaves. A merged
    history holds the new value and values of the old history only, the
    old ones in their old order. *)
Theorem merged_history_is_stable :
  forall (v : jsstring) (h : list jsstring),
    mergeHistory v (mergeHistory v h) = mergeHistory v h
    /\ (forall x, In x (mergeHistory v h) -> x = v \/ In x h)
    /\ exists kept,
         mergeHistory v h = v :: kept
         /\ kept = firstn 2 (uniq [v] h)
         /\ forall x, In x kept -> In x h /\ x <> v.
Proof.
  intros v h.
  assert (Hshape : mergeHistory v h = v :: firstn 2 (uniq [v] h)).
  { unfold mergeHistory. cbn [uniq existsb]. reflexivity. }
  assert (Hkept : forall x, In x (firstn 2 (uniq [v] h)) ->
                            In x h /\ x <> v).
  { intros x Hx. apply firstn_In in Hx. apply uniq_In in Hx.
    destruct Hx as [Hh Hs]. split; [exact Hh|].
    intros ->. apply Hs. now left. }
  split; [|split].
  - destruct (mergeHistory_shape v h) as (Hlen & Hnd & _).
    rewrite Hshape in *. set (kept := firstn 2 (uniq [v] h)) in *.
    unfold mergeHistory. cbn [uniq existsb].
    rewrite str_eqb_refl. cbn [orb].
    inversion Hnd as [|? ? Hv Hk]; subst.
    rewrite uniq_fixed; [|exact Hk|].
    + change (firstn 3 (v :: kept)) with (v :: firstn 2 kept).
      f_equal. apply firstn_all2.
      cbn [List.length] in Hlen. lia.
    + intros x Hx [<-|[]]. contradiction.
  - intros x Hx. rewrite Hshape in Hx. destruct Hx as [<-|Hx];
      [now left|]. right. now apply Hkept.
  - exists (firstn 2 (uniq [v] h)). now repeat split; try apply Hkept.
Qed.

(** A device that is already in the history. *)
Lemma merged_history_is_stable_witness :
  mergeHistory (lit "a")
    (mergeHistory (lit "a") [lit "b"; lit "a"; lit "c"; lit "d"])
  = [lit "a"; lit "b"; lit "c"].
Proof.
  rewrite (proj1 (merged_history_is_stable (lit "a")
                    [lit "b"; lit "a"; lit "c"; lit "d"])).
  reflexivity.
Defined.

(** ** [updateCreatorNameTranslation] *)

(** X19. [updateCreatorNameTranslation], call by call. For a name that
    is null, empty or not eligible, the translator is not called: one
    update is sent for the creator's id, with [needsTranslation] false
    and the locale, the transliteration and the translation null, and
    the result is [translated: false] or the error of the update. For
    an eligible name the translator is called once with the id and the
    name: when it throws, its error is the result and no update is
    sent; otherwise one update is sent for the creator's id, with
    [needsTranslation] false, the locale set to the translator's
    [twoLetterLocaleCode], the transliteration to its [transliteration]
    and the translation to its [translation], and the result is the row
    that the update returned, or the error of the update. The world is
    the one that the last call left. *)
Theorem translation_calls :
  forall (World : Type) (translator : Translation.Translator World)
         (creatorDbId : nat) (name : option jsstring) (w : World),
    let done :=
      Translation.updateCreatorNameTranslation translator creatorDbId name w
    in
    let nothing :=
      {| Translation.needsTranslation := false;
         Translation.creatorNameLocale := None;
         Translation.creatorNameLatinized := None;
         Translation.creatorNameTranslated := None |} in
    (name = None \/ name = Some []
     \/ (exists n, name = Some n
                   /\ Translation.isEligibleForTranslation translator n
                      = false) ->
     let (out, w1) :=
       Translation.updateTranslation translator creatorDbId nothing w in
     done
     = {| Translation.result :=
            match out with
            | Returned _ => Returned Translation.NotTranslated
            | Thrown e => Thrown e
            end;
          Translation.after := w1;
          Translation.calls :=
            [Translation.UpdateTranslationCalled creatorDbId nothing out] |})
    /\ (forall n,
          name = Some n -> n <> [] ->
          Translation.isEligibleForTranslation translator n = true ->
          let (translated, w1) :=
            Translation.translateCreatorName translator creatorDbId n w in
          match translated with
          | Thrown e =>
              done
              = {| Translation.result := Thrown e;
                   Translation.after := w1;
                   Translation.calls :=
                     [Translation.TranslateCalled creatorDbId n (Thrown e)] |}
          | Returned t =>
              let data :=
                {| Translation.needsTranslation := false;
                   Translation.creatorNameLocale :=
                     Translation.twoLetterLocaleCode t;
                   Translation.creatorNameLatinized :=
                     Translation.transliteration t;
                   Translation.creatorNameTranslated :=
                     Translation.translation t |} in
              let (out, w2) :=
                Translation.updateTranslation translator creatorDbId data w1
              in
              done
              = {| Translation.result :=
                     match out with
                     | Returned updated =>
                         Returned (Translation.TranslatedCreator updated)
                     | Thrown e => Thrown e
                     end;
                   Translation.after := w2;
                   Translation.calls :=
                     [Translation.TranslateCalled creatorDbId n (Returned t);
                      Translation.UpdateTranslationCalled creatorDbId data
                        out] |}
          end).
Proof.
  intros World translator creatorDbId name w done nothing. subst done.
  unfold Translation.updateCreatorNameTranslation. split.
  - intros Hname.
    assert (Hel : Translation.eligible translator name = false).
    { destruct Hname as [->|[->|(n & -> & Hn)]]; try reflexivity.
      unfold Translation.eligible. now destruct n. }
    rewrite Hel. cbn [negb].
    change Translation.cleared with nothing.
    now destruct (Translation.updateTranslation translator creatorDbId
                    nothing w) as [out w1].
  - intros n -> Hn He.
    assert (Hel : Translation.eligible translator (Some n) = true).
    { unfold Translation.eligible. destruct n; [contradiction | exact He]. }
    rewrite Hel. cbn [negb].
    destruct (Translation.translateCreatorName translator creatorDbId n w)
      as [[t|e] w1]; [|reflexivity].
    cbv zeta. unfold Translation.filled.
    now destruct (Translation.updateTranslation translator creatorDbId _ w1)
      as [out w2].
Qed.

(** A name in Cyrillic: the update that reaches the store. *)
Lemma translation_calls_witness :
  let done :=
    Translation.updateCreatorNameTranslation Translation.recorder 7
      (Some [1052; 1080; 1088]%N) [] in
  Translation.after done
  = [(7, {| Translation.needsTranslation := false;
            Translation.creatorNameLocale := Some (lit "ru");
            Translation.creatorNameLatinized := Some (lit "Mir");
            Translation.creatorNameTranslated := Some (lit "World") |})]
  /\ Translation.result done
     = Returned (Translation.TranslatedCreator Examples.alice).
Proof.
  cbv zeta.
  pose proof (proj2 (translation_calls Translation.recorder 7
                       (Some [1052; 1080; 1088]%N) [])
                [1052; 1080; 1088]%N eq_refl) as H.
  cbv zeta in H.
  assert (Hn : [1052; 1080; 1088]%N <> []) by discriminate.
  specialize (H Hn eq_refl).
  cbn [Translation.translateCreatorName Translation.updateTranslation
       Translation.recorder] in H.
  rewrite H. split; reflexivity.
Defined.
